(** * Template checker: a shallow embedding of
      scripts/template_checker/template_checker.py

    The development follows the pipeline of the script: text and regular
    expressions ([re.match], [re.sub]), glob matching ([fnmatch]), the file
    system as the script observes it ([os.walk], [os.path.exists],
    [os.path.isfile], [open]), and then the methods of [TemplateChecker] in
    the order of the source. *)

From Stdlib Require Import String Ascii DecimalString Bool Arith Lia List.
Import ListNotations.
Open Scope list_scope.

(** ** Text

    A Python [str] is a list of characters.  A character is its code point;
    [ascii] covers the code points below 256, and the character classes below
    are Python's classes on that range. *)

Definition pystr := list ascii.

Definition py (s : string) : pystr := list_ascii_of_string s.

Fixpoint str_eqb (a b : pystr) : bool :=
  match a, b with
  | [], [] => true
  | x :: a', y :: b' => Ascii.eqb x y && str_eqb a' b'
  | _, _ => false
  end.

Definition code (c : ascii) : nat := nat_of_ascii c.

Definition in_range (lo hi : nat) (c : ascii) : bool :=
  (lo <=? code c) && (code c <=? hi).

(** [str.isspace] and the class [\s] of [re]: TAB..CR, FS..US, space, NEL and
    the no-break space. *)
Definition is_space (c : ascii) : bool :=
  in_range 9 13 c || in_range 28 32 c || (code c =? 133) || (code c =? 160).

(** [\d]: the decimal digits. *)
Definition is_digit (c : ascii) : bool := in_range 48 57 c.

Definition is_upper (c : ascii) : bool := in_range 65 90 c.
Definition is_lower (c : ascii) : bool := in_range 97 122 c.

Definition LF : ascii := ascii_of_nat 10.
Definition QUOTE : ascii := ascii_of_nat 34.

(** [[A-Z0-9_]] *)
Definition is_env_key (c : ascii) : bool :=
  is_upper c || is_digit c || Ascii.eqb c "_".

(** [[a-zA-Z0-9_]] *)
Definition is_word (c : ascii) : bool :=
  is_lower c || is_upper c || is_digit c || Ascii.eqb c "_".

(** [.] without the DOTALL flag: anything but a line feed. *)
Definition is_dot (c : ascii) : bool := negb (Ascii.eqb c LF).

(** Any character but the double quote. *)
Definition not_quote (c : ascii) : bool := negb (Ascii.eqb c QUOTE).

Fixpoint lstrip (s : pystr) : pystr :=
  match s with
  | c :: s' => if is_space c then lstrip s' else s
  | [] => []
  end.

Definition rstrip (s : pystr) : pystr := rev (lstrip (rev s)).

Definition strip (s : pystr) : pystr := rstrip (lstrip s).

Fixpoint startswith (s p : pystr) : bool :=
  match p, s with
  | [], _ => true
  | x :: p', y :: s' => Ascii.eqb x y && startswith s' p'
  | _ :: _, [] => false
  end.

(** [s[a:b]] *)
Definition slice (a b : nat) (s : pystr) : pystr := firstn (b - a) (skipn a s).

(** [str(n)] for a length. *)
Definition str_of_nat (n : nat) : pystr :=
  py (NilEmpty.string_of_uint (Nat.to_uint n)).

(** [sep.join(l)] *)
Fixpoint join (sep : pystr) (l : list pystr) : pystr :=
  match l with
  | [] => []
  | [x] => x
  | x :: l' => x ++ sep ++ join sep l'
  end.

(** [s.split(c)] for a separator of one character. *)
Fixpoint split_on (c : ascii) (s : pystr) : list pystr :=
  match s with
  | [] => [[]]
  | x :: s' =>
      if Ascii.eqb x c then [] :: split_on c s'
      else
        match split_on c s' with
        | comp :: rest => (x :: comp) :: rest
        | [] => [[x]]
        end
  end.

(** ** Regular expressions

    The patterns of the script are sequences of literals, one-character
    classes under a greedy [*], [+] or [?], the anchors [^] and [$], and
    unnested groups.  [exec] is the backtracking matcher of [re] on this
    fragment: a greedy quantifier first takes as many characters as it can
    and gives them back one at a time while the rest of the pattern fails. *)

Module Re.

Inductive atom : Type :=
| Lit (c : ascii)
| Cls (p : ascii -> bool)
| Star (p : ascii -> bool)
| Plus (p : ascii -> bool)
| Opt (p : ascii -> bool)
| Bol
| Eol
| GOpen (n : nat)
| GClose (n : nat).

Definition regex := list atom.

Definition lits (s : string) : regex := map Lit (py s).

(** Group boundaries: start positions and end positions, by group number. *)
Record marks : Type := Marks {
  starts : list (nat * nat);
  ends : list (nat * nat)
}.

Definition no_marks : marks := Marks [] [].

Fixpoint assoc (n : nat) (l : list (nat * nat)) : option nat :=
  match l with
  | [] => None
  | (k, v) :: l' => if k =? n then Some v else assoc n l'
  end.

Definition set_start (n pos : nat) (m : marks) : marks :=
  Marks ((n, pos) :: starts m) (ends m).

Definition set_end (n pos : nat) (m : marks) : marks :=
  Marks (starts m) ((n, pos) :: ends m).

Fixpoint star_greedy {A : Type} (p : ascii -> bool) (pos : nat) (rest : pystr)
    (k : nat -> pystr -> option A) : option A :=
  match rest with
  | c :: rest' =>
      if p c then
        match star_greedy p (S pos) rest' k with
        | Some r => Some r
        | None => k pos rest
        end
      else k pos rest
  | [] => k pos rest
  end.

(** [exec re pos rest m]: match [re] against the subject from position [pos],
    where [rest] is the subject from [pos] on; the result is the marks and the
    end position of the match. *)
Fixpoint exec (re : regex) (pos : nat) (rest : pystr) (m : marks)
    : option (marks * nat) :=
  match re with
  | [] => Some (m, pos)
  | a :: re' =>
      match a with
      | Lit c =>
          match rest with
          | x :: rest' => if Ascii.eqb x c then exec re' (S pos) rest' m else None
          | [] => None
          end
      | Cls p =>
          match rest with
          | x :: rest' => if p x then exec re' (S pos) rest' m else None
          | [] => None
          end
      | Star p => star_greedy p pos rest (fun pos' rest' => exec re' pos' rest' m)
      | Plus p =>
          match rest with
          | x :: rest' =>
              if p x
              then star_greedy p (S pos) rest' (fun pos' rest' => exec re' pos' rest' m)
              else None
          | [] => None
          end
      | Opt p =>
          match rest with
          | x :: rest' =>
              if p x then
                match exec re' (S pos) rest' m with
                | Some r => Some r
                | None => exec re' pos rest m
                end
              else exec re' pos rest m
          | [] => exec re' pos rest m
          end
      | Bol => if pos =? 0 then exec re' pos rest m else None
      | Eol =>
          (* [$]: at the end, or just before a line feed that ends the subject *)
          match rest with
          | [] => exec re' pos rest m
          | [x] => if Ascii.eqb x LF then exec re' pos rest m else None
          | _ => None
          end
      | GOpen n => exec re' pos rest (set_start n pos m)
      | GClose n => exec re' pos rest (set_end n pos m)
      end
  end.

(** A match object: the subject with the marks of the successful match. *)
Record match_obj : Type := Match {
  subject : pystr;
  found : marks;
  stop : nat
}.

(** [re.match(pattern, s)] *)
Definition re_match (re : regex) (s : pystr) : option match_obj :=
  match exec re 0 s no_marks with
  | Some (m, e) => Some (Match s m e)
  | None => None
  end.

(** [m.group(n)], for a group that took part in the match. *)
Definition group (mo : match_obj) (n : nat) : pystr :=
  match assoc n (starts (found mo)), assoc n (ends (found mo)) with
  | Some a, Some b => slice a b (subject mo)
  | _, _ => []
  end.

(** Replacement templates such as [\1=<VALUE>]. *)
Inductive titem : Type :=
| TLit (s : pystr)
| TGroup (n : nat).

Definition template := list titem.

Fixpoint expand (t : template) (mo : match_obj) : pystr :=
  match t with
  | [] => []
  | TLit s :: t' => s ++ expand t' mo
  | TGroup n :: t' => group mo n ++ expand t' mo
  end.

(** The scan of [re.sub]: the leftmost match from each position on, replaced
    by the expanded template, the unmatched characters copied.  [skip] counts
    the characters of the current match still to be passed over.  No pattern
    of the script matches the empty string; an empty match is replaced and
    the scan moves on by one character. *)
Fixpoint sub_scan (re : regex) (repl : template) (subj : pystr)
    (pos : nat) (rest : pystr) (skip : nat) {struct rest} : pystr :=
  match skip with
  | S k =>
      match rest with
      | [] => []
      | _ :: rest' => sub_scan re repl subj (S pos) rest' k
      end
  | 0 =>
      match exec re pos rest no_marks with
      | Some (m, e) =>
          expand repl (Match subj m e) ++
          match rest with
          | [] => []
          | c :: rest' =>
              if e =? pos then c :: sub_scan re repl subj (S pos) rest' 0
              else sub_scan re repl subj (S pos) rest' (e - pos - 1)
          end
      | None =>
          match rest with
          | [] => []
          | c :: rest' => c :: sub_scan re repl subj (S pos) rest' 0
          end
      end
  end.

(** [re.sub(pattern, repl, s)] *)
Definition re_sub (re : regex) (repl : template) (s : pystr) : pystr :=
  sub_scan re repl s 0 s 0.

End Re.

Import Re.

(** ** LineNormalizer: [TemplateChecker.normalize_line] *)

(** [^([A-Z0-9_]+)=.*$] *)
Definition RE_ENV : regex :=
  [Bol; GOpen 1; Plus is_env_key; GClose 1; Lit "="; Star is_dot; Eol].

(** [^(.*_SECRET=).*$] and its three siblings; [marker] is the text between
    [.*] and the closing parenthesis. *)
Definition RE_MARKER (marker : string) : regex :=
  [Bol; GOpen 1; Star is_dot] ++ lits marker ++ [GClose 1; Star is_dot; Eol].

(** The group that opens the two JSON/YAML patterns, written here with
    spaces between its parts and Q for the double quote:
    [^ \s* Q? [a-zA-Z0-9_]+ Q? \s* : \s*]. *)
Definition RE_FIELD_HEAD : regex :=
  [GOpen 1; Bol; Star is_space; Opt (Ascii.eqb QUOTE); Plus is_word;
   Opt (Ascii.eqb QUOTE); Star is_space; Lit ":"; Star is_space; GClose 1].

(** The head followed by a quoted string without a quote inside. *)
Definition RE_FIELD_STR : regex :=
  RE_FIELD_HEAD ++ [Lit QUOTE; Star not_quote; Lit QUOTE].

(** The head followed by [\d+]. *)
Definition RE_FIELD_NUM : regex :=
  RE_FIELD_HEAD ++ [Plus is_digit].

(** [(^\s*-\s*Q[^Q]*=)[^Q]*Q$], Q the double quote. *)
Definition RE_COMPOSE : regex :=
  [GOpen 1; Bol; Star is_space; Lit "-"; Star is_space; Lit QUOTE;
   Star not_quote; Lit "="; GClose 1; Star not_quote; Lit QUOTE; Eol].

Definition normalize_line (line : pystr) : pystr :=
  (* Strip whitespace *)
  let line := strip line in
  (* Replace environment variable values *)
  let line := re_sub RE_ENV [TGroup 1; TLit (py "=<VALUE>")] line in
  (* Replace secrets and keys *)
  let line := re_sub (RE_MARKER "_SECRET=") [TGroup 1; TLit (py "<SECRET>")] line in
  let line := re_sub (RE_MARKER "_KEY=") [TGroup 1; TLit (py "<KEY>")] line in
  let line := re_sub (RE_MARKER "_TOKEN=") [TGroup 1; TLit (py "<TOKEN>")] line in
  let line := re_sub (RE_MARKER "_PASSWORD=") [TGroup 1; TLit (py "<PASSWORD>")] line in
  (* Replace JSON/YAML values *)
  let line := re_sub RE_FIELD_STR [TGroup 1; TLit (QUOTE :: py "<VALUE>" ++ [QUOTE])] line in
  let line := re_sub RE_FIELD_NUM [TGroup 1; TLit (py "<NUMBER>")] line in
  (* Replace Docker Compose values *)
  let line := re_sub RE_COMPOSE [TGroup 1; TLit (py "<VALUE>" ++ [QUOTE])] line in
  line.

(** ** PatternMatcher: [fnmatch]

    [fnmatch.fnmatch(name, pat)] on a POSIX system, after
    [fnmatch.translate]: literal characters, [*] (any run of characters,
    [/] included), [?] (any one character) and the bracket classes
    [[seq]] and [[!seq]], with their ranges.  A [[] without a closing
    bracket is a literal. *)

Module Glob.

Inductive tok : Type :=
| Any
| One
| Chr (c : ascii)
| Seq (negated : bool) (chunks : list pystr)
| Never.

(** The text of a class, [pat[i:j]], and the pattern after its closing
    bracket; [None] when no bracket closes it.  A [!] and then a [[]]] at the
    start belong to the text. *)
Fixpoint until_close (s : pystr) : option (pystr * pystr) :=
  match s with
  | [] => None
  | c :: s' =>
      if Ascii.eqb c "]" then Some ([], s')
      else
        match until_close s' with
        | Some (stuff, rest) => Some (c :: stuff, rest)
        | None => None
        end
  end.

Definition class_text (s : pystr) : option (pystr * pystr) :=
  let '(bang, s1) :=
    match s with
    | c :: r => if Ascii.eqb c "!" then ([c], r) else ([], s)
    | [] => ([], s)
    end in
  let '(close, s2) :=
    match s1 with
    | c :: r => if Ascii.eqb c "]" then ([c], r) else ([], s1)
    | [] => ([], s1)
    end in
  match until_close s2 with
  | Some (stuff, rest) => Some (bang ++ close ++ stuff, rest)
  | None => None
  end.

(** [s.find('-', k)] *)
Fixpoint find_hyphen (k : nat) (s : pystr) : option nat :=
  match s with
  | [] => None
  | c :: s' =>
      match k with
      | 0 => if Ascii.eqb c "-" then Some 0
             else option_map S (find_hyphen 0 s')
      | S k' => option_map S (find_hyphen k' s')
      end
  end.

(** The chunks between the hyphens that make ranges: the first hyphen is
    looked for from position [k] of the text, each further one from two
    characters after the chunk starts. *)
Fixpoint split_chunks (fuel k : nat) (s : pystr) : list pystr :=
  match fuel with
  | 0 => [s]
  | S fuel' =>
      match find_hyphen k s with
      | Some h => firstn h s :: split_chunks fuel' 2 (skipn (S h) s)
      | None => [s]
      end
  end.

(** An empty last chunk: the text ended in a hyphen, which goes to the
    chunk before. *)
Definition close_chunks (chunks : list pystr) : list pystr :=
  match rev chunks with
  | [] :: prev :: more => rev ((prev ++ ["-"%char]) :: more)
  | _ => chunks
  end.

(** Remove empty ranges, from the right. *)
Fixpoint remove_empty (chunks : list pystr) : list pystr :=
  match chunks with
  | [] => []
  | a :: rest =>
      match remove_empty rest with
      | [] => [a]
      | b :: rest' =>
          match rev a, b with
          | hi :: _, lo :: b' =>
              if code lo <? code hi
              then (removelast a ++ b') :: rest'
              else a :: b :: rest'
          | _, _ => a :: b :: rest'
          end
      end
  end.

Definition class_chunks (stuff : pystr) : list pystr :=
  if existsb (Ascii.eqb "-") stuff then
    let k := match stuff with
             | c :: _ => if Ascii.eqb c "!" then 2 else 1
             | [] => 1
             end in
    remove_empty (close_chunks (split_chunks (length stuff) k stuff))
  else [stuff].

(** The token of [[stuff]]. *)
Definition class_tok (stuff : pystr) : tok :=
  match class_chunks stuff with
  | [] | [[]] => Never
  | (c :: first) :: more =>
      if Ascii.eqb c "!" then
        match first, more with
        | [], [] => One
        | _, _ => Seq true (first :: more)
        end
      else Seq false ((c :: first) :: more)
  | [] :: more => Seq false ([] :: more)
  end.

Fixpoint translate_from (fuel : nat) (pat : pystr) : list tok :=
  match fuel with
  | 0 => []
  | S fuel' =>
      match pat with
      | [] => []
      | c :: rest =>
          if Ascii.eqb c "*" then Any :: translate_from fuel' rest
          else if Ascii.eqb c "?" then One :: translate_from fuel' rest
          else if Ascii.eqb c "[" then
            match class_text rest with
            | Some (stuff, after) => class_tok stuff :: translate_from fuel' after
            | None => Chr c :: translate_from fuel' rest
            end
          else Chr c :: translate_from fuel' rest
      end
  end.

(** Every step takes a character, so the length of the pattern is fuel
    enough. *)
Definition translate (pat : pystr) : list tok :=
  translate_from (length pat) pat.

(** [c] is a character of one of the chunks, or lies in the range that two
    neighbouring chunks make with the last character of the one and the
    first of the other. *)
Fixpoint in_chunks (chunks : list pystr) (c : ascii) : bool :=
  match chunks with
  | [] => false
  | a :: rest =>
      existsb (Ascii.eqb c) a ||
      match rev a, rest with
      | lo :: _, (hi :: _) :: _ => (code lo <=? code c) && (code c <=? code hi)
      | _, _ => false
      end ||
      in_chunks rest c
  end.

Fixpoint matches (ts : list tok) (s : pystr) : bool :=
  match ts with
  | [] => match s with [] => true | _ :: _ => false end
  | Any :: ts' =>
      (fix star (s : pystr) : bool :=
         matches ts' s || match s with [] => false | _ :: s' => star s' end) s
  | One :: ts' =>
      match s with _ :: s' => matches ts' s' | [] => false end
  | Chr c :: ts' =>
      match s with x :: s' => Ascii.eqb x c && matches ts' s' | [] => false end
  | Seq negated chunks :: ts' =>
      match s with
      | x :: s' => xorb negated (in_chunks chunks x) && matches ts' s'
      | [] => false
      end
  | Never :: _ => false
  end.

Definition fnmatch (name pat : pystr) : bool := matches (translate pat) name.

(** [fnmatch.filter(names, pat)] *)
Definition filter (names : list pystr) (pat : pystr) : list pystr :=
  List.filter (fun n => fnmatch n pat) names.

End Glob.

(** ** The file system, as the script observes it *)

(** A directory for [os.walk]: the names of its non-directory entries and
    its sub-directories with their names, both in the order [os.walk] lists
    them. *)
Inductive dirtree : Type :=
| Dir (files : list pystr) (subdirs : forest)
with forest : Type :=
| NoDirs
| SubDir (name : pystr) (t : dirtree) (more : forest).

Scheme dirtree_forest_ind := Induction for dirtree Sort Prop
  with forest_dirtree_ind := Induction for forest Sort Prop.

(** The pairs (root, files) of [os.walk(base_dir)], top down; the root is kept
    as the prefix that [os.path.relpath(os.path.join(root, filename),
    base_dir)] puts before [filename]: empty for [base_dir] itself, [d/] for
    its sub-directory [d], and so on. *)
Fixpoint os_walk (prefix : pystr) (t : dirtree) : list (pystr * list pystr) :=
  match t with
  | Dir files subdirs => (prefix, files) :: walk_all prefix subdirs
  end
with walk_all (prefix : pystr) (f : forest) : list (pystr * list pystr) :=
  match f with
  | NoDirs => []
  | SubDir name t more =>
      os_walk (prefix ++ name ++ py "/") t ++ walk_all prefix more
  end.

Inductive entry_kind : Type :=
| Missing
| Directory
| Regular
| Special.

(** What [open(path).readlines()] does: the lines, or an exception with its
    message. *)
Inductive read_result : Type :=
| Lines (ls : list pystr)
| Raises (msg : pystr).

(** Paths are taken relative to [base_dir]: the script only ever looks at
    [os.path.join(self.base_dir, p)]. *)
Record filesystem : Type := FS {
  tree : dirtree;
  kind_of : pystr -> entry_kind;
  readlines : pystr -> read_result;
  (* [os.getcwd()] *)
  getcwd : pystr
}.

(** [os.path.join(a, b)] of [posixpath]. *)
Definition os_path_join (a b : pystr) : pystr :=
  if startswith b (py "/") then b
  else
    match rev a with
    | [] => b
    | c :: _ => if Ascii.eqb c "/" then a ++ b else a ++ py "/" ++ b
    end.

(** [os.path.normpath] of [posixpath]: empty and [.] components dropped,
    [..] taking back the component before it, one slash kept at the start,
    or two when the path starts with exactly two. *)
Definition os_path_normpath (path : pystr) : pystr :=
  match path with
  | [] => py "."
  | _ :: _ =>
      let initial_slashes :=
        if startswith path (py "/") then
          if startswith path (py "//") && negb (startswith path (py "///"))
          then 2 else 1
        else 0 in
      let new_comps :=
        fold_left (fun new_comps comp =>
            if str_eqb comp [] || str_eqb comp (py ".") then new_comps
            else if negb (str_eqb comp (py "..")) ||
                    ((initial_slashes =? 0) &&
                     match new_comps with [] => true | _ :: _ => false end) ||
                    str_eqb (last new_comps []) (py "..")
            then new_comps ++ [comp]
            else removelast new_comps)
          (split_on "/" path) [] in
      let path := join (py "/") new_comps in
      let path := repeat "/"%char initial_slashes ++ path in
      match path with
      | [] => py "."
      | _ :: _ => path
      end
  end.

(** [os.path.abspath]; [cwd] is [os.getcwd()]. *)
Definition os_path_abspath (cwd path : pystr) : pystr :=
  let path := if startswith path (py "/") then path else os_path_join cwd path in
  os_path_normpath path.

Definition os_path_exists (fs : filesystem) (p : pystr) : bool :=
  match kind_of fs p with Missing => false | _ => true end.

Definition os_path_isfile (fs : filesystem) (p : pystr) : bool :=
  match kind_of fs p with Regular => true | _ => false end.

(** ** Printed output and loops

    A computation that prints returns its value with the lines printed. *)

Definition Out (A : Type) : Type := (A * list pystr)%type.

Definition ret {A : Type} (a : A) : Out A := (a, []).

Definition bind {A B : Type} (m : Out A) (f : A -> Out B) : Out B :=
  let (a, l1) := m in let (b, l2) := f a in (b, l1 ++ l2).

Definition print (s : pystr) : Out unit := (tt, [s]).

Definition when (b : bool) (m : Out unit) : Out unit := if b then m else ret tt.

Notation "x <- m ;; k" := (bind m (fun x => k))
  (at level 61, m at next level, right associativity).
Notation "m ;;; k" := (bind m (fun _ => k))
  (at level 61, right associativity).

(** [for x in xs: body], the loop variables threaded as [s]. *)
Fixpoint for_each {A S : Type} (xs : list A) (body : A -> S -> Out S) (s : S)
    : Out S :=
  match xs with
  | [] => ret s
  | x :: xs' => s' <- body x s ;; for_each xs' body s'
  end.

(** ** Dictionaries: insertion-ordered, as Python's [dict] *)

Definition dict (V : Type) : Type := list (pystr * V).

Fixpoint dict_get {V : Type} (d : dict V) (k : pystr) : option V :=
  match d with
  | [] => None
  | (k', v) :: d' => if str_eqb k' k then Some v else dict_get d' k
  end.

(** [d[k] = v]: an existing key keeps its place. *)
Fixpoint dict_set {V : Type} (d : dict V) (k : pystr) (v : V) : dict V :=
  match d with
  | [] => [(k, v)]
  | (k', v') :: d' =>
      if str_eqb k' k then (k', v) :: d' else (k', v') :: dict_set d' k v
  end.

Definition keys {V : Type} (d : dict V) : list pystr := map fst d.

(** ** The script *)

(** Define patterns for template files *)
Definition TEMPLATE_PATTERNS : list pystr :=
  [ py "*.template.*";
    py "*.template";
    py "*.env.template";
    py "*/*.template.*";
    py "*/*.template";
    py "*/*.env.template" ].

(** Define patterns to exclude from template search: the value the
    module-level list has when the module is loaded. *)
Definition EXCLUDE_PATTERNS : list pystr :=
  [ py "**/config.template.js";
    py "**/mirotalk/app/src/config.template.js";
    py "**/mirotalk_backup/app/src/config.template.js";
    py "**/.git*/**" ].

(** The attributes of a [TemplateChecker]. *)
Record checker : Type := Checker {
  base_dir : pystr;
  verbose : bool;
  template_files : list pystr;
  parent_files : dict pystr;
  differences : dict (list pystr)
}.

(** [TemplateChecker.__init__] *)
Definition init (cwd dir : pystr) (v : bool) : checker :=
  Checker (os_path_abspath cwd dir) v [] [] [].

(** [is_excluded_file]; [excl] is the list the global [EXCLUDE_PATTERNS]
    holds at the time of the call. *)
Fixpoint is_excluded_file (excl : list pystr) (file_path : pystr) : bool :=
  match excl with
  | [] => false
  | pattern :: excl' =>
      if Glob.fnmatch file_path pattern then true
      else is_excluded_file excl' file_path
  end.

Definition find_template_files (fs : filesystem) (excl : list pystr)
    (self : checker) : Out checker :=
  print (py "Searching for template files in " ++ base_dir self ++ py "...") ;;;
  found <-
    for_each (os_walk [] (tree fs)) (fun '(root, files) acc =>
      for_each TEMPLATE_PATTERNS (fun pattern acc =>
        for_each (Glob.filter files pattern) (fun filename acc =>
          let rel_path := root ++ filename in
          (* Skip excluded files *)
          if is_excluded_file excl rel_path then
            when (verbose self) (print (py "Excluding file: " ++ rel_path)) ;;;
            ret acc
          else
            when (verbose self) (print (py "Found template file: " ++ rel_path)) ;;;
            ret (acc ++ [rel_path]))
        acc)
      acc)
    [] ;;
  ret (Checker (base_dir self) (verbose self) found
               (parent_files self) (differences self)).

(** *** ParentResolver: [find_parent_files] *)

(** [^(.+)\.template(\..+)$] *)
Definition RE_RULE1 : regex :=
  [Bol; GOpen 1; Plus is_dot; GClose 1] ++ lits ".template" ++
  [GOpen 2; Lit "."; Plus is_dot; GClose 2; Eol].

(** [^(.+)\.template$] *)
Definition RE_RULE2 : regex :=
  [Bol; GOpen 1; Plus is_dot; GClose 1] ++ lits ".template" ++ [Eol].

(** [^(.+)\.env\.template$] *)
Definition RE_RULE3 : regex :=
  [Bol; GOpen 1; Plus is_dot; GClose 1] ++ lits ".env.template" ++ [Eol].

(** Truth value of an optional string: [None] and the empty string are
    false. *)
Definition truthy (o : option pystr) : bool :=
  match o with
  | Some (_ :: _) => true
  | _ => false
  end.

(** The paths the three patterns derive from a template path. *)
Definition derive1 (template_file : pystr) : option pystr :=
  match re_match RE_RULE1 template_file with
  | Some m => Some (group m 1 ++ group m 2)
  | None => None
  end.

Definition derive2 (template_file : pystr) : option pystr :=
  match re_match RE_RULE2 template_file with
  | Some m => Some (group m 1)
  | None => None
  end.

Definition derive3 (template_file : pystr) : option pystr :=
  match re_match RE_RULE3 template_file with
  | Some m => Some (group m 1 ++ py ".env")
  | None => None
  end.

(** One step of the cascade: [potential_parent] replaces [parent_file] when
    it exists. *)
Definition attempt (fs : filesystem) (derived : option pystr)
    (parent_file : option pystr) : option pystr :=
  match derived with
  | Some potential_parent =>
      if os_path_exists fs potential_parent then Some potential_parent
      else parent_file
  | None => parent_file
  end.

(** The value of [parent_file] after the three patterns were tried. *)
Definition candidate (fs : filesystem) (template_file : pystr) : option pystr :=
  let parent_file := None in
  (* Pattern 1: file.template.ext -> file.ext *)
  let parent_file := attempt fs (derive1 template_file) parent_file in
  (* Pattern 2: file.template -> file *)
  let parent_file :=
    if negb (truthy parent_file)
    then attempt fs (derive2 template_file) parent_file
    else parent_file in
  (* Pattern 3: file.env.template -> file.env *)
  let parent_file :=
    if negb (truthy parent_file)
    then attempt fs (derive3 template_file) parent_file
    else parent_file in
  parent_file.

Definition set_parent_files (self : checker) (d : dict pystr) : checker :=
  Checker (base_dir self) (verbose self) (template_files self) d
          (differences self).

Definition find_parent_files (fs : filesystem) (self : checker) : Out checker :=
  print (LF :: py "Matching template files with parent files...") ;;;
  parent_files <-
    for_each (template_files self) (fun template_file parent_files =>
      let parent_file := candidate fs template_file in
      if truthy parent_file then
        let parent_file := match parent_file with Some p => p | None => [] end in
        (* Check if parent_file is a file, not a directory *)
        if os_path_isfile fs parent_file then
          print (py "Matched: " ++ template_file ++ py " -> " ++ parent_file) ;;;
          ret (dict_set parent_files template_file parent_file)
        else
          print (py "WARNING: Parent path '" ++ parent_file ++ py "' is not a file.") ;;;
          ret parent_files
      else
        print (py "WARNING: No parent file found for " ++ template_file) ;;;
        ret parent_files)
    [] ;;
  ret (set_parent_files self parent_files).

(** *** StructuralDiffer: [find_missing_lines] *)

(** [line.strip() and not line.strip().startswith('#')] *)
Definition is_content (line : pystr) : bool :=
  match strip line with
  | [] => false
  | _ :: _ => negb (startswith (strip line) (py "#"))
  end.

(** The list the two normalising loops build from the lines of a file. *)
Definition normalized_lines (lines : list pystr) : list pystr :=
  map normalize_line (filter is_content lines).

(** [line in template_line_set] *)
Definition mem (line : pystr) (line_set : list pystr) : bool :=
  existsb (str_eqb line) line_set.

Definition enumerate {A : Type} (l : list A) : list (nat * A) :=
  combine (seq 0 (length l)) l.

(** The comparison proper: the body of the [try] once both files are read. *)
Definition compare_lines (template_lines parent_lines : list pystr) : list pystr :=
  (* Normalize lines to focus on structure *)
  let normalized_template_lines := normalized_lines template_lines in
  let normalized_parent_lines := normalized_lines parent_lines in
  (* Create sets of normalized lines for comparison *)
  let template_line_set := normalized_template_lines in
  fold_left (fun missing_lines '(i, line) =>
      if negb (mem line template_line_set) then
        (* Get original non-normalized line *)
        if i <? length parent_lines then
          let original_line := rstrip (nth i parent_lines []) in
          missing_lines ++ [original_line]
        else missing_lines
      else missing_lines)
    (enumerate normalized_parent_lines) [].

Definition failed_to_compare (template_file parent_file msg : pystr) : pystr :=
  py "ERROR: Failed to compare '" ++ template_file ++ py "' and '" ++
  parent_file ++ py "': " ++ msg.

Definition find_missing_lines (fs : filesystem) (self : checker)
    (template_file parent_file : pystr) : Out (list pystr) :=
  (* Additional check to make sure both paths are files *)
  if negb (os_path_isfile fs template_file) then
    print (py "ERROR: Template path '" ++
           os_path_join (base_dir self) template_file ++ py "' is not a file.") ;;;
    ret []
  else if negb (os_path_isfile fs parent_file) then
    print (py "ERROR: Parent path '" ++
           os_path_join (base_dir self) parent_file ++ py "' is not a file.") ;;;
    ret []
  else
    match readlines fs template_file with
    | Raises e => print (failed_to_compare template_file parent_file e) ;;; ret []
    | Lines template_lines =>
        match readlines fs parent_file with
        | Raises e => print (failed_to_compare template_file parent_file e) ;;; ret []
        | Lines parent_lines => ret (compare_lines template_lines parent_lines)
        end
    end.

(** *** [analyze_all_files] *)

Definition set_differences (self : checker) (d : dict (list pystr)) : checker :=
  Checker (base_dir self) (verbose self) (template_files self)
          (parent_files self) d.

Definition analyze_all_files (fs : filesystem) (self : checker) : Out checker :=
  print (LF :: py "Comparing template files with parent files...") ;;;
  missing_lines <-
    for_each (parent_files self) (fun '(template_file, parent_file) missing_lines =>
      print (py "Comparing: " ++ template_file ++ py " <-> " ++ parent_file) ;;;
      lines <- find_missing_lines fs self template_file parent_file ;;
      match lines with
      | _ :: _ =>
          when (verbose self)
            (print (py "  Found " ++ str_of_nat (length lines) ++ py " missing lines") ;;;
             for_each (firstn 5 lines) (fun line _ => print (py "  - " ++ line)) tt ;;;
             when (5 <? length lines)
               (print (py "  ... and " ++ str_of_nat (length lines - 5) ++ py " more"))) ;;;
          ret (dict_set missing_lines template_file lines)
      | [] =>
          print (py "  No missing lines found") ;;;
          ret missing_lines
      end)
    [] ;;
  ret (set_differences self missing_lines).

(** *** ReportBuilder: [generate_report] *)

(** [sep.join(l)] *)
(** The lines one pass of the loop over [self.differences.items()] appends;
    [None] is the [KeyError] of [self.parent_files[template_file]]. *)
Definition report_section (self : checker) (template_file : pystr)
    (missing_lines : list pystr) : option (list pystr) :=
  match dict_get (parent_files self) template_file with
  | None => None
  | Some parent_file =>
      Some
        ([ py "### " ++ template_file;
           py "*Compared to: " ++ parent_file ++ py "*";
           [] ] ++
         match missing_lines with
         | [] => [ py "No missing content found." ]
         | _ :: _ =>
             [ py "Missing lines that should be added to the template:";
               py "```" ] ++ missing_lines ++ [ py "```" ]
         end ++
         [ [] ])
  end.

Fixpoint report_sections (self : checker) (d : dict (list pystr))
    (report_lines : list pystr) : option (list pystr) :=
  match d with
  | [] => Some report_lines
  | (template_file, missing_lines) :: d' =>
      match report_section self template_file missing_lines with
      | None => None
      | Some ls => report_sections self d' (report_lines ++ ls)
      end
  end.

Definition report_head (timestamp : pystr) (self : checker) : list pystr :=
  [ py "# Template File Missing Content Report";
    [];
    py "Generated: " ++ timestamp;
    [];
    py "Base directory: " ++ base_dir self;
    py "Template files found: " ++ str_of_nat (length (template_files self));
    py "Parent files matched: " ++ str_of_nat (length (parent_files self));
    py "Files with missing content: " ++ str_of_nat (length (differences self));
    [] ].

(** [timestamp] is the formatted [datetime.datetime.now()]. *)
Definition generate_report (timestamp : pystr) (self : checker) : option pystr :=
  let report_lines := report_head timestamp self in
  match differences self with
  | [] =>
      Some (join [LF]
        (report_lines ++
         [ py "## Summary";
           [];
           py "No missing content found in template files compared to their parent files." ]))
  | _ :: _ =>
      match report_sections self (differences self)
              (report_lines ++ [ py "## Missing Content"; [] ]) with
      | Some ls => Some (join [LF] ls)
      | None => None
      end
  end.

(** *** [run] and [main] *)

Definition run (fs : filesystem) (excl : list pystr) (timestamp : pystr)
    (self : checker) : Out (checker * option pystr) :=
  self <- find_template_files fs excl self ;;
  self <- find_parent_files fs self ;;
  self <- analyze_all_files fs self ;;
  ret (self, generate_report timestamp self).

(** The parsed command line; [exclude] is [None] when no [--exclude] was
    given. *)
Record arguments : Type := Args {
  arg_dir : pystr;
  arg_verbose : bool;
  arg_exclude : option (list pystr)
}.

(** [main] up to [report = checker.run()]; what follows prints or saves the
    report.  The first component of the result is the module-level list
    [EXCLUDE_PATTERNS] after the call, [globals] the list before it. *)
Definition main (fs : filesystem) (timestamp : pystr) (args : arguments)
    (globals : list pystr) : list pystr * Out (checker * option pystr) :=
  (* Add any additional exclude patterns from command line *)
  let globals :=
    match arg_exclude args with
    | Some ((_ :: _) as patterns) =>
        fold_left (fun g pattern => g ++ [pattern]) patterns globals
    | _ => globals
    end in
  let checker := init (getcwd fs) (arg_dir args) (arg_verbose args) in
  (globals, run fs globals timestamp checker).

(** *** Value lines: [IGNORE_PATTERNS] and [is_value_line] *)

(** [.*_SECRET=.*$] and its like. *)
Definition IGNORE_MARKER (marker : string) : regex :=
  [Star is_dot] ++ lits marker ++ [Star is_dot; Eol].

(** The common head of the two patterns for configuration values. *)
Definition IGNORE_FIELD_HEAD : regex :=
  [Bol; Star is_space; Opt (Ascii.eqb QUOTE); Plus is_word;
   Opt (Ascii.eqb QUOTE); Star is_space; Lit ":"; Star is_space].

(** Define patterns for values/secrets to ignore *)
Definition IGNORE_PATTERNS : list regex :=
  [ (* Environment variables *)
    [Bol; GOpen 1; Plus is_env_key; GClose 1; Lit "="; Star is_dot; Eol];
    (* API keys and secrets *)
    IGNORE_MARKER "_SECRET=";
    IGNORE_MARKER "_KEY=";
    IGNORE_MARKER "_TOKEN=";
    IGNORE_MARKER "_PASSWORD=";
    (* Common configuration values *)
    IGNORE_FIELD_HEAD ++ [Lit QUOTE; Star not_quote; Lit QUOTE];
    IGNORE_FIELD_HEAD ++ [Plus is_digit];
    (* Docker Compose specific values *)
    [Bol; Star is_space; Lit "-"; Star is_space; Lit QUOTE; Star not_quote;
     Lit "="; Star not_quote; Lit QUOTE; Eol] ].

Definition matched (o : option match_obj) : bool :=
  match o with Some _ => true | None => false end.

(** Check if a line contains a value/secret that should be ignored. *)
Fixpoint is_value_line_in (patterns : list regex) (line : pystr) : bool :=
  match patterns with
  | [] => false
  | pattern :: patterns' =>
      if matched (re_match pattern line) then true
      else is_value_line_in patterns' line
  end.

Definition is_value_line (line : pystr) : bool :=
  is_value_line_in IGNORE_PATTERNS line.

(** *** The end of [main]: where the report goes *)

(** [c in s] for a character. *)
Definition contains_char (c : ascii) (s : pystr) : bool :=
  existsb (Ascii.eqb c) s.

(** [sub in s] *)
Fixpoint contains (s sub : pystr) : bool :=
  startswith s sub ||
  match s with
  | [] => false
  | _ :: s' => contains s' sub
  end.

(** [s.rfind(c) + 1]: the position just after the last [c] of [s], and 0
    when [s] has none. *)
Fixpoint rfind1 (c : ascii) (s : pystr) : nat :=
  match s with
  | [] => 0
  | x :: s' =>
      match rfind1 c s' with
      | 0 => if Ascii.eqb x c then 1 else 0
      | S n => S (S n)
      end
  end.

Fixpoint drop_while (p : ascii -> bool) (s : pystr) : pystr :=
  match s with
  | c :: s' => if p c then drop_while p s' else s
  | [] => []
  end.

(** [s.rstrip(c)] *)
Definition rstrip_char (c : ascii) (s : pystr) : pystr :=
  rev (drop_while (Ascii.eqb c) (rev s)).

Definition nonempty (s : pystr) : bool :=
  match s with [] => false | _ :: _ => true end.

(** [os.path.dirname] of [posixpath]: the head up to the last slash, without
    its trailing slashes unless it is made of slashes only. *)
Definition os_path_dirname (p : pystr) : pystr :=
  let i := rfind1 "/" p in
  let head := firstn i p in
  if nonempty head && negb (forallb (Ascii.eqb "/") head)
  then rstrip_char "/" head
  else head.

(** [os.path.splitext] of [posixpath]: the split at the last dot, when that
    dot lies in the last component and a character other than a dot stands
    between the start of the component and it. *)
Definition os_path_splitext (p : pystr) : pystr * pystr :=
  let sep1 := rfind1 "/" p in
  let dot1 := rfind1 "." p in
  if (sep1 <? dot1) &&
     existsb (fun c => negb (Ascii.eqb c ".")) (slice sep1 (dot1 - 1) p)
  then (firstn (dot1 - 1) p, skipn (dot1 - 1) p)
  else (p, []).

(** What the end of [main] asks of the system: [os.makedirs(path,
    exist_ok=True)], [open(path, 'w')] followed by [f.write(content)], and
    [print(text)]. *)
Inductive effect : Type :=
| Makedirs (path : pystr)
| WriteFile (path content : pystr)
| Printed (text : pystr).

(** Default reports directory; [script_dir] is the directory of the script
    file. *)
Definition REPORTS_DIR (script_dir : pystr) : pystr :=
  os_path_join script_dir (py "reports").

(** The calls that [main] makes from [if args.output:] on, in the order of
    the script; each is reached only when those before it returned, and
    [main_end] below carries them out.  [reports_dir] is [REPORTS_DIR],
    [timestamp] the current time in the form [%Y%m%d_%H%M%S], [output] the
    value of [--output], [None] when the option was not given. *)
Definition save_or_print (reports_dir timestamp : pystr)
    (output : option pystr) (report : pystr) : list effect :=
  match output with
  | Some ((_ :: _) as output) =>
      (* If no directory is specified in the output path, use the reports
         directory *)
      let output_path := output in
      let '(made, output_path) :=
        if negb (nonempty (os_path_dirname output_path)) then
          (* Add timestamp to filename if not provided *)
          let '(base_name, ext) := os_path_splitext output_path in
          let ext := if negb (nonempty ext) then py ".md" else ext in
          let output_path :=
            if negb (contains_char "_" base_name) &&
               negb (contains base_name timestamp)
            then base_name ++ py "_" ++ timestamp ++ ext
            else output_path in
          ([Makedirs reports_dir], os_path_join reports_dir output_path)
        else ([], output_path) in
      (* Create parent directory if it doesn't exist *)
      made ++
      [ Makedirs (os_path_dirname output_path);
        WriteFile output_path report;
        Printed (LF :: py "Report saved to " ++ output_path) ]
  | _ => [Printed (LF :: report)]
  end.

(** The files an effect list writes, with their contents. *)
Fixpoint written (es : list effect) : list (pystr * pystr) :=
  match es with
  | [] => []
  | WriteFile p c :: es' => (p, c) :: written es'
  | _ :: es' => written es'
  end.

(** The directories an effect list creates. *)
Fixpoint created (es : list effect) : list pystr :=
  match es with
  | [] => []
  | Makedirs p :: es' => p :: created es'
  | _ :: es' => created es'
  end.

(** What [os.makedirs] and [open] do with a path when they are called:
    [None] when the call returns, [Some e] when it raises the exception
    [e], as [open] does on a path that names a directory. *)
Record os_calls : Type := OsCalls {
  makedirs_raises : pystr -> option pystr;
  open_raises : pystr -> option pystr
}.

(** The calls carried out in order up to the first that raises: the
    effects that took place, and the exception that ended the run, if
    any.  Nothing in [main] catches it. *)
Fixpoint perform (os : os_calls) (es : list effect)
    : list effect * option pystr :=
  match es with
  | [] => ([], None)
  | Makedirs path :: es' =>
      match makedirs_raises os path with
      | Some e => ([], Some e)
      | None => let '(done, r) := perform os es' in (Makedirs path :: done, r)
      end
  | WriteFile path content :: es' =>
      match open_raises os path with
      | Some e => ([], Some e)
      | None =>
          let '(done, r) := perform os es' in (WriteFile path content :: done, r)
      end
  | Printed text :: es' =>
      let '(done, r) := perform os es' in (Printed text :: done, r)
  end.

(** [main] from [if args.output:] on. *)
Definition main_end (os : os_calls) (reports_dir timestamp : pystr)
    (output : option pystr) (report : pystr) : list effect * option pystr :=
  perform os (save_or_print reports_dir timestamp output report).

(** ** Sample file systems for the worked examples *)

Inductive sample_entry : Type :=
| AFile (lines : list pystr)
| Unreadable (msg : pystr)
| ADir.

Fixpoint sample_find (tab : list (pystr * sample_entry)) (p : pystr)
    : option sample_entry :=
  match tab with
  | [] => None
  | (q, e) :: tab' => if str_eqb q p then Some e else sample_find tab' p
  end.

Definition sample_fs (t : dirtree) (tab : list (pystr * sample_entry))
    : filesystem :=
  FS t
     (fun p =>
        match sample_find tab p with
        | Some (AFile _) | Some (Unreadable _) => Regular
        | Some ADir => Directory
        | None => Missing
        end)
     (fun p =>
        match sample_find tab p with
        | Some (AFile ls) => Lines ls
        | Some (Unreadable msg) => Raises msg
        | _ => Raises (py "[Errno 2] No such file or directory")
        end)
     (py "/srv/project").

(** A line of a file as [readlines] returns it. *)
Definition ln (s : string) : pystr := py s ++ [LF].

(** * Properties *)

(** ** Basic facts on text *)

Lemma str_eqb_refl (a : pystr) : str_eqb a a = true.
Proof.
  induction a as [|x a IH]; simpl; [reflexivity|].
  now rewrite Ascii.eqb_refl, IH.
Qed.

Lemma str_eqb_eq (a b : pystr) : str_eqb a b = true <-> a = b.
Proof.
  split.
  - revert b; induction a as [|x a IH]; intros [|y b]; simpl; try easy.
    intros H. apply andb_true_iff in H as [H1 H2].
    apply Ascii.eqb_eq in H1. apply IH in H2. now subst.
  - intros ->. apply str_eqb_refl.
Qed.

Lemma str_eqb_neq (a b : pystr) : str_eqb a b = false <-> a <> b.
Proof.
  split.
  - intros H E. apply str_eqb_eq in E. congruence.
  - intros H. destruct (str_eqb a b) eqn:E; [|reflexivity].
    apply str_eqb_eq in E. contradiction.
Qed.

Lemma mem_In (x : pystr) (l : list pystr) : mem x l = true <-> In x l.
Proof.
  unfold mem. rewrite existsb_exists. split.
  - intros [y [Hy E]]. apply str_eqb_eq in E. now subst.
  - intros H. exists x. split; [assumption|apply str_eqb_refl].
Qed.

(** ** Printed output: the value of a computation *)

Lemma fst_bind {A B : Type} (m : Out A) (f : A -> Out B) :
  fst (bind m f) = fst (f (fst m)).
Proof.
  unfold bind. destruct m as [a l1]. simpl. now destruct (f a).
Qed.

Lemma snd_bind {A B : Type} (m : Out A) (f : A -> Out B) :
  snd (bind m f) = snd m ++ snd (f (fst m)).
Proof.
  unfold bind. destruct m as [a l1]. simpl. now destruct (f a).
Qed.

Lemma fst_for_each {A S : Type} (body : A -> S -> Out S) (xs : list A) (s : S) :
  fst (for_each xs body s) = fold_left (fun s x => fst (body x s)) xs s.
Proof.
  revert s; induction xs as [|x xs IH]; intros s; simpl; [reflexivity|].
  now rewrite fst_bind, IH.
Qed.

(** A loop whose every pass appends [g x] to its accumulator computes a
    [flat_map]. *)
Lemma for_each_appends {A B : Type} (g : A -> list B)
    (body : A -> list B -> Out (list B)) :
  (forall x acc, fst (body x acc) = acc ++ g x) ->
  forall xs acc, fst (for_each xs body acc) = acc ++ flat_map g xs.
Proof.
  intros Hb xs; induction xs as [|x xs IH]; intros acc; simpl.
  - now rewrite app_nil_r.
  - rewrite fst_bind, IH, Hb. now rewrite <- app_assoc.
Qed.

(** ** Discovery *)

(** What one file name of one directory contributes for one pattern. *)
Definition kept (excl : list pystr) (root filename : pystr) : list pystr :=
  if is_excluded_file excl (root ++ filename) then [] else [root ++ filename].

(** The value of [find_template_files], without the printing. *)
Definition discovered (fs : filesystem) (excl : list pystr) : list pystr :=
  flat_map (fun rf : pystr * list pystr =>
    flat_map (fun pattern =>
      flat_map (kept excl (fst rf)) (Glob.filter (snd rf) pattern))
      TEMPLATE_PATTERNS)
    (os_walk [] (tree fs)).

Lemma find_template_files_value fs excl self :
  template_files (fst (find_template_files fs excl self)) = discovered fs excl.
Proof.
  unfold find_template_files, discovered.
  rewrite fst_bind, fst_bind. unfold ret. cbn [fst template_files].
  rewrite for_each_appends with
    (g := fun rf : pystr * list pystr =>
            flat_map (fun pattern =>
              flat_map (kept excl (fst rf)) (Glob.filter (snd rf) pattern))
              TEMPLATE_PATTERNS); [reflexivity|].
  intros [root files] acc.
  apply for_each_appends with
    (g := fun pattern => flat_map (kept excl root) (Glob.filter files pattern)).
  intros pattern acc'.
  apply for_each_appends with (g := kept excl root).
  intros filename acc''. unfold kept.
  destruct (is_excluded_file excl (root ++ filename)).
  - rewrite fst_bind. unfold ret. cbn [fst]. now rewrite app_nil_r.
  - rewrite fst_bind. reflexivity.
Qed.

Lemma find_template_files_frame fs excl self :
  let self' := fst (find_template_files fs excl self) in
  base_dir self' = base_dir self /\ verbose self' = verbose self /\
  parent_files self' = parent_files self /\ differences self' = differences self.
Proof.
  unfold find_template_files. rewrite fst_bind, fst_bind. unfold ret.
  cbn [fst base_dir verbose parent_files differences]. auto.
Qed.

Lemma discovered_not_excluded fs excl P :
  In P (discovered fs excl) -> is_excluded_file excl P = false.
Proof.
  unfold discovered. intros H.
  apply in_flat_map in H as [[root files] [_ H]].
  apply in_flat_map in H as [pattern [_ H]].
  apply in_flat_map in H as [filename [_ H]].
  unfold kept in H. simpl in H.
  destruct (is_excluded_file excl (root ++ filename)) eqn:E; simpl in H.
  - contradiction.
  - destruct H as [<-|[]]. exact E.
Qed.

(** C7. Exclusion dominates inclusion: a relative path that matches one of
    the exclusion patterns in force is never among the template files that
    [find_template_files] returns, whatever inclusion patterns its file name
    matches. *)
Theorem exclusion_dominates fs excl self P :
  is_excluded_file excl P = true ->
  ~ In P (template_files (fst (find_template_files fs excl self))).
Proof.
  intros Hex Hin. rewrite find_template_files_value in Hin.
  apply discovered_not_excluded in Hin. congruence.
Qed.

(** A tree with a template at the top and one below a [.github] directory. *)
Definition tree_with_git : dirtree :=
  Dir [py "app.env.template"]
      (SubDir (py "sub")
         (Dir []
            (SubDir (py ".github") (Dir [py "ci.template"] NoDirs) NoDirs))
         NoDirs).

Lemma exclusion_dominates_witness :
  is_excluded_file EXCLUDE_PATTERNS (py "sub/.github/ci.template") = true /\
  Glob.fnmatch (py "ci.template") (py "*.template") = true /\
  ~ In (py "sub/.github/ci.template")
       (template_files
          (fst (find_template_files (sample_fs tree_with_git [])
                  EXCLUDE_PATTERNS (init (py "/srv/project") (py ".") false)))).
Proof.
  split; [reflexivity|]. split; [reflexivity|].
  apply exclusion_dominates. reflexivity.
Defined.

(** *** How often a path is discovered *)

Definition count_str (P : pystr) (l : list pystr) : nat :=
  length (filter (str_eqb P) l).

(** The inclusion patterns a file name matches. *)
Definition matching_patterns (filename : pystr) : list pystr :=
  filter (Glob.fnmatch filename) TEMPLATE_PATTERNS.

Lemma count_str_app P l1 l2 :
  count_str P (l1 ++ l2) = count_str P l1 + count_str P l2.
Proof. unfold count_str. now rewrite filter_app, length_app. Qed.

Lemma count_str_flat_map {A : Type} P (g : A -> list pystr) (l : list A) :
  count_str P (flat_map g l) = list_sum (map (fun x => count_str P (g x)) l).
Proof.
  induction l as [|x l IH]; simpl; [reflexivity|].
  now rewrite count_str_app, IH.
Qed.

Lemma list_sum_ext {A : Type} (f g : A -> nat) (l : list A) :
  (forall x, In x l -> f x = g x) ->
  list_sum (map f l) = list_sum (map g l).
Proof.
  induction l as [|x l IH]; simpl; intros H; [reflexivity|].
  rewrite H by now left. rewrite IH; [reflexivity|].
  intros y Hy. apply H. now right.
Qed.

Lemma list_sum_filter {A : Type} (c : A -> nat) (q : A -> bool) (l : list A) :
  list_sum (map c (filter q l)) =
  list_sum (map (fun x => if q x then c x else 0) l).
Proof.
  induction l as [|x l IH]; simpl; [reflexivity|].
  destruct (q x); simpl; now rewrite IH.
Qed.

Lemma list_sum_plus {A : Type} (a b : A -> nat) (l : list A) :
  list_sum (map (fun x => a x + b x) l) =
  list_sum (map a l) + list_sum (map b l).
Proof.
  induction l as [|x l IH]; simpl; [reflexivity|]. rewrite IH. lia.
Qed.

Lemma list_sum_zero {A : Type} (f : A -> nat) (l : list A) :
  (forall x, In x l -> f x = 0) -> list_sum (map f l) = 0.
Proof.
  induction l as [|x l IH]; simpl; intros H; [reflexivity|].
  rewrite H by now left. apply IH. intros y Hy. apply H. now right.
Qed.

(** Summing over the patterns and then over the names each one selects is
    summing over the names, each weighted by the number of patterns that
    select it. *)
Lemma sum_patterns_files {A B : Type} (c : A -> nat) (m : A -> B -> bool)
    (pats : list B) (files : list A) :
  list_sum (map (fun pat => list_sum (map c (filter (fun f => m f pat) files))) pats) =
  list_sum (map (fun f => c f * length (filter (m f) pats)) files).
Proof.
  induction pats as [|pat pats IH]; simpl.
  - induction files as [|f files IHf]; simpl; [reflexivity|].
    rewrite <- IHf. lia.
  - rewrite IH, list_sum_filter, <- list_sum_plus.
    apply list_sum_ext. intros f _.
    destruct (m f pat); simpl; lia.
Qed.

Lemma count_str_kept excl root P f :
  count_str P (kept excl root f) =
  if str_eqb P (root ++ f)
  then (if is_excluded_file excl P then 0 else 1)
  else 0.
Proof.
  unfold kept, count_str.
  destruct (str_eqb P (root ++ f)) eqn:E.
  - apply str_eqb_eq in E. subst P.
    destruct (is_excluded_file excl (root ++ f)); simpl; [reflexivity|].
    now rewrite str_eqb_refl.
  - destruct (is_excluded_file excl (root ++ f)); simpl; [reflexivity|].
    now rewrite E.
Qed.

Lemma count_discovered fs excl P :
  count_str P (discovered fs excl) =
  if is_excluded_file excl P then 0
  else
    list_sum (map (fun rf : pystr * list pystr =>
      list_sum (map (fun f =>
        if str_eqb P (fst rf ++ f) then length (matching_patterns f) else 0)
        (snd rf)))
      (os_walk [] (tree fs))).
Proof.
  unfold discovered. rewrite count_str_flat_map.
  assert (Hdir : forall rf : pystr * list pystr,
    count_str P
      (flat_map (fun pattern =>
         flat_map (kept excl (fst rf)) (Glob.filter (snd rf) pattern))
         TEMPLATE_PATTERNS) =
    if is_excluded_file excl P then 0
    else list_sum (map (fun f =>
        if str_eqb P (fst rf ++ f) then length (matching_patterns f) else 0)
        (snd rf))).
  { intros [root files]. cbn [fst snd].
    rewrite count_str_flat_map.
    rewrite list_sum_ext with
      (g := fun pattern => list_sum (map (fun f => count_str P (kept excl root f))
                                      (filter (fun f => Glob.fnmatch f pattern) files))).
    2:{ intros pattern _. unfold Glob.filter. apply count_str_flat_map. }
    rewrite sum_patterns_files.
    destruct (is_excluded_file excl P) eqn:E.
    - apply list_sum_zero. intros f _. rewrite count_str_kept, E.
      now destruct (str_eqb P (root ++ f)).
    - apply list_sum_ext. intros f _. rewrite count_str_kept, E.
      unfold matching_patterns.
      destruct (str_eqb P (root ++ f)); simpl; lia. }
  destruct (is_excluded_file excl P) eqn:E.
  - apply list_sum_zero. intros rf _. now rewrite Hdir.
  - apply list_sum_ext. intros rf _. now rewrite Hdir.
Qed.

(** A directory that holds the one file [x.env.template]. *)
Definition tree_one_env : dirtree := Dir [py "x.env.template"] NoDirs.

(** C10. Discovery returns a path once for every inclusion pattern its file
    name matches: the number of times a path occurs in the list of
    [find_template_files] is, for a path that is not excluded, the sum over
    the files with that path of the number of patterns of
    [TEMPLATE_PATTERNS] matching the file name (and zero for an excluded
    path).  The file [x.env.template] matches [*.template] and
    [*.env.template], is listed twice, and the report counts two template
    files found. *)
Theorem discovery_repeats_per_pattern :
  (forall fs excl self P,
     count_str P (template_files (fst (find_template_files fs excl self))) =
     if is_excluded_file excl P then 0
     else
       list_sum (map (fun rf : pystr * list pystr =>
         list_sum (map (fun f =>
           if str_eqb P (fst rf ++ f) then length (matching_patterns f) else 0)
           (snd rf)))
         (os_walk [] (tree fs)))) /\
  matching_patterns (py "x.env.template") =
    [py "*.template"; py "*.env.template"] /\
  (let self := fst (find_template_files (sample_fs tree_one_env [])
                      EXCLUDE_PATTERNS (init (py "/srv/project") (py ".") false)) in
   template_files self = [py "x.env.template"; py "x.env.template"] /\
   nth 5 (report_head (py "2025-01-01 00:00:00") self) [] =
     py "Template files found: 2").
Proof.
  split; [|split; [reflexivity|split; reflexivity]].
  intros fs excl self P.
  rewrite find_template_files_value. apply count_discovered.
Qed.

(** ** The exclusion list across runs *)

Lemma fold_left_append {A : Type} (l g : list A) :
  fold_left (fun g x => g ++ [x]) l g = g ++ l.
Proof.
  revert g; induction l as [|x l IH]; intros g; simpl.
  - now rewrite app_nil_r.
  - rewrite IH. now rewrite <- app_assoc.
Qed.

(** The patterns a call of [main] leaves in the module-level list. *)
Lemma main_globals fs timestamp args globals :
  fst (main fs timestamp args globals) =
  globals ++ match arg_exclude args with Some l => l | None => [] end.
Proof.
  unfold main. cbn [fst].
  destruct (arg_exclude args) as [[|p l]|].
  - now rewrite app_nil_r.
  - apply fold_left_append.
  - now rewrite app_nil_r.
Qed.

(** C3, evaluated on the script.  Two calls of [main] in one process, the
    first with [--exclude *.template], the second without [--exclude]: after
    the first call the module-level list holds the defaults and the extra
    pattern, the second call runs with that longer list and finds no
    template, where a call that starts from the defaults finds
    [x.env.template]. *)
Theorem main_keeps_extra_patterns :
  let fs := sample_fs tree_one_env [] in
  let ts := py "2025-01-01 00:00:00" in
  let first := main fs ts (Args (py ".") false (Some [py "*.template"]))
                 EXCLUDE_PATTERNS in
  let second := main fs ts (Args (py ".") false None) (fst first) in
  let fresh := main fs ts (Args (py ".") false None) EXCLUDE_PATTERNS in
  fst first = EXCLUDE_PATTERNS ++ [py "*.template"] /\
  fst second = EXCLUDE_PATTERNS ++ [py "*.template"] /\
  fst second <> EXCLUDE_PATTERNS /\
  template_files (fst (fst (snd second))) = [] /\
  template_files (fst (fst (snd fresh))) =
    [py "x.env.template"; py "x.env.template"].
Proof.
  cbv zeta. repeat split; try reflexivity.
  vm_compute. discriminate.
Qed.

(** ** The structural comparison *)

(** C1, evaluated on the script.  The template holds [PORT=xxxx]; the parent
    holds a comment line, [PORT=8080] and [NEW_FEATURE_FLAG=true].  The
    normalised form of [NEW_FEATURE_FLAG=true] is the one absent from the
    template, at index 1 of the filtered list; the script reports line 1 of
    the unfiltered file, [PORT=8080], whose normalised form the template
    has. *)
Theorem missing_line_index_slip :
  let template_lines := [ln "PORT=xxxx"] in
  let parent_lines := [ln "# settings"; ln "PORT=8080"; ln "NEW_FEATURE_FLAG=true"] in
  compare_lines template_lines parent_lines = [py "PORT=8080"] /\
  normalized_lines parent_lines = [py "PORT=<VALUE>"; py "NEW_FEATURE_FLAG=<VALUE>"] /\
  mem (normalize_line (ln "PORT=8080")) (normalized_lines template_lines) = true /\
  mem (normalize_line (ln "NEW_FEATURE_FLAG=true")) (normalized_lines template_lines) = false /\
  fst (find_missing_lines
         (sample_fs (Dir [py "app.env.template"; py "app.env"] NoDirs)
            [(py "app.env.template", AFile template_lines);
             (py "app.env", AFile parent_lines)])
         (init (py "/srv/project") (py ".") false) (py "app.env.template") (py "app.env"))
    = [py "PORT=8080"].
Proof.
  cbv zeta. repeat split; vm_compute; reflexivity.
Qed.

(** One pass of the loop over [enumerate(normalized_parent_lines)]. *)
Definition flag_step (template_line_set parent_lines : list pystr)
    (il : nat * pystr) : list pystr :=
  if negb (mem (snd il) template_line_set) then
    if fst il <? length parent_lines
    then [rstrip (nth (fst il) parent_lines [])]
    else []
  else [].

Lemma fold_left_flat_map {A B : Type} (f : list B -> A -> list B)
    (g : A -> list B) (l : list A) (acc : list B) :
  (forall acc x, f acc x = acc ++ g x) ->
  fold_left f l acc = acc ++ flat_map g l.
Proof.
  intros Hf. revert acc; induction l as [|x l IH]; intros acc; simpl.
  - now rewrite app_nil_r.
  - rewrite IH, Hf. now rewrite <- app_assoc.
Qed.

Lemma compare_lines_flat_map tl pl :
  compare_lines tl pl =
  flat_map (flag_step (normalized_lines tl) pl) (enumerate (normalized_lines pl)).
Proof.
  unfold compare_lines.
  rewrite <- (app_nil_l (flat_map _ _)).
  apply fold_left_flat_map. intros acc [i line]. unfold flag_step. cbn [fst snd].
  destruct (negb (mem line (normalized_lines tl))); [|now rewrite app_nil_r].
  destruct (i <? length pl); [reflexivity|now rewrite app_nil_r].
Qed.

Lemma in_combine_seq {A : Type} (l : list A) (s i : nat) (x : A) :
  In (i, x) (combine (seq s (length l)) l) <->
  s <= i /\ nth_error l (i - s) = Some x.
Proof.
  revert s; induction l as [|y l IH]; intros s; simpl.
  - split; [contradiction|]. intros [_ H]. now destruct (i - s).
  - rewrite IH. split.
    + intros [H|[H1 H2]].
      * inversion H; subst. split; [lia|]. now rewrite Nat.sub_diag.
      * split; [lia|]. replace (i - s) with (S (i - S s)) by lia. exact H2.
    + intros [H1 H2]. destruct (i - s) as [|k] eqn:E.
      * left. simpl in H2. inversion H2. f_equal. lia.
      * right. split; [lia|]. simpl in H2. now replace (i - S s) with k by lia.
Qed.

Lemma in_enumerate {A : Type} (l : list A) (i : nat) (x : A) :
  In (i, x) (enumerate l) <-> nth_error l i = Some x.
Proof.
  unfold enumerate. rewrite in_combine_seq, Nat.sub_0_r.
  split; [now intros [_ H]|]. intros H. split; [lia|exact H].
Qed.

Lemma normalized_lines_length pl : length (normalized_lines pl) <= length pl.
Proof.
  unfold normalized_lines. rewrite length_map. apply filter_length_le.
Qed.

Lemma in_normalized_lines n lines :
  In n (normalized_lines lines) <->
  exists l, In l lines /\ is_content l = true /\ normalize_line l = n.
Proof.
  unfold normalized_lines. rewrite in_map_iff. split.
  - intros [l [E H]]. apply filter_In in H as [H1 H2]. now exists l.
  - intros [l [H1 [H2 E]]]. exists l. split; [exact E|].
    apply filter_In. now split.
Qed.

(** The positions, in the filtered list of the parent, of the normalised
    lines that the template set lacks. *)
Definition flagged_indices (tl pl : list pystr) : list nat :=
  map fst (filter (fun il : nat * pystr => negb (mem (snd il) (normalized_lines tl)))
             (enumerate (normalized_lines pl))).

Lemma compare_lines_indices tl pl :
  compare_lines tl pl = map (fun i => rstrip (nth i pl [])) (flagged_indices tl pl).
Proof.
  rewrite compare_lines_flat_map. unfold flagged_indices.
  assert (H : forall il, In il (enumerate (normalized_lines pl)) ->
                         (fst il <? length pl) = true).
  { intros [i n] Hin. apply in_enumerate in Hin.
    apply Nat.ltb_lt. cbn [fst].
    assert (i < length (normalized_lines pl))
      by (apply nth_error_Some; congruence).
    pose proof (normalized_lines_length pl). lia. }
  induction (enumerate (normalized_lines pl)) as [|il L IH]; [reflexivity|].
  simpl. rewrite IH by (intros x Hx; apply H; now right).
  unfold flag_step at 1. rewrite (H il) by now left.
  now destruct (negb (mem (snd il) (normalized_lines tl))).
Qed.

Lemma in_flagged_indices tl pl i :
  In i (flagged_indices tl pl) <->
  exists n, nth_error (normalized_lines pl) i = Some n /\
            ~ In n (normalized_lines tl).
Proof.
  unfold flagged_indices. rewrite in_map_iff. split.
  - intros [[j n] [E H]]. cbn [fst] in E. subst j.
    apply filter_In in H as [H1 H2]. cbn [snd] in H2.
    apply in_enumerate in H1. exists n. split; [exact H1|].
    intros Hin. apply mem_In in Hin. rewrite Hin in H2. discriminate.
  - intros [n [H1 H2]]. exists (i, n). split; [reflexivity|].
    apply filter_In. split; [now apply in_enumerate|]. cbn [snd].
    destruct (mem n (normalized_lines tl)) eqn:E; [|reflexivity].
    apply mem_In in E. contradiction.
Qed.

Lemma find_missing_lines_read fs self t p tl pl :
  os_path_isfile fs t = true -> os_path_isfile fs p = true ->
  readlines fs t = Lines tl -> readlines fs p = Lines pl ->
  find_missing_lines fs self t p = ret (compare_lines tl pl).
Proof.
  intros Ht Hp Rt Rp. unfold find_missing_lines.
  now rewrite Ht, Hp, Rt, Rp.
Qed.

Lemma flagged_count (Q : pystr -> bool) (l : list pystr) (a : nat) :
  length (filter (fun il : nat * pystr => Q (snd il)) (combine (seq a (length l)) l)) =
  length (filter Q l).
Proof.
  revert a; induction l as [|x l IH]; intros a; [reflexivity|].
  cbn [length seq combine filter snd].
  destruct (Q x); cbn [length]; now rewrite IH.
Qed.

(** Template and parent in other orders and multiplicities, same sets. *)
Definition reordered_template : list pystr :=
  [ln "# template"; ln "A=x"; ln "B=y"].
Definition reordered_parent : list pystr :=
  [ln "B=2"; ln ""; ln "A=1"; ln "A=3"].

(** C6. The first half holds: when both files of a pair are read and the
    parent and the template have the same set of normalised lines (blank
    and comment lines dropped, order and repetition immaterial), no line is
    reported; and the number of lines reported is the number of lines of
    the parent's filtered list whose normalised form no content line of the
    template has.  The second half fails of what is reported: the script
    reports line [i] of the unfiltered parent for index [i] of the filtered
    list, so with the template [PORT=xxxx] and the parent made of a comment,
    [PORT=8080] and [NEW_FEATURE_FLAG=true], the one line reported is
    [PORT=8080], whose normalised form the template line [PORT=xxxx]
    shares. *)
Theorem reported_line_can_share_a_template_form :
  (forall fs self t p tl pl,
     os_path_isfile fs t = true -> os_path_isfile fs p = true ->
     readlines fs t = Lines tl -> readlines fs p = Lines pl ->
     ((forall n, In n (normalized_lines pl) <-> In n (normalized_lines tl)) ->
      fst (find_missing_lines fs self t p) = []) /\
     length (fst (find_missing_lines fs self t p)) =
       length (filter (fun n => negb (mem n (normalized_lines tl)))
                 (normalized_lines pl))) /\
  compare_lines reordered_template reordered_parent = [] /\
  (let tl := [ln "PORT=xxxx"] in
   let pl := [ln "# settings"; ln "PORT=8080"; ln "NEW_FEATURE_FLAG=true"] in
   let fs := sample_fs (Dir [py "app.env.template"; py "app.env"] NoDirs)
               [(py "app.env.template", AFile tl); (py "app.env", AFile pl)] in
   fst (find_missing_lines fs (init (py "/srv/project") (py ".") false)
          (py "app.env.template") (py "app.env")) = [rstrip (ln "PORT=8080")] /\
   In (ln "PORT=8080") pl /\
   In (ln "PORT=xxxx") tl /\ is_content (ln "PORT=xxxx") = true /\
   normalize_line (ln "PORT=xxxx") = normalize_line (ln "PORT=8080") /\
   In (normalize_line (ln "PORT=8080")) (normalized_lines tl)) /\
  ~ (forall tl pl l,
       In l pl -> In (rstrip l) (compare_lines tl pl) ->
       ~ In (normalize_line l) (normalized_lines tl)).
Proof.
  split; [|split; [vm_compute; reflexivity|split]].
  - intros fs self t p tl pl Ht Hp Rt Rp.
    rewrite (find_missing_lines_read fs self t p tl pl Ht Hp Rt Rp).
    cbn [fst ret]. rewrite compare_lines_indices. split.
    + intros Hsame.
      destruct (flagged_indices tl pl) as [|i idx] eqn:E; [reflexivity|].
      exfalso.
      assert (Hi : In i (flagged_indices tl pl)) by (rewrite E; now left).
      apply in_flagged_indices in Hi as [n [H1 H2]].
      apply H2, Hsame. eapply nth_error_In; eassumption.
    + unfold flagged_indices, enumerate. rewrite !length_map.
      exact (flagged_count (fun n => negb (mem n (normalized_lines tl)))
               (normalized_lines pl) 0).
  - cbv zeta. split; [vm_compute; reflexivity|].
    split; [right; left; reflexivity|]. split; [left; reflexivity|].
    split; [vm_compute; reflexivity|]. split; [vm_compute; reflexivity|].
    vm_compute. left. reflexivity.
  - intros H.
    apply (H [ln "PORT=xxxx"]
             [ln "# settings"; ln "PORT=8080"; ln "NEW_FEATURE_FLAG=true"]
             (ln "PORT=8080")).
    + right; left; reflexivity.
    + vm_compute. left. reflexivity.
    + vm_compute. left. reflexivity.
Qed.

(** ** Dictionaries *)

Lemma dict_get_set {V : Type} (d : dict V) (k k' : pystr) (v : V) :
  dict_get (dict_set d k v) k' =
  if str_eqb k k' then Some v else dict_get d k'.
Proof.
  induction d as [|[q w] d IH]; simpl.
  - reflexivity.
  - destruct (str_eqb q k) eqn:E; simpl.
    + apply str_eqb_eq in E. subst q. now destruct (str_eqb k k').
    + rewrite IH. destruct (str_eqb q k') eqn:E'; [|reflexivity].
      apply str_eqb_eq in E'. subst q.
      destruct (str_eqb k k') eqn:E2; [|reflexivity].
      apply str_eqb_eq in E2. subst k'. rewrite str_eqb_refl in E. discriminate.
Qed.

Lemma in_dict_set {V : Type} (d : dict V) (k k' : pystr) (v v' : V) :
  In (k', v') (dict_set d k v) -> In (k', v') d \/ (k' = k /\ v' = v).
Proof.
  induction d as [|[q w] d IH]; simpl.
  - intros [H|[]]. inversion H. now right.
  - destruct (str_eqb q k) eqn:E; simpl.
    + apply str_eqb_eq in E. subst q.
      intros [H|H]; [inversion H; now right|left; now right].
    + intros [H|H]; [left; now left|].
      destruct (IH H) as [H'|H']; [left; now right|now right].
Qed.

Lemma dict_get_keys {V : Type} (d : dict V) (k : pystr) :
  In k (keys d) <-> exists v, dict_get d k = Some v.
Proof.
  induction d as [|[q w] d IH]; simpl.
  - split; [contradiction|]. now intros [v H].
  - destruct (str_eqb q k) eqn:E.
    + apply str_eqb_eq in E. split; [now exists w|now left].
    + apply str_eqb_neq in E. rewrite <- IH. split; [|now right].
      intros [H|H]; [contradiction|exact H].
Qed.

Lemma dict_get_unique {V : Type} (d : dict V) (k : pystr) (v : V) :
  NoDup (keys d) -> In (k, v) d -> dict_get d k = Some v.
Proof.
  induction d as [|[q w] d IH]; simpl; [contradiction|].
  intros Hnd [H|H].
  - inversion H; subst. now rewrite str_eqb_refl.
  - inversion Hnd as [|? ? Hq Hnd']; subst.
    destruct (str_eqb q k) eqn:E; [|now apply IH].
    apply str_eqb_eq in E. subst q. exfalso. apply Hq.
    change k with (fst (k, v)). now apply in_map.
Qed.

(** ** Analysis of all pairs *)

(** One pass of the loop of [analyze_all_files], without the printing. *)
Definition record_pair (fs : filesystem) (self : checker)
    (missing_lines : dict (list pystr)) (tp : pystr * pystr) : dict (list pystr) :=
  match fst (find_missing_lines fs self (fst tp) (snd tp)) with
  | [] => missing_lines
  | (_ :: _) as lines => dict_set missing_lines (fst tp) lines
  end.

Lemma analyze_all_files_value fs self :
  fst (analyze_all_files fs self) =
  set_differences self (fold_left (record_pair fs self) (parent_files self) []).
Proof.
  unfold analyze_all_files. rewrite fst_bind, fst_bind. unfold ret. cbn [fst].
  f_equal. rewrite fst_for_each.
  generalize (@nil (pystr * list pystr)) at 1 2.
  induction (parent_files self) as [|[t p] pf IH]; intros d; [reflexivity|].
  cbn [fold_left]. rewrite IH. f_equal.
  rewrite fst_bind, fst_bind. unfold record_pair. cbn [fst snd].
  destruct (fst (find_missing_lines fs self t p)) as [|l ls].
  - reflexivity.
  - rewrite fst_bind. reflexivity.
Qed.

Lemma snd_for_each_incl {A S : Type} (body : A -> S -> Out S) (msgs : A -> list pystr) :
  (forall x s, incl (msgs x) (snd (body x s))) ->
  forall xs x s, In x xs -> incl (msgs x) (snd (for_each xs body s)).
Proof.
  intros Hb xs; induction xs as [|y xs IH]; intros x s; simpl; [contradiction|].
  intros [->|H]; rewrite snd_bind.
  - apply incl_appl, Hb.
  - apply incl_appr. now apply IH.
Qed.

Lemma analyze_all_files_log fs self t p :
  In (t, p) (parent_files self) ->
  incl (snd (find_missing_lines fs self t p)) (snd (analyze_all_files fs self)).
Proof.
  intros Hin. unfold analyze_all_files.
  rewrite snd_bind, snd_bind. apply incl_appr, incl_appl.
  apply (snd_for_each_incl _
           (fun tp : pystr * pystr =>
              snd (find_missing_lines fs self (fst tp) (snd tp))))
    with (x := (t, p)); [|exact Hin].
  intros [t' p'] d. cbn [fst snd].
  rewrite snd_bind, snd_bind. apply incl_appr, incl_appl, incl_refl.
Qed.

(** With distinct keys, every pair ends up recorded according to its own
    comparison alone. *)
Lemma recorded_per_pair fs self pf d t p :
  NoDup (keys pf) -> In (t, p) pf ->
  dict_get (fold_left (record_pair fs self) pf d) t =
  match fst (find_missing_lines fs self t p) with
  | [] => dict_get d t
  | (_ :: _) as lines => Some lines
  end.
Proof.
  revert d; induction pf as [|[t' p'] pf IH]; intros d Hnd Hin; [contradiction|].
  inversion Hnd as [|? ? Hnot Hnd']; subst. cbn [fold_left].
  destruct Hin as [H|H].
  - inversion H; subst t' p'. clear H.
    assert (Hskip : forall d', dict_get (fold_left (record_pair fs self) pf d') t
                               = dict_get d' t).
    { clear IH Hnd Hnd'. cbn [keys map fst] in Hnot.
      induction pf as [|[t2 p2] pf IH2]; intros d'; [reflexivity|].
      cbn [fold_left]. rewrite IH2 by (intros Hc; apply Hnot; now right).
      unfold record_pair. cbn [fst snd].
      destruct (fst (find_missing_lines fs self t2 p2)); [reflexivity|].
      rewrite dict_get_set.
      destruct (str_eqb t2 t) eqn:E; [|reflexivity].
      apply str_eqb_eq in E. subst t2. exfalso. apply Hnot. now left. }
    rewrite Hskip. unfold record_pair. cbn [fst snd].
    destruct (fst (find_missing_lines fs self t p)); [reflexivity|].
    now rewrite dict_get_set, str_eqb_refl.
  - rewrite (IH _ Hnd' H).
    destruct (fst (find_missing_lines fs self t p)); [|reflexivity].
    unfold record_pair. cbn [fst snd].
    destruct (fst (find_missing_lines fs self t' p')); [reflexivity|].
    rewrite dict_get_set.
    destruct (str_eqb t' t) eqn:E; [|reflexivity].
    apply str_eqb_eq in E. subst t'. exfalso. apply Hnot.
    change t with (fst (t, p)). now apply in_map.
Qed.

(** C8. A read failure is contained.  For a pair of regular files, when
    opening or reading the template raises, or the template is read and the
    parent raises, [find_missing_lines] returns the empty list and prints
    one diagnostic: the word ERROR, the two file names and the cause, in
    the words of the script.  In [analyze_all_files] the diagnostic is
    among the lines printed, the failing pair gets no entry in the
    differences, and every pair of the loop, whatever happened to the
    others, is recorded by its own comparison alone: the loop runs to its
    end. *)
Theorem read_failure_is_contained fs self t p e :
  os_path_isfile fs t = true -> os_path_isfile fs p = true ->
  (readlines fs t = Raises e \/
   ((exists tl, readlines fs t = Lines tl) /\ readlines fs p = Raises e)) ->
  let diagnostic :=
    py "ERROR: Failed to compare '" ++ t ++ py "' and '" ++ p ++ py "': " ++ e in
  find_missing_lines fs self t p = ([], [diagnostic]) /\
  (NoDup (keys (parent_files self)) -> In (t, p) (parent_files self) ->
   let self' := fst (analyze_all_files fs self) in
   In diagnostic (snd (analyze_all_files fs self)) /\
   dict_get (differences self') t = None /\
   forall t' p', In (t', p') (parent_files self) ->
     dict_get (differences self') t' =
     match fst (find_missing_lines fs self t' p') with
     | [] => None
     | (_ :: _) as lines => Some lines
     end).
Proof.
  intros Ht Hp Hfail. cbv zeta.
  change (py "ERROR: Failed to compare '" ++ t ++ py "' and '" ++ p ++
          py "': " ++ e) with (failed_to_compare t p e).
  assert (Hone : find_missing_lines fs self t p = ([], [failed_to_compare t p e])).
  { unfold find_missing_lines. rewrite Ht, Hp. cbn [negb].
    destruct Hfail as [Rt|[[tl Rt] Rp]].
    - now rewrite Rt.
    - now rewrite Rt, Rp. }
  split; [exact Hone|].
  intros Hnd Hin. cbv zeta.
  assert (Hall : forall t' p', In (t', p') (parent_files self) ->
     dict_get (differences (fst (analyze_all_files fs self))) t' =
     match fst (find_missing_lines fs self t' p') with
     | [] => None
     | (_ :: _) as lines => Some lines
     end).
  { intros t' p' Hin'. rewrite analyze_all_files_value.
    unfold set_differences. cbn [differences].
    now rewrite (recorded_per_pair fs self _ [] t' p' Hnd Hin'). }
  split; [|split; [|exact Hall]].
  - apply (analyze_all_files_log fs self t p Hin). rewrite Hone. now left.
  - rewrite (Hall t p Hin), Hone. reflexivity.
Qed.

(** A pair whose parent cannot be read, before a pair that differs. *)
Definition unreadable_fs : filesystem :=
  sample_fs (Dir [py "a.env.template"; py "a.env"; py "b.env.template"; py "b.env"] NoDirs)
    [(py "a.env.template", AFile [ln "A=x"]);
     (py "a.env", Unreadable (py "[Errno 13] Permission denied: 'a.env'"));
     (py "b.env.template", AFile [ln "B=x"]);
     (py "b.env", AFile [ln "B=1"; ln "C=2"])].

Definition unreadable_checker : checker :=
  Checker (py ".") false
    [py "a.env.template"; py "b.env.template"]
    [(py "a.env.template", py "a.env"); (py "b.env.template", py "b.env")]
    [].

Lemma read_failure_is_contained_witness :
  os_path_isfile unreadable_fs (py "a.env.template") = true /\
  os_path_isfile unreadable_fs (py "a.env") = true /\
  readlines unreadable_fs (py "a.env") =
    Raises (py "[Errno 13] Permission denied: 'a.env'") /\
  find_missing_lines unreadable_fs unreadable_checker
    (py "a.env.template") (py "a.env") =
    ([], [py "ERROR: Failed to compare 'a.env.template' and 'a.env': [Errno 13] Permission denied: 'a.env'"]) /\
  In (py "ERROR: Failed to compare 'a.env.template' and 'a.env': [Errno 13] Permission denied: 'a.env'")
     (snd (analyze_all_files unreadable_fs unreadable_checker)) /\
  differences (fst (analyze_all_files unreadable_fs unreadable_checker)) =
    [(py "b.env.template", [py "C=2"])].
Proof.
  assert (H1 : os_path_isfile unreadable_fs (py "a.env.template") = true)
    by (vm_compute; reflexivity).
  assert (H2 : os_path_isfile unreadable_fs (py "a.env") = true)
    by (vm_compute; reflexivity).
  assert (H3 : readlines unreadable_fs (py "a.env") =
               Raises (py "[Errno 13] Permission denied: 'a.env'"))
    by (vm_compute; reflexivity).
  assert (H0 : exists tl, readlines unreadable_fs (py "a.env.template") = Lines tl)
    by (exists [ln "A=x"]; vm_compute; reflexivity).
  destruct (read_failure_is_contained unreadable_fs unreadable_checker
              (py "a.env.template") (py "a.env")
              (py "[Errno 13] Permission denied: 'a.env'")
              H1 H2 (or_intror (conj H0 H3))) as [Hone Hrun].
  assert (Hnd : NoDup (keys (parent_files unreadable_checker))).
  { apply NoDup_cons.
    - intros [E|[]]. vm_compute in E. discriminate E.
    - apply NoDup_cons; [intros []|apply NoDup_nil]. }
  assert (Hin : In (py "a.env.template", py "a.env")
                   (parent_files unreadable_checker)) by (left; reflexivity).
  destruct (Hrun Hnd Hin) as [Hlog _].
  split; [exact H1|]. split; [exact H2|]. split; [exact H3|].
  split; [exact Hone|]. split; [exact Hlog|]. vm_compute. reflexivity.
Defined.

(** ** The differences table and the report *)

(** A section of the report that lists missing lines. *)
Definition listing_section (template_file parent_file : pystr)
    (missing_lines : list pystr) : list pystr :=
  [ py "### " ++ template_file;
    py "*Compared to: " ++ parent_file ++ py "*";
    [];
    py "Missing lines that should be added to the template:";
    py "```" ] ++ missing_lines ++ [ py "```"; [] ].

Definition parent_of (self : checker) (template_file : pystr) : pystr :=
  match dict_get (parent_files self) template_file with
  | Some p => p
  | None => []
  end.

Definition recorded_ok (self : checker) (d : dict (list pystr)) : Prop :=
  forall t ml, In (t, ml) d -> ml <> [] /\ In t (keys (parent_files self)).

Lemma record_pair_ok fs self0 self d tp :
  In (fst tp) (keys (parent_files self)) ->
  recorded_ok self d -> recorded_ok self (record_pair fs self0 d tp).
Proof.
  intros Hk Hd. unfold record_pair.
  destruct (fst (find_missing_lines fs self0 (fst tp) (snd tp))) as [|l ls];
    [exact Hd|].
  intros t ml Hin. apply in_dict_set in Hin as [Hin|[-> ->]].
  - now apply Hd.
  - split; [discriminate|exact Hk].
Qed.

Lemma fold_record_ok fs self0 self pf d :
  (forall tp, In tp pf -> In (fst tp) (keys (parent_files self))) ->
  recorded_ok self d ->
  recorded_ok self (fold_left (record_pair fs self0) pf d).
Proof.
  revert d; induction pf as [|tp pf IH]; intros d Hk Hd; [exact Hd|].
  cbn [fold_left]. apply IH.
  - intros tp' H. apply Hk. now right.
  - apply record_pair_ok; [|exact Hd]. apply Hk. now left.
Qed.

Lemma analyzed_ok fs self :
  recorded_ok (fst (analyze_all_files fs self))
              (differences (fst (analyze_all_files fs self))).
Proof.
  rewrite analyze_all_files_value. unfold set_differences, recorded_ok.
  cbn [differences parent_files].
  apply (fold_record_ok fs self self (parent_files self) []).
  - intros tp H. now apply in_map.
  - intros t ml [].
Qed.

Lemma report_section_listing self t ml :
  ml <> [] -> In t (keys (parent_files self)) ->
  report_section self t ml = Some (listing_section t (parent_of self t) ml).
Proof.
  intros Hml Hk. apply dict_get_keys in Hk as [p Hp].
  unfold report_section, parent_of, listing_section. rewrite Hp.
  destruct ml as [|l ml]; [contradiction|].
  cbn [app]. rewrite <- app_assoc. reflexivity.
Qed.

Lemma report_sections_listing self d acc :
  recorded_ok self d ->
  report_sections self d acc =
  Some (acc ++ flat_map (fun tm : pystr * list pystr =>
                           listing_section (fst tm) (parent_of self (fst tm)) (snd tm)) d).
Proof.
  revert acc; induction d as [|[t ml] d IH]; intros acc Hd.
  - cbn. now rewrite app_nil_r.
  - cbn [report_sections flat_map fst snd].
    destruct (Hd t ml (or_introl eq_refl)) as [Hml Hk].
    rewrite (report_section_listing self t ml Hml Hk), IH.
    + now rewrite <- app_assoc.
    + intros t' ml' H. apply Hd. now right.
Qed.

(** C9. After [analyze_all_files], every template recorded in the
    differences has a non-empty list of missing lines and is a key of the
    map from templates to parents.  So [generate_report] never fails on a
    missing key, and every section it writes for a template is the one that
    lists lines: the branch that writes the line saying that no missing
    content was found is not taken. *)
Theorem differences_are_nonempty_and_matched fs self timestamp :
  let self' := fst (analyze_all_files fs self) in
  (forall t ml, In (t, ml) (differences self') ->
     ml <> [] /\ In t (keys (parent_files self')) /\
     report_section self' t ml =
       Some (listing_section t (parent_of self' t) ml)) /\
  (differences self' <> [] ->
   generate_report timestamp self' =
     Some (join [LF]
       (report_head timestamp self' ++ [ py "## Missing Content"; [] ] ++
        flat_map (fun tm : pystr * list pystr =>
                    listing_section (fst tm) (parent_of self' (fst tm)) (snd tm))
                 (differences self')))).
Proof.
  cbv zeta. pose proof (analyzed_ok fs self) as Hok.
  set (self' := fst (analyze_all_files fs self)) in *.
  split.
  - intros t ml Hin. destruct (Hok t ml Hin) as [Hml Hk].
    split; [exact Hml|]. split; [exact Hk|].
    now apply report_section_listing.
  - intros Hne. unfold generate_report.
    destruct (differences self') as [|tm d] eqn:E; [contradiction|].
    rewrite (report_sections_listing self' (tm :: d) _ Hok).
    now rewrite <- app_assoc.
Qed.

(** ** The matcher *)

(** Length of the longest prefix whose characters are all in a class. *)
Fixpoint span (p : ascii -> bool) (s : pystr) : nat :=
  match s with
  | c :: s' => if p c then S (span p s') else 0
  | [] => 0
  end.

(** The first success of [f], counting down from [n]. *)
Fixpoint first_down {A : Type} (f : nat -> option A) (n : nat) : option A :=
  match f n with
  | Some r => Some r
  | None => match n with 0 => None | S n' => first_down f n' end
  end.

Lemma first_down_shift {A : Type} (f : nat -> option A) (n : nat) :
  first_down f (S n) =
  match first_down (fun i => f (S i)) n with
  | Some r => Some r
  | None => f 0
  end.
Proof.
  induction n as [|n IH].
  - simpl. destruct (f 1); [reflexivity|]. now destruct (f 0).
  - change (first_down f (S (S n))) with
      (match f (S (S n)) with Some r => Some r | None => first_down f (S n) end).
    rewrite IH. simpl. now destruct (f (S (S n))).
Qed.

Lemma first_down_ext {A : Type} (f g : nat -> option A) (n : nat) :
  (forall i, f i = g i) -> first_down f n = first_down g n.
Proof.
  intros E. induction n as [|n IH]; simpl.
  - now rewrite E.
  - now rewrite E, IH.
Qed.

(** A greedy star tries the splits from the longest down. *)
Lemma star_greedy_first_down {A : Type} (p : ascii -> bool) (rest : pystr)
    (k : nat -> pystr -> option A) (pos : nat) :
  star_greedy p pos rest k =
  first_down (fun n => k (pos + n) (skipn n rest)) (span p rest).
Proof.
  revert pos; induction rest as [|c r IH]; intros pos.
  - cbn [star_greedy span first_down skipn]. rewrite Nat.add_0_r.
    now destruct (k pos []).
  - cbn [star_greedy span]. destruct (p c).
    + rewrite first_down_shift, IH.
      rewrite (first_down_ext (fun n => k (S pos + n) (skipn n r))
                 (fun i => k (pos + S i) (skipn (S i) (c :: r)))).
      * cbn [skipn]. now rewrite Nat.add_0_r.
      * intros i. cbn [skipn]. f_equal. lia.
    + cbn [first_down skipn]. rewrite Nat.add_0_r.
      now destruct (k pos (c :: r)).
Qed.

Lemma first_down_some {A : Type} (f : nat -> option A) (n : nat) (r : A) :
  first_down f n = Some r ->
  exists i, i <= n /\ f i = Some r /\ forall j, i < j <= n -> f j = None.
Proof.
  induction n as [|n IH]; simpl.
  - destruct (f 0) eqn:E; [|discriminate]. intros H; inversion H; subst.
    exists 0. split; [lia|]. split; [exact E|]. intros j Hj. lia.
  - destruct (f (S n)) eqn:E.
    + intros H; inversion H; subst. exists (S n).
      split; [lia|]. split; [exact E|]. intros j Hj. lia.
    + intros H. destruct (IH H) as [i [Hi [Hf Hn]]]. exists i.
      split; [lia|]. split; [exact Hf|]. intros j Hj.
      destruct (Nat.eq_dec j (S n)) as [->|Hne]; [exact E|]. apply Hn. lia.
Qed.

Lemma first_down_pick {A : Type} (f : nat -> option A) (n i : nat) (r : A) :
  i <= n -> f i = Some r -> (forall j, i < j <= n -> f j = None) ->
  first_down f n = Some r.
Proof.
  induction n as [|n IH]; intros Hi Hf Hn.
  - assert (i = 0) by lia. subst. simpl. now rewrite Hf.
  - destruct (Nat.eq_dec i (S n)) as [->|Hne].
    + simpl. now rewrite Hf.
    + simpl. rewrite (Hn (S n)) by lia. apply IH; [lia|exact Hf|].
      intros j Hj. apply Hn. lia.
Qed.

Lemma first_down_none {A : Type} (f : nat -> option A) (n : nat) :
  (forall j, j <= n -> f j = None) -> first_down f n = None.
Proof.
  induction n as [|n IH]; intros H; simpl.
  - now rewrite (H 0).
  - rewrite (H (S n)) by lia. apply IH. intros j Hj. apply H. lia.
Qed.

(** When the continuation can only succeed after the whole run, the star
    commits to the whole run. *)
Lemma first_down_commit {A : Type} (f : nat -> option A) (n : nat) :
  (forall j, j < n -> f j = None) -> first_down f n = f n.
Proof.
  intros H. destruct (f n) eqn:E.
  - apply first_down_pick with (i := n); [lia|exact E|]. intros j Hj. lia.
  - apply first_down_none. intros j Hj.
    destruct (Nat.eq_dec j n) as [->|Hne]; [exact E|]. apply H. lia.
Qed.

Lemma span_le (p : ascii -> bool) (s : pystr) : span p s <= length s.
Proof.
  induction s as [|c s IH]; simpl; [lia|]. destruct (p c); simpl; lia.
Qed.

Lemma span_all (p : ascii -> bool) (s t : pystr) :
  forallb p s = true ->
  span p (s ++ t) = length s + span p t.
Proof.
  induction s as [|c s IH]; simpl; [reflexivity|].
  intros H. apply andb_true_iff in H as [Hc Hs]. rewrite Hc. now rewrite IH.
Qed.

Lemma span_stop (p : ascii -> bool) (c : ascii) (t : pystr) :
  p c = false -> span p (c :: t) = 0.
Proof. intros H. simpl. now rewrite H. Qed.

Lemma span_nil (p : ascii -> bool) : span p [] = 0.
Proof. reflexivity. Qed.

Lemma startswith_nil (s : pystr) : startswith s [] = true.
Proof. now destruct s. Qed.

Lemma startswith_app (s t : pystr) : startswith (s ++ t) s = true.
Proof.
  induction s as [|c s IH]; simpl; [apply startswith_nil|].
  now rewrite Ascii.eqb_refl, IH.
Qed.

Lemma startswith_split (s p : pystr) :
  startswith s p = true -> s = p ++ skipn (length p) s.
Proof.
  revert s; induction p as [|x p IH]; intros s; [reflexivity|].
  destruct s as [|y s]; [discriminate|]. cbn [startswith].
  intros H. apply andb_true_iff in H as [H1 H2].
  apply Ascii.eqb_eq in H1. subst y. simpl. f_equal. now apply IH.
Qed.

(** A run of literals matches exactly when the subject starts with it. *)
Lemma exec_lits (cs : pystr) (re : regex) (pos : nat) (rest : pystr) (m : marks) :
  exec (map Lit cs ++ re) pos rest m =
  if startswith rest cs
  then exec re (pos + length cs) (skipn (length cs) rest) m
  else None.
Proof.
  revert pos rest; induction cs as [|c cs IH]; intros pos rest.
  - cbn [map app length skipn]. now rewrite startswith_nil, Nat.add_0_r.
  - cbn [map app]. cbn [exec]. destruct rest as [|x rest]; [reflexivity|].
    cbn [startswith]. rewrite (Ascii.eqb_sym c x).
    destruct (Ascii.eqb x c); [|reflexivity].
    rewrite IH. cbn [andb length skipn].
    now replace (S pos + length cs) with (pos + S (length cs)) by lia.
Qed.

(** A pattern that can only match at the start of the subject. *)
Definition anchored (re : regex) : Prop :=
  forall pos rest m, pos <> 0 -> exec re pos rest m = None.

Lemma anchored_bol (re : regex) : anchored (Bol :: re).
Proof. intros [|pos] rest m H; [contradiction|reflexivity]. Qed.

Lemma anchored_group_bol (n : nat) (re : regex) : anchored (GOpen n :: Bol :: re).
Proof. intros [|pos] rest m H; [contradiction|reflexivity]. Qed.

Lemma sub_scan_skip re repl subj pos rest n :
  anchored re -> pos <> 0 ->
  sub_scan re repl subj pos rest n = skipn n rest.
Proof.
  intros Ha. revert pos n; induction rest as [|c r IH]; intros pos n Hpos.
  - destruct n; simpl; [|reflexivity]. now rewrite Ha.
  - destruct n; simpl.
    + rewrite Ha by assumption. f_equal. now apply IH.
    + now apply IH.
Qed.

(** [re.sub] with an anchored pattern: at most one replacement, at the
    start. *)
Lemma re_sub_anchored re repl s :
  anchored re ->
  re_sub re repl s =
  match exec re 0 s no_marks with
  | Some (m, e) => expand repl (Match s m e) ++ skipn e s
  | None => s
  end.
Proof.
  intros Ha. unfold re_sub.
  destruct s as [|c r]; cbn [sub_scan].
  - destruct (exec re 0 [] no_marks) as [[m e]|]; [|reflexivity].
    now destruct e.
  - destruct (exec re 0 (c :: r) no_marks) as [[m e]|].
    + f_equal. destruct e as [|e]; cbn [Nat.eqb].
      * cbn [skipn]. f_equal. now apply sub_scan_skip.
      * rewrite sub_scan_skip by (assumption || discriminate).
        cbn [skipn]. f_equal. lia.
    + f_equal. now apply sub_scan_skip.
Qed.

(** Groups a pattern does not mention keep their boundaries. *)
Fixpoint touches (g : nat) (re : regex) : Prop :=
  match re with
  | [] => False
  | GOpen n :: re' => n = g \/ touches g re'
  | GClose n :: re' => n = g \/ touches g re'
  | _ :: re' => touches g re'
  end.

Lemma star_greedy_some {A : Type} (p : ascii -> bool) (pos : nat) (rest : pystr)
    (k : nat -> pystr -> option A) (r : A) :
  star_greedy p pos rest k = Some r ->
  exists n, n <= span p rest /\ k (pos + n) (skipn n rest) = Some r.
Proof.
  rewrite star_greedy_first_down. intros H.
  apply first_down_some in H as [i [Hi [Hf _]]]. now exists i.
Qed.

Lemma exec_keeps (g : nat) (re : regex) :
  ~ touches g re ->
  forall pos rest m m' e, exec re pos rest m = Some (m', e) ->
  assoc g (starts m') = assoc g (starts m) /\
  assoc g (ends m') = assoc g (ends m).
Proof.
  induction re as [|a re IH]; intros Ht pos rest m m' e H.
  - inversion H; subst. now split.
  - destruct a; cbn [exec touches] in *.
    + destruct rest as [|x rest]; [discriminate|].
      destruct (Ascii.eqb x c); [|discriminate]. now apply IH in H.
    + destruct rest as [|x rest]; [discriminate|].
      destruct (p x); [|discriminate]. now apply IH in H.
    + apply star_greedy_some in H as [n [_ H]]. now apply IH in H.
    + destruct rest as [|x rest]; [discriminate|].
      destruct (p x); [|discriminate].
      apply star_greedy_some in H as [n [_ H]]. now apply IH in H.
    + destruct rest as [|x rest]; [now apply IH in H|].
      destruct (p x); [|now apply IH in H].
      destruct (exec re (S pos) rest m) as [r|] eqn:E.
      * inversion H; subst. now apply IH in E.
      * now apply IH in H.
    + destruct (pos =? 0); [|discriminate]. now apply IH in H.
    + destruct rest as [|x [|y rest]]; [now apply IH in H| |discriminate].
      destruct (Ascii.eqb x LF); [|discriminate]. now apply IH in H.
    + apply IH in H; [|tauto]. destruct H as [H1 H2]. split; [|exact H2].
      rewrite H1. cbn [set_start starts assoc].
      destruct (n =? g) eqn:E; [|reflexivity].
      apply Nat.eqb_eq in E. tauto.
    + apply IH in H; [|tauto]. destruct H as [H1 H2]. split; [exact H1|].
      rewrite H2. cbn [set_end ends assoc].
      destruct (n =? g) eqn:E; [|reflexivity].
      apply Nat.eqb_eq in E. tauto.
Qed.

(** ** Parent resolution *)

(** The three patterns open with the group [(.+)] at the start: when one of
    them matches, group 1 is a non-empty prefix of the path. *)
Lemma leading_group_nonempty (tail : regex) (t : pystr) (mo : match_obj) :
  ~ touches 1 tail ->
  re_match ([Bol; GOpen 1; Plus is_dot; GClose 1] ++ tail) t = Some mo ->
  group mo 1 <> [].
Proof.
  intros Ht. unfold re_match.
  destruct (exec _ 0 t no_marks) as [[m e]|] eqn:E; [|discriminate].
  intros H; inversion H; subst mo; clear H.
  cbn [app exec Nat.eqb] in E.
  destruct t as [|x t]; [discriminate|].
  destruct (is_dot x); [|discriminate].
  apply star_greedy_some in E as [n [_ E]].
  cbn [exec] in E.
  apply (exec_keeps 1 tail Ht) in E as [E1 E2].
  unfold group. cbn [found subject]. rewrite E1, E2.
  cbn [set_end set_start starts ends no_marks assoc Nat.eqb].
  unfold slice. rewrite Nat.sub_0_r. discriminate.
Qed.

Lemma derive1_nonempty t p : derive1 t = Some p -> p <> [].
Proof.
  unfold derive1. destruct (re_match RE_RULE1 t) as [mo|] eqn:E; [|discriminate].
  intros H; inversion H; subst p. intros Hnil.
  apply app_eq_nil in Hnil as [Hnil _]. revert Hnil.
  apply (leading_group_nonempty
           (lits ".template" ++ [GOpen 2; Lit "."; Plus is_dot; GClose 2; Eol]) t).
  - cbn. intros [H1|[H1|[]]]; discriminate.
  - exact E.
Qed.

Lemma derive2_nonempty t p : derive2 t = Some p -> p <> [].
Proof.
  unfold derive2. destruct (re_match RE_RULE2 t) as [mo|] eqn:E; [|discriminate].
  intros H; inversion H; subst p.
  apply (leading_group_nonempty (lits ".template" ++ [Eol]) t).
  - cbn. tauto.
  - exact E.
Qed.

Lemma derive3_nonempty t p : derive3 t = Some p -> p <> [].
Proof.
  unfold derive3. destruct (re_match RE_RULE3 t) as [mo|] eqn:E; [|discriminate].
  intros H; inversion H; subst p. intros Hnil.
  apply app_eq_nil in Hnil as [_ Hnil]. discriminate.
Qed.

(** The first path of a list of derived paths that exists, file or
    directory. *)
Fixpoint first_existing (fs : filesystem) (derived : list (option pystr))
    : option pystr :=
  match derived with
  | [] => None
  | Some p :: more => if os_path_exists fs p then Some p else first_existing fs more
  | None :: more => first_existing fs more
  end.

Lemma candidate_first_existing fs t :
  candidate fs t = first_existing fs [derive1 t; derive2 t; derive3 t].
Proof.
  unfold candidate, attempt. cbn [first_existing].
  destruct (derive1 t) as [p1|] eqn:D1.
  - destruct (os_path_exists fs p1).
    + pose proof (derive1_nonempty t p1 D1) as N1.
      destruct p1 as [|c1 p1]; [contradiction|]. reflexivity.
    + cbn [truthy negb].
      destruct (derive2 t) as [p2|] eqn:D2; [|reflexivity].
      destruct (os_path_exists fs p2); [|reflexivity].
      pose proof (derive2_nonempty t p2 D2) as N2.
      destruct p2 as [|c2 p2]; [contradiction|]. reflexivity.
  - cbn [truthy negb].
    destruct (derive2 t) as [p2|] eqn:D2; [|reflexivity].
    destruct (os_path_exists fs p2); [|reflexivity].
    pose proof (derive2_nonempty t p2 D2) as N2.
    destruct p2 as [|c2 p2]; [contradiction|]. reflexivity.
Qed.

Lemma first_existing_nonempty fs l p :
  (forall q, In (Some q) l -> q <> []) ->
  first_existing fs l = Some p -> p <> [].
Proof.
  induction l as [|[q|] l IH]; intros Hl; cbn [first_existing].
  - discriminate.
  - destruct (os_path_exists fs q).
    + intros H; inversion H; subst. apply Hl. now left.
    + apply IH. intros q' H. apply Hl. now right.
  - apply IH. intros q' H. apply Hl. now right.
Qed.

Lemma candidate_nonempty fs t p : candidate fs t = Some p -> p <> [].
Proof.
  rewrite candidate_first_existing. apply first_existing_nonempty.
  intros q [H|[H|[H|[]]]].
  - now apply derive1_nonempty with t.
  - now apply derive2_nonempty with t.
  - now apply derive3_nonempty with t.
Qed.

(** The parent a template is mapped to: the candidate, when it is a regular
    file. *)
Definition resolve (fs : filesystem) (template_file : pystr) : option pystr :=
  match candidate fs template_file with
  | Some p => if os_path_isfile fs p then Some p else None
  | None => None
  end.

(** One pass of the loop of [find_parent_files], without the printing. *)
Definition map_template (fs : filesystem) (d : dict pystr) (t : pystr) : dict pystr :=
  match resolve fs t with
  | Some p => dict_set d t p
  | None => d
  end.

Definition not_a_file_warning (parent_file : pystr) : pystr :=
  py "WARNING: Parent path '" ++ parent_file ++ py "' is not a file.".

Lemma find_parent_files_value fs self :
  fst (find_parent_files fs self) =
  set_parent_files self (fold_left (map_template fs) (template_files self) []).
Proof.
  unfold find_parent_files. rewrite fst_bind, fst_bind. unfold ret. cbn [fst].
  f_equal. rewrite fst_for_each.
  generalize (@nil (pystr * pystr)) at 1 2.
  induction (template_files self) as [|t l IH]; intros d; [reflexivity|].
  cbn [fold_left]. rewrite IH. f_equal.
  unfold map_template, resolve.
  destruct (candidate fs t) as [p|] eqn:C.
  - pose proof (candidate_nonempty fs t p C) as Hne.
    destruct p as [|c p]; [contradiction|]. cbn [truthy].
    destruct (os_path_isfile fs (c :: p)); reflexivity.
  - reflexivity.
Qed.

Lemma find_parent_files_log fs self t p :
  In t (template_files self) -> candidate fs t = Some p ->
  os_path_isfile fs p = false ->
  In (not_a_file_warning p) (snd (find_parent_files fs self)).
Proof.
  intros Hin C F. unfold find_parent_files.
  rewrite snd_bind, snd_bind. apply in_or_app. right. apply in_or_app. left.
  apply (snd_for_each_incl _
           (fun t' => match candidate fs t' with
                      | Some p' => if os_path_isfile fs p' then []
                                   else [not_a_file_warning p']
                      | None => []
                      end)) with (x := t); [|exact Hin|].
  - intros t' d. destruct (candidate fs t') as [p'|] eqn:C'.
    + pose proof (candidate_nonempty fs t' p' C') as Hne.
      destruct p' as [|c p']; [contradiction|]. cbn [truthy].
      destruct (os_path_isfile fs (c :: p')).
      * intros x [].
      * rewrite snd_bind. apply incl_appl, incl_refl.
    + intros x [].
  - rewrite C, F. now left.
Qed.

Lemma mapped_iff fs l d t :
  dict_get (fold_left (map_template fs) l d) t =
  if existsb (str_eqb t) l
  then match resolve fs t with Some p => Some p | None => dict_get d t end
  else dict_get d t.
Proof.
  revert d; induction l as [|x l IH]; intros d; [reflexivity|].
  cbn [fold_left existsb]. rewrite IH.
  assert (Hx : dict_get (map_template fs d x) t =
               if str_eqb t x
               then match resolve fs t with Some p => Some p | None => dict_get d t end
               else dict_get d t).
  { unfold map_template. destruct (str_eqb t x) eqn:E.
    - apply str_eqb_eq in E. subst x.
      destruct (resolve fs t); [|reflexivity].
      now rewrite dict_get_set, str_eqb_refl.
    - destruct (resolve fs x); [|reflexivity].
      rewrite dict_get_set.
      destruct (str_eqb x t) eqn:E'; [|reflexivity].
      apply str_eqb_eq in E'. subst x. rewrite str_eqb_refl in E. discriminate. }
  rewrite Hx.
  destruct (str_eqb t x); cbn [orb].
  - destruct (existsb (str_eqb t) l); now destruct (resolve fs t).
  - reflexivity.
Qed.

(** The first derived path that exists and is a regular file: the parent the
    claim as first stated promises. *)
Fixpoint first_regular_file (fs : filesystem) (derived : list (option pystr))
    : option pystr :=
  match derived with
  | [] => None
  | Some p :: more =>
      if os_path_exists fs p && os_path_isfile fs p then Some p
      else first_regular_file fs more
  | None :: more => first_regular_file fs more
  end.

(** C2, as amended.  The three patterns are tried in their order and the
    candidate parent is the path derived by the first pattern that matches
    and whose derived path exists, be it a file or a directory; no later
    pattern is tried after it.  A template gets the mapping to its candidate
    exactly when the candidate is a regular file; for a candidate that is
    not, the warning that the parent path is not a file is printed and the
    template gets no mapping. *)
Theorem parent_is_first_existing_candidate fs self t :
  candidate fs t = first_existing fs [derive1 t; derive2 t; derive3 t] /\
  (forall p,
     dict_get (parent_files (fst (find_parent_files fs self))) t = Some p <->
     In t (template_files self) /\ candidate fs t = Some p /\
     os_path_isfile fs p = true) /\
  (forall p,
     In t (template_files self) -> candidate fs t = Some p ->
     os_path_isfile fs p = false ->
     In (not_a_file_warning p) (snd (find_parent_files fs self)) /\
     dict_get (parent_files (fst (find_parent_files fs self))) t = None).
Proof.
  assert (Hget : dict_get (parent_files (fst (find_parent_files fs self))) t =
                 if existsb (str_eqb t) (template_files self)
                 then resolve fs t else None).
  { rewrite find_parent_files_value. unfold set_parent_files.
    cbn [parent_files]. rewrite mapped_iff. cbn [dict_get].
    destruct (existsb (str_eqb t) (template_files self)); [|reflexivity].
    now destruct (resolve fs t). }
  assert (Hmem : existsb (str_eqb t) (template_files self) = true <->
                 In t (template_files self)) by apply mem_In.
  split; [apply candidate_first_existing|]. split.
  - intros p. rewrite Hget. unfold resolve. split.
    + destruct (existsb (str_eqb t) (template_files self)) eqn:E; [|discriminate].
      destruct (candidate fs t) as [q|]; [|discriminate].
      destruct (os_path_isfile fs q) eqn:F; [|discriminate].
      intros H; inversion H; subst q. split; [now apply Hmem|now split].
    + intros [Hin [C F]]. apply Hmem in Hin. now rewrite Hin, C, F.
  - intros p Hin C F. split; [now apply find_parent_files_log with t|].
    rewrite Hget. unfold resolve. rewrite C, F.
    now destruct (existsb (str_eqb t) (template_files self)).
Qed.

(** A template whose first derived path is a directory and whose second
    derived path is a regular file. *)
Definition directory_first_fs : filesystem :=
  sample_fs
    (Dir [py "a.template.b.template"; py "a.template.b"]
       (SubDir (py "a.b.template") (Dir [] NoDirs) NoDirs))
    [(py "a.template.b.template", AFile [ln "X=1"]);
     (py "a.template.b", AFile [ln "X=1"]);
     (py "a.b.template", ADir)].

(** C2 as first stated fails: the second pattern derives the existing
    regular file [a.template.b], yet no mapping is made, because the first
    pattern derives the existing directory [a.b.template] and ends the
    search. *)
Lemma first_regular_file_is_not_taken :
  let t := py "a.template.b.template" in
  let self := fst (find_template_files directory_first_fs EXCLUDE_PATTERNS
                     (init (py "/srv/project") (py ".") false)) in
  In t (template_files self) /\
  derive1 t = Some (py "a.b.template") /\
  derive2 t = Some (py "a.template.b") /\
  first_regular_file directory_first_fs [derive1 t; derive2 t; derive3 t] =
    Some (py "a.template.b") /\
  dict_get (parent_files (fst (find_parent_files directory_first_fs self))) t = None /\
  dict_get (parent_files (fst (find_parent_files directory_first_fs self))) t <>
    first_regular_file directory_first_fs [derive1 t; derive2 t; derive3 t].
Proof.
  cbv zeta. split; [vm_compute; tauto|].
  repeat (split; [vm_compute; reflexivity|]).
  vm_compute. discriminate.
Qed.

(** ** Normalisation of environment assignments *)

(** Facts on character classes, by enumeration of the 256 characters. *)
Ltac by_cases_on_char c :=
  destruct c as [[] [] [] [] [] [] [] []]; vm_compute; intuition congruence.

Lemma env_key_char (c : ascii) :
  is_env_key c = true ->
  is_dot c = true /\ is_word c = true /\ is_space c = false /\
  Ascii.eqb c "=" = false /\ Ascii.eqb QUOTE c = false /\
  Ascii.eqb c ":" = false /\ Ascii.eqb c "-" = false.
Proof. by_cases_on_char c. Qed.

(** The characters of a key, and the equals sign after it. *)
Definition key_or_eq (c : ascii) : bool := is_env_key c || Ascii.eqb c "=".

Lemma key_or_eq_char (c : ascii) :
  key_or_eq c = true ->
  is_space c = false /\ Ascii.eqb QUOTE c = false /\
  Ascii.eqb c ":" = false /\ Ascii.eqb c "-" = false.
Proof. by_cases_on_char c. Qed.

Lemma skipn_length_app {A : Type} (a b : list A) : skipn (length a) (a ++ b) = b.
Proof. induction a as [|x a IH]; [reflexivity|exact IH]. Qed.

Lemma first_down_top {A : Type} (f : nat -> option A) (n : nat) (r : A) :
  f n = Some r -> first_down f n = Some r.
Proof. intros H. destruct n; simpl; now rewrite H. Qed.

(** A greedy star over a run that ends the subject or stops at a character
    outside the class, when the rest of the pattern accepts what follows
    the whole run. *)
Lemma star_greedy_whole {A : Type} (p : ascii -> bool) (pos : nat)
    (run rest : pystr) (k : nat -> pystr -> option A) (r : A) :
  forallb p run = true -> span p rest = 0 ->
  k (pos + length run) rest = Some r ->
  star_greedy p pos (run ++ rest) k = Some r.
Proof.
  intros Hrun Hrest Hk. rewrite star_greedy_first_down.
  rewrite (span_all p run rest Hrun), Hrest, Nat.add_0_r.
  apply first_down_top. now rewrite skipn_length_app.
Qed.

(** The key pattern on [KEY=value]: the key is group 1 and the match runs to
    the end. *)
Lemma exec_env (key v : pystr) :
  key <> [] -> forallb is_env_key key = true -> forallb is_dot v = true ->
  exec RE_ENV 0 (key ++ "="%char :: v) no_marks =
  Some (Marks [(1, 0)] [(1, length key)], length key + 1 + length v).
Proof.
  intros Hne Hkey Hv. destruct key as [|c key]; [contradiction|].
  cbn [forallb] in Hkey. apply andb_true_iff in Hkey as [Hc Hkey].
  unfold RE_ENV. cbn [exec app Nat.eqb]. rewrite Hc.
  apply star_greedy_whole; [exact Hkey|reflexivity|].
  cbn [exec]. cbn [Ascii.eqb Bool.eqb andb].
  rewrite <- (app_nil_r v) at 1.
  apply star_greedy_whole; [exact Hv|reflexivity|].
  cbn [length set_end set_start starts ends no_marks]. do 2 f_equal. lia.
Qed.

Lemma firstn_length_app {A : Type} (a b : list A) : firstn (length a) (a ++ b) = a.
Proof. induction a as [|x a IH]; [reflexivity|]. simpl. now rewrite IH. Qed.

Lemma skipn_whole {A : Type} (n : nat) (s : list A) :
  length s <= n -> skipn n s = [].
Proof.
  revert n; induction s as [|x s IH]; intros n H; [now destruct n|].
  destruct n; simpl in *; [lia|]. apply IH. lia.
Qed.

(** Group 1 opened at the start of the subject. *)
Lemma expand_group1 (s ph : pystr) (h e : nat) :
  expand [TGroup 1; TLit ph] (Match s (Marks [(1, 0)] [(1, h)]) e) =
  firstn h s ++ ph.
Proof.
  cbn [expand group found subject starts ends assoc Nat.eqb].
  unfold slice. cbn [skipn]. now rewrite Nat.sub_0_r, app_nil_r.
Qed.

Lemma sub_env (key v : pystr) :
  key <> [] -> forallb is_env_key key = true -> forallb is_dot v = true ->
  re_sub RE_ENV [TGroup 1; TLit (py "=<VALUE>")] (key ++ "="%char :: v) =
  key ++ py "=<VALUE>".
Proof.
  intros Hne Hkey Hv.
  rewrite re_sub_anchored by apply anchored_bol.
  rewrite (exec_env key v Hne Hkey Hv), expand_group1, firstn_length_app.
  rewrite skipn_whole; [now rewrite app_nil_r|].
  rewrite length_app. cbn [length]. lia.
Qed.

(** Strings without an equals sign. *)
Definition no_eq (s : pystr) : Prop :=
  forallb (fun c => negb (Ascii.eqb c "=")) s = true.

Lemma no_eq_not_in (s : pystr) : no_eq s -> ~ In "="%char s.
Proof.
  unfold no_eq. rewrite forallb_forall. intros H Hin.
  specialize (H _ Hin). discriminate.
Qed.

Lemma startswith_incl (s p : pystr) :
  startswith s p = true -> incl p s.
Proof.
  intros H. apply startswith_split in H. rewrite H.
  intros c Hc. apply in_or_app. now left.
Qed.

Lemma in_skipn {A : Type} (n : nat) (s : list A) (x : A) :
  In x (skipn n s) -> In x s.
Proof.
  intros H. rewrite <- (firstn_skipn n s). apply in_or_app. now right.
Qed.

(** Where [SUFFIX=] can start in [KEY=value]: only where the key ends with
    the suffix. *)
Lemma marker_at_start (key sfx w : pystr) :
  no_eq key -> no_eq sfx ->
  startswith (key ++ "="%char :: w) (sfx ++ ["="%char]) = true -> key = sfx.
Proof.
  unfold no_eq. revert sfx; induction key as [|c key IH]; intros sfx Hk Hs H.
  - destruct sfx as [|d sfx]; [reflexivity|].
    cbn [app startswith forallb] in *.
    apply andb_true_iff in Hs as [Hd _]. apply andb_true_iff in H as [H _].
    rewrite H in Hd. discriminate.
  - cbn [forallb] in Hk. apply andb_true_iff in Hk as [Hc Hk].
    destruct sfx as [|d sfx]; cbn [app startswith forallb] in *.
    + apply andb_true_iff in H as [H _]. rewrite Ascii.eqb_sym in H.
      rewrite H in Hc. discriminate.
    + apply andb_true_iff in Hs as [_ Hs]. apply andb_true_iff in H as [H1 H2].
      apply Ascii.eqb_eq in H1. subst d. f_equal. now apply IH.
Qed.

Lemma marker_at (key sfx w : pystr) (n : nat) :
  no_eq key -> no_eq sfx -> no_eq w ->
  startswith (skipn n (key ++ "="%char :: w)) (sfx ++ ["="%char]) = true ->
  n + length sfx = length key /\ skipn n key = sfx.
Proof.
  intros Hk Hs Hw. revert n; induction key as [|c key IH]; intros n H.
  - destruct n as [|n].
    + apply (marker_at_start [] sfx w Hk Hs) in H. now subst sfx.
    + exfalso. cbn [app skipn] in H. apply (no_eq_not_in w Hw).
      apply in_skipn with n. apply (startswith_incl _ _ H).
      apply in_or_app. right. now left.
  - destruct n as [|n].
    + cbn [skipn] in *. apply (marker_at_start (c :: key) sfx w Hk Hs) in H.
      now subst sfx.
    + cbn [app skipn] in *. unfold no_eq in Hk. cbn [forallb] in Hk.
      apply andb_true_iff in Hk as [_ Hk].
      destruct (IH Hk n H) as [H1 H2]. split; [cbn [length]; lia|exact H2].
Qed.

(** [key.endswith(sfx)] *)
Definition endswith (key sfx : pystr) : bool :=
  (length sfx <=? length key) &&
  str_eqb (skipn (length key - length sfx) key) sfx.

Lemma endswith_split (key sfx : pystr) :
  endswith key sfx = true ->
  key = firstn (length key - length sfx) key ++ sfx.
Proof.
  unfold endswith. intros H. apply andb_true_iff in H as [_ H].
  apply str_eqb_eq in H.
  transitivity (firstn (length key - length sfx) key ++
                skipn (length key - length sfx) key).
  - symmetry. apply firstn_skipn.
  - now rewrite H.
Qed.

(** The four secret patterns, by the suffix before the equals sign. *)
Definition marker_re (sfx : pystr) : regex :=
  [Bol; GOpen 1; Star is_dot] ++ map Lit (sfx ++ ["="%char]) ++
  [GClose 1; Star is_dot; Eol].

Lemma span_whole (p : ascii -> bool) (s : pystr) :
  forallb p s = true -> span p s = length s.
Proof.
  intros H. rewrite <- (app_nil_r s) at 1.
  rewrite (span_all p s [] H). cbn [span]. lia.
Qed.

Lemma exec_marker (sfx key w : pystr) :
  no_eq key -> no_eq sfx -> no_eq w ->
  forallb is_dot key = true -> forallb is_dot w = true ->
  exec (marker_re sfx) 0 (key ++ "="%char :: w) no_marks =
  if endswith key sfx
  then Some (Marks [(1, 0)] [(1, length key + 1)], length key + 1 + length w)
  else None.
Proof.
  intros Hk Hs Hw Dk Dw.
  unfold marker_re. cbn [app exec Nat.eqb].
  rewrite star_greedy_first_down.
  set (X := key ++ "="%char :: w).
  set (m1 := set_start 1 0 no_marks).
  set (tail := [GClose 1; Star is_dot; Eol]).
  assert (Hf : forall n,
    exec (map Lit (sfx ++ ["="%char]) ++ tail) (0 + n) (skipn n X) m1 =
    if startswith (skipn n X) (sfx ++ ["="%char])
    then exec tail (n + length (sfx ++ ["="%char]))
           (skipn (length (sfx ++ ["="%char])) (skipn n X)) m1
    else None) by (intros n; apply exec_lits).
  destruct (endswith key sfx) eqn:E.
  - pose proof (endswith_split key sfx E) as Hsplit.
    set (k0 := firstn (length key - length sfx) key) in *.
    assert (Hlen : length key = length k0 + length sfx)
      by (rewrite Hsplit at 1; apply length_app).
    apply first_down_pick with (i := length k0).
    + unfold X. rewrite span_whole.
      * rewrite length_app. lia.
      * rewrite forallb_app, Dk. cbn [forallb]. now rewrite Dw.
    + rewrite Hf.
      assert (HX : skipn (length k0) X = (sfx ++ ["="%char]) ++ w).
      { unfold X. rewrite Hsplit at 1. rewrite <- !app_assoc.
        now rewrite skipn_length_app. }
      rewrite HX, startswith_app, skipn_length_app.
      unfold tail. cbn [exec].
      rewrite <- (app_nil_r w) at 1.
      apply star_greedy_whole; [exact Dw|reflexivity|].
      cbn [exec]. unfold m1, set_end, set_start, no_marks.
      cbn [starts ends]. rewrite length_app. cbn [length].
      replace (length k0 + (length sfx + 1)) with (length key + 1) by lia.
      reflexivity.
    + intros j Hj. rewrite Hf.
      destruct (startswith (skipn j X) (sfx ++ ["="%char])) eqn:S; [|reflexivity].
      apply (marker_at key sfx w j Hk Hs Hw) in S. lia.
  - apply first_down_none. intros j _. rewrite Hf.
    destruct (startswith (skipn j X) (sfx ++ ["="%char])) eqn:S; [|reflexivity].
    apply (marker_at key sfx w j Hk Hs Hw) in S as [S1 S2].
    unfold endswith in E. replace (length key - length sfx) with j in E by lia.
    rewrite S2, str_eqb_refl, andb_true_r in E.
    apply Nat.leb_gt in E. lia.
Qed.

Lemma sub_marker (sfx key w ph : pystr) :
  no_eq key -> no_eq sfx -> no_eq w ->
  forallb is_dot key = true -> forallb is_dot w = true ->
  re_sub (marker_re sfx) [TGroup 1; TLit ph] (key ++ "="%char :: w) =
  if endswith key sfx then key ++ "="%char :: ph else key ++ "="%char :: w.
Proof.
  intros Hk Hs Hw Dk Dw.
  rewrite re_sub_anchored by apply anchored_bol.
  rewrite (exec_marker sfx key w Hk Hs Hw Dk Dw).
  destruct (endswith key sfx); [|reflexivity].
  rewrite expand_group1.
  replace (key ++ "="%char :: w) with ((key ++ ["="%char]) ++ w)
    by now rewrite <- app_assoc.
  replace (length key + 1) with (length (key ++ ["="%char]))
    by (rewrite length_app; reflexivity).
  rewrite firstn_length_app, skipn_whole.
  - now rewrite app_nil_r, <- app_assoc.
  - rewrite !length_app. cbn [length]. lia.
Qed.

Lemma forallb_impl {A : Type} (p q : A -> bool) (s : list A) :
  (forall c, p c = true -> q c = true) ->
  forallb p s = true -> forallb q s = true.
Proof.
  intros Hpq. induction s as [|c s IH]; [reflexivity|].
  cbn [forallb]. intros H. apply andb_true_iff in H as [H1 H2].
  now rewrite (Hpq c H1), IH.
Qed.

Lemma skipn_head (p : ascii -> bool) (a w : pystr) (b : ascii) (n : nat) :
  forallb p a = true -> p b = true -> n <= length a ->
  exists d rest, skipn n (a ++ b :: w) = d :: rest /\ p d = true.
Proof.
  revert n; induction a as [|c a IH]; intros n Ha Hb Hn.
  - assert (n = 0) by (cbn [length] in Hn; lia). subst n. now exists b, w.
  - cbn [forallb] in Ha. apply andb_true_iff in Ha as [Hc Ha].
    destruct n as [|n].
    + now exists c, (a ++ b :: w).
    + cbn [app skipn]. apply IH; [exact Ha|exact Hb|cbn [length] in Hn; lia].
Qed.

(** One step of the matcher, atom by atom. *)
Lemma exec_GOpen n re pos rest m :
  exec (GOpen n :: re) pos rest m = exec re pos rest (set_start n pos m).
Proof. reflexivity. Qed.

Lemma exec_GClose n re pos rest m :
  exec (GClose n :: re) pos rest m = exec re pos rest (set_end n pos m).
Proof. reflexivity. Qed.

Lemma exec_Bol re rest m : exec (Bol :: re) 0 rest m = exec re 0 rest m.
Proof. reflexivity. Qed.

Lemma exec_Star p re pos rest m :
  exec (Star p :: re) pos rest m =
  star_greedy p pos rest (fun pos' rest' => exec re pos' rest' m).
Proof. reflexivity. Qed.

Lemma exec_Plus p re pos x rest m :
  exec (Plus p :: re) pos (x :: rest) m =
  if p x
  then star_greedy p (S pos) rest (fun pos' rest' => exec re pos' rest' m)
  else None.
Proof. reflexivity. Qed.

Lemma exec_Opt p re pos x rest m :
  exec (Opt p :: re) pos (x :: rest) m =
  if p x
  then match exec re (S pos) rest m with
       | Some r => Some r
       | None => exec re pos (x :: rest) m
       end
  else exec re pos (x :: rest) m.
Proof. reflexivity. Qed.

Lemma exec_Lit c re pos x rest m :
  exec (Lit c :: re) pos (x :: rest) m =
  if Ascii.eqb x c then exec re (S pos) rest m else None.
Proof. reflexivity. Qed.

Lemma star_greedy_stop {A : Type} (p : ascii -> bool) (pos : nat) (x : ascii)
    (rest : pystr) (k : nat -> pystr -> option A) :
  p x = false -> star_greedy p pos (x :: rest) k = k pos (x :: rest).
Proof. intros H. cbn [star_greedy]. now rewrite H. Qed.

(** After the key characters of [KEY=...] the field patterns want a quote,
    white space or a colon: they find a key character or the equals sign. *)
Lemma blocked_after_key (re : regex) (pos : nat) (d : ascii) (rest : pystr)
    (m : marks) :
  key_or_eq d = true ->
  exec (Opt (Ascii.eqb QUOTE) :: Star is_space :: Lit ":" :: re)
       pos (d :: rest) m = None.
Proof.
  intros Hd. destruct (key_or_eq_char d Hd) as [Hs [Hq [Hc _]]].
  rewrite exec_Opt, Hq, exec_Star, star_greedy_stop by exact Hs.
  now rewrite exec_Lit, Hc.
Qed.

Lemma exec_field_env (tail : regex) (key w : pystr) :
  key <> [] -> forallb is_env_key key = true ->
  exec (RE_FIELD_HEAD ++ tail) 0 (key ++ "="%char :: w) no_marks = None.
Proof.
  intros Hne Hkey. destruct key as [|c key]; [contradiction|].
  cbn [forallb] in Hkey. apply andb_true_iff in Hkey as [Hc Hkey].
  destruct (env_key_char c Hc) as [_ [Hw [Hs [_ [Hq _]]]]].
  unfold RE_FIELD_HEAD. cbn [app].
  rewrite exec_GOpen, exec_Bol, exec_Star, star_greedy_stop by exact Hs.
  rewrite exec_Opt, Hq, exec_Plus, Hw.
  rewrite star_greedy_first_down. apply first_down_none. intros j Hj.
  assert (Hspan : span is_word (key ++ "="%char :: w) = length key).
  { rewrite span_all.
    - rewrite span_stop by reflexivity. lia.
    - apply forallb_impl with (p := is_env_key); [|exact Hkey].
      intros d Hd. now destruct (env_key_char d Hd) as [_ [H _]]. }
  rewrite Hspan in Hj.
  destruct (skipn_head key_or_eq key w "="%char j) as [d [rest [E Hd]]];
    [|reflexivity|exact Hj|].
  - apply forallb_impl with (p := is_env_key); [|exact Hkey].
    intros d Hd. unfold key_or_eq. now rewrite Hd.
  - rewrite E. now apply blocked_after_key.
Qed.

Lemma exec_compose_env (key w : pystr) :
  key <> [] -> forallb is_env_key key = true ->
  exec RE_COMPOSE 0 (key ++ "="%char :: w) no_marks = None.
Proof.
  intros Hne Hkey. destruct key as [|c key]; [contradiction|].
  cbn [forallb] in Hkey. apply andb_true_iff in Hkey as [Hc _].
  destruct (env_key_char c Hc) as [_ [_ [Hs [_ [_ [_ Hd]]]]]].
  unfold RE_COMPOSE. cbn [app].
  rewrite exec_GOpen, exec_Bol, exec_Star, star_greedy_stop by exact Hs.
  now rewrite exec_Lit, Hd.
Qed.

Lemma anchored_field (tail : regex) : anchored (RE_FIELD_HEAD ++ tail).
Proof. unfold RE_FIELD_HEAD. cbn [app]. apply anchored_group_bol. Qed.

Lemma anchored_compose : anchored RE_COMPOSE.
Proof. unfold RE_COMPOSE. apply anchored_group_bol. Qed.

Lemma sub_field_env (tail : regex) (repl : template) (key w : pystr) :
  key <> [] -> forallb is_env_key key = true ->
  re_sub (RE_FIELD_HEAD ++ tail) repl (key ++ "="%char :: w) =
  key ++ "="%char :: w.
Proof.
  intros Hne Hkey. rewrite re_sub_anchored by apply anchored_field.
  now rewrite exec_field_env.
Qed.

Lemma sub_compose_env (repl : template) (key w : pystr) :
  key <> [] -> forallb is_env_key key = true ->
  re_sub RE_COMPOSE repl (key ++ "="%char :: w) = key ++ "="%char :: w.
Proof.
  intros Hne Hkey. rewrite re_sub_anchored by apply anchored_compose.
  now rewrite exec_compose_env.
Qed.

(** The placeholder the four secret rewrites leave after [KEY=], given the
    one, [w], that the key rewrite left: each later rewrite overrides the
    earlier ones. *)
Definition secret_placeholder (key w : pystr) : pystr :=
  if endswith key (py "_PASSWORD") then py "<PASSWORD>"
  else if endswith key (py "_TOKEN") then py "<TOKEN>"
  else if endswith key (py "_KEY") then py "<KEY>"
  else if endswith key (py "_SECRET") then py "<SECRET>"
  else w.

(** The placeholder of an environment assignment. *)
Definition placeholder (key : pystr) : pystr :=
  secret_placeholder key (py "<VALUE>").

Lemma markers_env (key w : pystr) :
  no_eq key -> forallb is_dot key = true ->
  no_eq w -> forallb is_dot w = true ->
  re_sub (RE_MARKER "_PASSWORD=") [TGroup 1; TLit (py "<PASSWORD>")]
    (re_sub (RE_MARKER "_TOKEN=") [TGroup 1; TLit (py "<TOKEN>")]
       (re_sub (RE_MARKER "_KEY=") [TGroup 1; TLit (py "<KEY>")]
          (re_sub (RE_MARKER "_SECRET=") [TGroup 1; TLit (py "<SECRET>")]
             (key ++ "="%char :: w)))) =
  key ++ "="%char :: secret_placeholder key w.
Proof.
  intros Hk Dk Hw Dw.
  change (RE_MARKER "_PASSWORD=") with (marker_re (py "_PASSWORD")).
  change (RE_MARKER "_TOKEN=") with (marker_re (py "_TOKEN")).
  change (RE_MARKER "_KEY=") with (marker_re (py "_KEY")).
  change (RE_MARKER "_SECRET=") with (marker_re (py "_SECRET")).
  unfold secret_placeholder.
  destruct (endswith key (py "_SECRET")) eqn:E1;
  destruct (endswith key (py "_KEY")) eqn:E2;
  destruct (endswith key (py "_TOKEN")) eqn:E3;
  destruct (endswith key (py "_PASSWORD")) eqn:E4;
  rewrite sub_marker by (assumption || reflexivity); rewrite E1;
  rewrite sub_marker by (assumption || reflexivity); rewrite E2;
  rewrite sub_marker by (assumption || reflexivity); rewrite E3;
  rewrite sub_marker by (assumption || reflexivity); rewrite E4;
  reflexivity.
Qed.

Lemma env_key_no_eq (key : pystr) :
  forallb is_env_key key = true ->
  no_eq key /\ forallb is_dot key = true.
Proof.
  intros H. split.
  - apply forallb_impl with (p := is_env_key); [|exact H].
    intros c Hc. destruct (env_key_char c Hc) as [_ [_ [_ [E _]]]].
    now rewrite E.
  - apply forallb_impl with (p := is_env_key); [|exact H].
    intros c Hc. now destruct (env_key_char c Hc) as [E _].
Qed.

(** Normalisation of [KEY=value]: the key, the equals sign and the
    placeholder that the key alone decides. *)
Lemma normalize_env (line key v : pystr) :
  strip line = key ++ "="%char :: v ->
  key <> [] -> forallb is_env_key key = true -> forallb is_dot v = true ->
  normalize_line line = key ++ "="%char :: placeholder key.
Proof.
  intros Hstrip Hne Hkey Hv.
  destruct (env_key_no_eq key Hkey) as [Hk Dk].
  unfold normalize_line. cbv zeta. rewrite Hstrip.
  rewrite (sub_env key v Hne Hkey Hv).
  change (py "=<VALUE>") with ("="%char :: py "<VALUE>").
  rewrite (markers_env key (py "<VALUE>") Hk Dk eq_refl eq_refl).
  unfold RE_FIELD_STR, RE_FIELD_NUM.
  rewrite !sub_field_env by assumption.
  now rewrite sub_compose_env by assumption.
Qed.

Lemma last_app_nonempty (pre sfx : pystr) (d : ascii) :
  sfx <> [] -> last (pre ++ sfx) d = last sfx d.
Proof.
  intros Hs. induction pre as [|c pre IH]; [reflexivity|].
  cbn [app]. destruct (pre ++ sfx) eqn:E.
  - apply app_eq_nil in E as [_ E]. contradiction.
  - rewrite <- IH. reflexivity.
Qed.

Lemma endswith_last (key sfx : pystr) (d : ascii) :
  sfx <> [] -> endswith key sfx = true -> last key d = last sfx d.
Proof.
  intros Hs H. rewrite (endswith_split key sfx H) at 1.
  now apply last_app_nonempty.
Qed.

(** Two suffixes with different last characters exclude each other. *)
Lemma endswith_excl (key s1 s2 : pystr) :
  s1 <> [] -> s2 <> [] -> last s1 "x"%char <> last s2 "x"%char ->
  endswith key s1 = true -> endswith key s2 = false.
Proof.
  intros H1 H2 Hd E1. destruct (endswith key s2) eqn:E2; [|reflexivity].
  exfalso. apply Hd.
  rewrite <- (endswith_last key s1 "x"%char H1 E1).
  now apply endswith_last.
Qed.

Lemma endswith_nonempty (key sfx : pystr) :
  sfx <> [] -> endswith key sfx = true -> key <> [].
Proof.
  intros Hs H ->. unfold endswith in H. apply andb_true_iff in H as [H _].
  apply Nat.leb_le in H. destruct sfx; [contradiction | cbn in H; lia].
Qed.

Ltac distinct := vm_compute; discriminate.

Lemma placeholder_SECRET (key : pystr) :
  endswith key (py "_SECRET") = true -> placeholder key = py "<SECRET>".
Proof.
  intros E. unfold placeholder, secret_placeholder.
  rewrite (endswith_excl key (py "_SECRET") (py "_PASSWORD")
             ltac:(distinct) ltac:(distinct) ltac:(distinct) E).
  rewrite (endswith_excl key (py "_SECRET") (py "_TOKEN")
             ltac:(distinct) ltac:(distinct) ltac:(distinct) E).
  rewrite (endswith_excl key (py "_SECRET") (py "_KEY")
             ltac:(distinct) ltac:(distinct) ltac:(distinct) E).
  now rewrite E.
Qed.

Lemma placeholder_KEY (key : pystr) :
  endswith key (py "_KEY") = true -> placeholder key = py "<KEY>".
Proof.
  intros E. unfold placeholder, secret_placeholder.
  rewrite (endswith_excl key (py "_KEY") (py "_PASSWORD")
             ltac:(distinct) ltac:(distinct) ltac:(distinct) E).
  rewrite (endswith_excl key (py "_KEY") (py "_TOKEN")
             ltac:(distinct) ltac:(distinct) ltac:(distinct) E).
  now rewrite E.
Qed.

Lemma placeholder_TOKEN (key : pystr) :
  endswith key (py "_TOKEN") = true -> placeholder key = py "<TOKEN>".
Proof.
  intros E. unfold placeholder, secret_placeholder.
  rewrite (endswith_excl key (py "_TOKEN") (py "_PASSWORD")
             ltac:(distinct) ltac:(distinct) ltac:(distinct) E).
  now rewrite E.
Qed.

Lemma placeholder_PASSWORD (key : pystr) :
  endswith key (py "_PASSWORD") = true -> placeholder key = py "<PASSWORD>".
Proof.
  intros E. unfold placeholder, secret_placeholder. now rewrite E.
Qed.

Lemma not_generic (key ph : pystr) :
  ph <> py "<VALUE>" ->
  key ++ "="%char :: ph <> key ++ py "=<VALUE>".
Proof.
  intros Hph H. apply app_inv_head in H. apply Hph. now inversion H.
Qed.

(** C4. For a line whose trimmed form is KEY=value, with a key of capitals,
    digits and underscores that ends in _SECRET, _KEY, _TOKEN or _PASSWORD
    and a value without line feed, [normalize_line] returns the key, the
    equals sign and the placeholder of that kind (<SECRET>, <KEY>, <TOKEN>,
    <PASSWORD>), and never the generic KEY=<VALUE>.  In particular
    DB_PASSWORD=s3cr3t and DB_PASSWORD=placeholder both normalise to
    DB_PASSWORD=<PASSWORD>, and comparing a template holding the second with
    a parent holding the first reports no missing line. *)
Theorem secret_placeholder_is_retained (line key v : pystr) :
  strip line = key ++ "="%char :: v ->
  forallb is_env_key key = true ->
  forallb is_dot v = true ->
  (endswith key (py "_SECRET") = true ->
     normalize_line line = key ++ py "=<SECRET>") /\
  (endswith key (py "_KEY") = true ->
     normalize_line line = key ++ py "=<KEY>") /\
  (endswith key (py "_TOKEN") = true ->
     normalize_line line = key ++ py "=<TOKEN>") /\
  (endswith key (py "_PASSWORD") = true ->
     normalize_line line = key ++ py "=<PASSWORD>") /\
  (endswith key (py "_SECRET") || endswith key (py "_KEY") ||
   endswith key (py "_TOKEN") || endswith key (py "_PASSWORD") = true ->
     normalize_line line <> key ++ py "=<VALUE>") /\
  normalize_line (ln "DB_PASSWORD=s3cr3t") = py "DB_PASSWORD=<PASSWORD>" /\
  normalize_line (ln "DB_PASSWORD=placeholder") = py "DB_PASSWORD=<PASSWORD>" /\
  compare_lines [ln "DB_PASSWORD=placeholder"] [ln "DB_PASSWORD=s3cr3t"] = [].
Proof.
  intros Hstrip Hkey Hv.
  assert (N : forall sfx, sfx <> [] -> endswith key sfx = true ->
            normalize_line line = key ++ "="%char :: placeholder key).
  { intros sfx Hs E. apply (normalize_env line key v Hstrip); try assumption.
    exact (endswith_nonempty key sfx Hs E). }
  assert (S1 : endswith key (py "_SECRET") = true ->
               normalize_line line = key ++ py "=<SECRET>").
  { intros E. rewrite (N (py "_SECRET") ltac:(distinct) E).
    now rewrite (placeholder_SECRET key E). }
  assert (S2 : endswith key (py "_KEY") = true ->
               normalize_line line = key ++ py "=<KEY>").
  { intros E. rewrite (N (py "_KEY") ltac:(distinct) E).
    now rewrite (placeholder_KEY key E). }
  assert (S3 : endswith key (py "_TOKEN") = true ->
               normalize_line line = key ++ py "=<TOKEN>").
  { intros E. rewrite (N (py "_TOKEN") ltac:(distinct) E).
    now rewrite (placeholder_TOKEN key E). }
  assert (S4 : endswith key (py "_PASSWORD") = true ->
               normalize_line line = key ++ py "=<PASSWORD>").
  { intros E. rewrite (N (py "_PASSWORD") ltac:(distinct) E).
    now rewrite (placeholder_PASSWORD key E). }
  split; [exact S1|]. split; [exact S2|]. split; [exact S3|].
  split; [exact S4|].
  split; [|split; [|split]]; [|vm_compute; reflexivity..].
  intros E.
  destruct (endswith key (py "_SECRET")) eqn:E1.
  { rewrite (S1 eq_refl). apply not_generic. distinct. }
  destruct (endswith key (py "_KEY")) eqn:E2.
  { rewrite (S2 eq_refl). apply not_generic. distinct. }
  destruct (endswith key (py "_TOKEN")) eqn:E3.
  { rewrite (S3 eq_refl). apply not_generic. distinct. }
  destruct (endswith key (py "_PASSWORD")) eqn:E4.
  { rewrite (S4 eq_refl). apply not_generic. distinct. }
  discriminate E.
Qed.

Lemma secret_placeholder_is_retained_witness :
  normalize_line (ln "API_TOKEN=abc123") = py "API_TOKEN=<TOKEN>" /\
  normalize_line (ln "API_TOKEN=abc123") <> py "API_TOKEN=<VALUE>".
Proof.
  assert (H1 : strip (ln "API_TOKEN=abc123") =
               py "API_TOKEN" ++ "="%char :: py "abc123")
    by (vm_compute; reflexivity).
  assert (H2 : forallb is_env_key (py "API_TOKEN") = true)
    by (vm_compute; reflexivity).
  assert (H3 : forallb is_dot (py "abc123") = true)
    by (vm_compute; reflexivity).
  assert (H4 : endswith (py "API_TOKEN") (py "_TOKEN") = true)
    by (vm_compute; reflexivity).
  assert (H5 : endswith (py "API_TOKEN") (py "_SECRET") ||
               endswith (py "API_TOKEN") (py "_KEY") ||
               endswith (py "API_TOKEN") (py "_TOKEN") ||
               endswith (py "API_TOKEN") (py "_PASSWORD") = true)
    by (vm_compute; reflexivity).
  destruct (secret_placeholder_is_retained
              (ln "API_TOKEN=abc123") (py "API_TOKEN") (py "abc123") H1 H2 H3)
    as [_ [_ [T [_ [G _]]]]].
  split; [exact (T H4) | exact (G H5)].
Defined.

(** ** Repeated normalisation *)

Lemma lstrip_head (c : ascii) (s : pystr) :
  is_space c = false -> lstrip (c :: s) = c :: s.
Proof. intros H. cbn [lstrip]. now rewrite H. Qed.

Lemma rstrip_last (s : pystr) (c : ascii) :
  is_space c = false -> rstrip (s ++ [c]) = s ++ [c].
Proof.
  intros H. unfold rstrip. rewrite rev_app_distr. cbn [rev app].
  rewrite (lstrip_head c (rev s) H). cbn [rev]. now rewrite rev_involutive.
Qed.

(** [strip] leaves alone a text that begins and ends with a character that
    is not white space. *)
Lemma strip_fixed (c d : ascii) (s : pystr) :
  is_space c = false -> is_space d = false ->
  strip (c :: s ++ [d]) = c :: s ++ [d].
Proof.
  intros Hc Hd. unfold strip. rewrite (lstrip_head c _ Hc).
  exact (rstrip_last (c :: s) d Hd).
Qed.

Lemma placeholder_shape (key : pystr) :
  exists ph, placeholder key = ph ++ [">"%char] /\
             forallb is_dot (placeholder key) = true.
Proof.
  unfold placeholder, secret_placeholder.
  destruct (endswith key (py "_PASSWORD"));
    [exists (py "<PASSWORD"); split; reflexivity|].
  destruct (endswith key (py "_TOKEN"));
    [exists (py "<TOKEN"); split; reflexivity|].
  destruct (endswith key (py "_KEY"));
    [exists (py "<KEY"); split; reflexivity|].
  destruct (endswith key (py "_SECRET"));
    [exists (py "<SECRET"); split; reflexivity|].
  exists (py "<VALUE"); split; reflexivity.
Qed.

(** A normalised assignment is its own trimmed form. *)
Lemma strip_normalized_env (key : pystr) :
  key <> [] -> forallb is_env_key key = true ->
  strip (key ++ "="%char :: placeholder key) =
  key ++ "="%char :: placeholder key.
Proof.
  intros Hne Hkey. destruct key as [|c key]; [contradiction|].
  cbn [forallb] in Hkey. apply andb_true_iff in Hkey as [Hc _].
  destruct (env_key_char c Hc) as [_ [_ [Hsp _]]].
  destruct (placeholder_shape (c :: key)) as [ph [E _]]. rewrite E.
  replace ((c :: key) ++ "="%char :: ph ++ [">"%char])
    with (c :: (key ++ "="%char :: ph) ++ [">"%char])
    by (cbn [app]; now rewrite <- app_assoc).
  now apply strip_fixed.
Qed.

(** C5 as first stated fails: on [a_SECRET=b_KEY=c_SECRET=d] the first pass
    gives [a_SECRET=b_KEY=<KEY>], whose own normal form is
    [a_SECRET=<SECRET>]. *)
Lemma second_pass_changes_the_line :
  let L := py "a_SECRET=b_KEY=c_SECRET=d" in
  normalize_line L = py "a_SECRET=b_KEY=<KEY>" /\
  normalize_line (normalize_line L) = py "a_SECRET=<SECRET>" /\
  normalize_line (normalize_line L) <> normalize_line L.
Proof.
  cbv zeta. split; [vm_compute; reflexivity|].
  split; [vm_compute; reflexivity|]. vm_compute. discriminate.
Qed.

(** On every line whose trimmed form is KEY=value, with a non-empty key of
    capitals, digits and underscores and a value without line feed,
    normalising twice gives what normalising once gives. *)
Lemma assignments_are_idempotent (line key v : pystr) :
  strip line = key ++ "="%char :: v ->
  key <> [] ->
  forallb is_env_key key = true ->
  forallb is_dot v = true ->
  normalize_line (normalize_line line) = normalize_line line.
Proof.
  intros Hstrip Hne Hkey Hv.
  rewrite (normalize_env line key v Hstrip Hne Hkey Hv).
  destruct (placeholder_shape key) as [ph [_ Hdots]].
  exact (normalize_env _ key (placeholder key)
           (strip_normalized_env key Hne Hkey) Hne Hkey Hdots).
Qed.

(** ** Shell patterns *)

Lemma matches_any (ts : list Glob.tok) (s : pystr) :
  Glob.matches (Glob.Any :: ts) s =
  Glob.matches ts s ||
  match s with
  | [] => false
  | _ :: s' => Glob.matches (Glob.Any :: ts) s'
  end.
Proof. destruct s; reflexivity. Qed.

(** A literal character of a pattern occurs in every name it matches. *)
Lemma matches_chr (ts : list Glob.tok) (c : ascii) :
  In (Glob.Chr c) ts ->
  forall s, Glob.matches ts s = true -> contains_char c s = true.
Proof.
  induction ts as [|t ts IH]; intros Hin s H; [contradiction|].
  destruct t as [| |c0|negated chunks|].
  - destruct Hin as [Hin|Hin]; [discriminate|].
    induction s as [|x s IHs].
    + rewrite matches_any, orb_false_r in H. exact (IH Hin [] H).
    + rewrite matches_any in H. apply orb_true_iff in H as [H|H].
      * exact (IH Hin _ H).
      * unfold contains_char. cbn [existsb]. apply orb_true_iff. right.
        exact (IHs H).
  - destruct Hin as [Hin|Hin]; [discriminate|].
    destruct s as [|x s]; [discriminate|]. cbn [Glob.matches] in H.
    unfold contains_char. cbn [existsb]. apply orb_true_iff. right.
    exact (IH Hin s H).
  - destruct s as [|x s]; [discriminate|]. cbn [Glob.matches] in H.
    apply andb_true_iff in H as [Hx H].
    unfold contains_char. cbn [existsb]. apply orb_true_iff.
    destruct Hin as [Hin|Hin].
    + left. inversion Hin; subst. now rewrite Ascii.eqb_sym.
    + right. exact (IH Hin s H).
  - destruct Hin as [Hin|Hin]; [discriminate|].
    destruct s as [|x s]; [discriminate|]. cbn [Glob.matches] in H.
    apply andb_true_iff in H as [_ H].
    unfold contains_char. cbn [existsb]. apply orb_true_iff. right.
    exact (IH Hin s H).
  - discriminate H.
Qed.

(** A leading star matches any prefix. *)
Lemma matches_any_skip (ts : list Glob.tok) (a s : pystr) :
  Glob.matches ts s = true -> Glob.matches (Glob.Any :: ts) (a ++ s) = true.
Proof.
  intros H. induction a as [|x a IH].
  - rewrite matches_any. cbn [app]. now rewrite H.
  - rewrite matches_any. cbn [app]. rewrite IH. apply orb_true_r.
Qed.

Lemma matches_any_split (ts : list Glob.tok) (s : pystr) :
  Glob.matches (Glob.Any :: ts) s = true ->
  exists a b, s = a ++ b /\ Glob.matches ts b = true.
Proof.
  induction s as [|x s IH]; rewrite matches_any; intros H.
  - rewrite orb_false_r in H. now exists [], [].
  - apply orb_true_iff in H as [H|H].
    + now exists [], (x :: s).
    + destruct (IH H) as [a [b [E Hb]]]. exists (x :: a), b.
      split; [now rewrite E|exact Hb].
Qed.

(** A pattern of literal characters matches itself only. *)
Lemma matches_chrs (l s : pystr) :
  Glob.matches (map Glob.Chr l) s = true <-> s = l.
Proof.
  revert s; induction l as [|c l IH]; intros s.
  - destruct s; cbn; split; congruence.
  - destruct s as [|x s]; cbn [map Glob.matches]; [split; discriminate|].
    rewrite andb_true_iff, Ascii.eqb_eq, IH. split.
    + now intros [-> ->].
    + intros H; inversion H; now subst.
Qed.

(** Two stars and a literal tail: the names that end with the tail. *)
Lemma matches_any_any_chrs (l s : pystr) :
  Glob.matches (Glob.Any :: Glob.Any :: map Glob.Chr l) s = true <->
  exists a, s = a ++ l.
Proof.
  split.
  - intros H. apply matches_any_split in H as [a [b [-> H]]].
    apply matches_any_split in H as [a' [b' [-> H]]].
    apply matches_chrs in H. subst b'. exists (a ++ a'). now rewrite app_assoc.
  - intros [a ->]. apply matches_any_skip.
    replace l with ([] ++ l) by reflexivity. apply matches_any_skip.
    now apply matches_chrs.
Qed.

Lemma is_excluded_file_iff (excl : list pystr) (path : pystr) :
  is_excluded_file excl path = true <->
  exists pattern, In pattern excl /\ Glob.fnmatch path pattern = true.
Proof.
  induction excl as [|p excl IH]; cbn [is_excluded_file].
  - split; [discriminate|]. now intros [p [[] _]].
  - destruct (Glob.fnmatch path p) eqn:E.
    + split; [|reflexivity]. intros _. exists p. split; [now left|exact E].
    + rewrite IH. split.
      * intros [q [Hq Hm]]. exists q. split; [now right|exact Hm].
      * intros [q [[->|Hq] Hm]]; [congruence|]. now exists q.
Qed.

Ltac literal_slash := vm_compute; repeat (first [left; reflexivity | right]).

(** X1. Every default exclusion pattern holds a literal slash, so a path
    without a slash - a file at the top level of the searched tree - is never
    excluded by the defaults, whatever its name: a top-level
    [config.template.js] is kept. *)
Theorem default_exclusions_spare_the_top_level (path : pystr) :
  contains_char "/" path = false ->
  is_excluded_file EXCLUDE_PATTERNS path = false.
Proof.
  intros Hno. destruct (is_excluded_file EXCLUDE_PATTERNS path) eqn:E;
    [|reflexivity].
  apply is_excluded_file_iff in E as [p [Hin Hm]].
  assert (Hs : In (Glob.Chr "/") (Glob.translate p)).
  { destruct Hin as [<-|[<-|[<-|[<-|[]]]]]; literal_slash. }
  rewrite (matches_chr _ "/" Hs path Hm) in Hno. discriminate.
Qed.

Lemma default_exclusions_spare_the_top_level_witness :
  is_excluded_file EXCLUDE_PATTERNS (py "config.template.js") = false.
Proof.
  assert (H : contains_char "/" (py "config.template.js") = false)
    by (vm_compute; reflexivity).
  exact (default_exclusions_spare_the_top_level (py "config.template.js") H).
Defined.

(** The paths the first default pattern excludes. *)
Lemma fnmatch_config (path : pystr) :
  Glob.fnmatch path (py "**/config.template.js") = true <->
  exists dir, path = dir ++ py "/config.template.js".
Proof.
  unfold Glob.fnmatch.
  change (Glob.translate (py "**/config.template.js"))
    with (Glob.Any :: Glob.Any :: map Glob.Chr (py "/config.template.js")).
  apply matches_any_any_chrs.
Qed.

Lemma fnmatch_mirotalk (path : pystr) :
  Glob.fnmatch path (py "**/mirotalk/app/src/config.template.js") = true ->
  Glob.fnmatch path (py "**/config.template.js") = true.
Proof.
  unfold Glob.fnmatch at 1.
  change (Glob.translate (py "**/mirotalk/app/src/config.template.js"))
    with (Glob.Any :: Glob.Any ::
          map Glob.Chr (py "/mirotalk/app/src/config.template.js")).
  intros H. apply matches_any_any_chrs in H as [a ->].
  apply fnmatch_config. exists (a ++ py "/mirotalk/app/src").
  now rewrite <- app_assoc.
Qed.

Lemma fnmatch_mirotalk_backup (path : pystr) :
  Glob.fnmatch path (py "**/mirotalk_backup/app/src/config.template.js") = true ->
  Glob.fnmatch path (py "**/config.template.js") = true.
Proof.
  unfold Glob.fnmatch at 1.
  change (Glob.translate (py "**/mirotalk_backup/app/src/config.template.js"))
    with (Glob.Any :: Glob.Any ::
          map Glob.Chr (py "/mirotalk_backup/app/src/config.template.js")).
  intros H. apply matches_any_any_chrs in H as [a ->].
  apply fnmatch_config. exists (a ++ py "/mirotalk_backup/app/src").
  now rewrite <- app_assoc.
Qed.

(** X2. The first default pattern excludes exactly the paths of the form
    [dir/config.template.js]; the second and the third are covered by it,
    so the default list excludes what its first and last patterns
    exclude. *)
Theorem default_exclusions_reduce_to_two (path : pystr) :
  (Glob.fnmatch path (py "**/config.template.js") = true <->
   exists dir, path = dir ++ py "/config.template.js") /\
  is_excluded_file EXCLUDE_PATTERNS path =
  is_excluded_file [py "**/config.template.js"; py "**/.git*/**"] path.
Proof.
  split; [apply fnmatch_config|].
  unfold EXCLUDE_PATTERNS. cbn [is_excluded_file].
  destruct (Glob.fnmatch path (py "**/config.template.js")) eqn:E1;
    [reflexivity|].
  destruct (Glob.fnmatch path (py "**/mirotalk/app/src/config.template.js"))
    eqn:E2.
  { apply fnmatch_mirotalk in E2. congruence. }
  destruct (Glob.fnmatch path
              (py "**/mirotalk_backup/app/src/config.template.js")) eqn:E3.
  { apply fnmatch_mirotalk_backup in E3. congruence. }
  reflexivity.
Qed.

(** A name that ends in [.env.template] ends in [.template]. *)
Lemma fnmatch_env_template (name : pystr) :
  Glob.fnmatch name (py "*.env.template") = true ->
  Glob.fnmatch name (py "*.template") = true.
Proof.
  unfold Glob.fnmatch.
  change (Glob.translate (py "*.env.template"))
    with (Glob.Any :: map Glob.Chr (py ".env.template")).
  change (Glob.translate (py "*.template"))
    with (Glob.Any :: map Glob.Chr (py ".template")).
  intros H. apply matches_any_split in H as [a [b [-> H]]].
  apply matches_chrs in H. subst b.
  change (py ".env.template") with (py ".env" ++ py ".template").
  rewrite app_assoc. apply matches_any_skip. now apply matches_chrs.
Qed.

(** X3. A file name holds no slash, as [os.walk] gives it, so the three
    template patterns with a directory part never match one and discovery
    rests on the first three; of these the third is covered by the second.
    A path is therefore listed at most three times, and a name in
    [.env.template] at least twice when it is listed. *)
Theorem directory_patterns_never_match_a_name (name : pystr) :
  contains_char "/" name = false ->
  matching_patterns name =
    filter (Glob.fnmatch name)
      [py "*.template.*"; py "*.template"; py "*.env.template"] /\
  length (matching_patterns name) <= 3 /\
  (Glob.fnmatch name (py "*.env.template") = true ->
   2 <= length (matching_patterns name)).
Proof.
  intros Hno.
  assert (N : forall p, In (Glob.Chr "/") (Glob.translate p) ->
                        Glob.fnmatch name p = false).
  { intros p Hs. destruct (Glob.fnmatch name p) eqn:E; [|reflexivity].
    rewrite (matches_chr _ "/" Hs name E) in Hno. discriminate. }
  assert (E : matching_patterns name =
              filter (Glob.fnmatch name)
                [py "*.template.*"; py "*.template"; py "*.env.template"]).
  { unfold matching_patterns, TEMPLATE_PATTERNS. cbn [filter].
    rewrite (N (py "*/*.template.*")) by literal_slash.
    rewrite (N (py "*/*.template")) by literal_slash.
    rewrite (N (py "*/*.env.template")) by literal_slash.
    reflexivity. }
  split; [exact E|]. rewrite E. cbn [filter]. split.
  - destruct (Glob.fnmatch name (py "*.template.*"));
    destruct (Glob.fnmatch name (py "*.template"));
    destruct (Glob.fnmatch name (py "*.env.template")); cbn [length]; lia.
  - intros H3. rewrite (fnmatch_env_template name H3), H3.
    destruct (Glob.fnmatch name (py "*.template.*")); cbn [length]; lia.
Qed.

Lemma directory_patterns_never_match_a_name_witness :
  length (matching_patterns (py "app.env.template")) <= 3 /\
  2 <= length (matching_patterns (py "app.env.template")).
Proof.
  assert (H : contains_char "/" (py "app.env.template") = false)
    by (vm_compute; reflexivity).
  assert (H3 : Glob.fnmatch (py "app.env.template") (py "*.env.template") = true)
    by (vm_compute; reflexivity).
  destruct (directory_patterns_never_match_a_name (py "app.env.template") H)
    as [_ [Hle Hge]].
  split; [exact Hle | exact (Hge H3)].
Defined.

(** ** The comparison on parents without comments *)

Lemma filter_all {A : Type} (p : A -> bool) (l : list A) :
  forallb p l = true -> filter p l = l.
Proof.
  induction l as [|x l IH]; cbn [forallb filter]; [reflexivity|].
  intros H. apply andb_true_iff in H as [Hx Hl]. rewrite Hx. now rewrite IH.
Qed.

(** When the filtered list is the list itself, position [i] of the one is
    position [i] of the other. *)
Lemma flagged_originals (Q : pystr -> bool) (f : pystr -> pystr)
    (pre pl : list pystr) :
  map (fun i => rstrip (nth i (pre ++ pl) []))
    (map fst (filter (fun il : nat * pystr => Q (snd il))
                (combine (seq (length pre) (length pl)) (map f pl)))) =
  map rstrip (filter (fun l => Q (f l)) pl).
Proof.
  revert pre; induction pl as [|x pl IH]; intros pre; [reflexivity|].
  cbn [length seq map combine filter snd].
  assert (T : map (fun i => rstrip (nth i (pre ++ x :: pl) []))
                (map fst (filter (fun il : nat * pystr => Q (snd il))
                   (combine (seq (S (length pre)) (length pl)) (map f pl)))) =
              map rstrip (filter (fun l => Q (f l)) pl)).
  { replace (pre ++ x :: pl) with ((pre ++ [x]) ++ pl)
      by (now rewrite <- app_assoc).
    replace (S (length pre)) with (length (pre ++ [x]))
      by (rewrite length_app; cbn [length]; lia).
    apply IH. }
  destruct (Q (f x)); [|exact T].
  cbn [map fst]. rewrite T. now rewrite nth_middle.
Qed.

(** X4. When the parent holds neither blank lines nor comments, the lines
    reported are the parent's own lines, trimmed on the right, whose
    normalised form no content line of the template has, in the order of the
    parent: the position in the filtered list is then the position in the
    file. *)
Theorem originals_are_reported_without_comments fs self t p tl pl :
  os_path_isfile fs t = true -> os_path_isfile fs p = true ->
  readlines fs t = Lines tl -> readlines fs p = Lines pl ->
  forallb is_content pl = true ->
  fst (find_missing_lines fs self t p) =
  map rstrip
    (filter (fun l => negb (mem (normalize_line l) (normalized_lines tl))) pl).
Proof.
  intros Ht Hp Rt Rp Hall.
  rewrite (find_missing_lines_read fs self t p tl pl Ht Hp Rt Rp).
  cbn [fst ret]. rewrite compare_lines_indices.
  unfold flagged_indices, enumerate, normalized_lines at 2 3.
  rewrite (filter_all is_content pl Hall), length_map.
  exact (flagged_originals
           (fun n => negb (mem n (normalized_lines tl))) normalize_line [] pl).
Qed.

Definition plain_template : list pystr := [ln "PORT=xxxx"].
Definition plain_parent : list pystr :=
  [ln "PORT=8080"; ln "NEW_FEATURE_FLAG=true"].
Definition plain_fs : filesystem :=
  sample_fs (Dir [py "c.env.template"; py "c.env"] NoDirs)
    [(py "c.env.template", AFile plain_template);
     (py "c.env", AFile plain_parent)].

Lemma originals_are_reported_without_comments_witness :
  fst (find_missing_lines plain_fs (init (py "/srv/project") (py ".") false)
         (py "c.env.template") (py "c.env")) =
  [py "NEW_FEATURE_FLAG=true"].
Proof.
  assert (H1 : os_path_isfile plain_fs (py "c.env.template") = true)
    by (vm_compute; reflexivity).
  assert (H2 : os_path_isfile plain_fs (py "c.env") = true)
    by (vm_compute; reflexivity).
  assert (H3 : readlines plain_fs (py "c.env.template") = Lines plain_template)
    by (vm_compute; reflexivity).
  assert (H4 : readlines plain_fs (py "c.env") = Lines plain_parent)
    by (vm_compute; reflexivity).
  assert (H5 : forallb is_content plain_parent = true)
    by (vm_compute; reflexivity).
  rewrite (originals_are_reported_without_comments plain_fs
             (init (py "/srv/project") (py ".") false) (py "c.env.template") (py "c.env")
             plain_template plain_parent H1 H2 H3 H4 H5).
  vm_compute. reflexivity.
Defined.

(** ** Assignments are compared by key *)

(** The text before the first equals sign is determined. *)
Lemma key_before_eq (k1 k2 a b : pystr) :
  no_eq k1 -> no_eq k2 ->
  k1 ++ "="%char :: a = k2 ++ "="%char :: b -> k1 = k2.
Proof.
  unfold no_eq. revert k2; induction k1 as [|x k1 IH]; intros k2 H1 H2 E.
  - destruct k2 as [|y k2]; [reflexivity|]. exfalso.
    cbn [app] in E. inversion E; subst y.
    cbn [forallb] in H2. now rewrite Ascii.eqb_refl in H2.
  - destruct k2 as [|y k2].
    + exfalso. cbn [app] in E. inversion E; subst x.
      cbn [forallb] in H1. now rewrite Ascii.eqb_refl in H1.
    + cbn [app] in E. inversion E; subst y. f_equal.
      cbn [forallb] in H1, H2.
      apply andb_true_iff in H1 as [_ H1]. apply andb_true_iff in H2 as [_ H2].
      now apply IH.
Qed.

(** X5. Two lines whose trimmed forms are KEY=value, with non-empty keys of
    capitals, digits and underscores and values without line feed, have the
    same normal form exactly when they have the same key: the values play no
    part, and no two keys are confused. *)
Theorem assignments_are_compared_by_key (l1 l2 k1 k2 v1 v2 : pystr) :
  strip l1 = k1 ++ "="%char :: v1 ->
  strip l2 = k2 ++ "="%char :: v2 ->
  k1 <> [] -> k2 <> [] ->
  forallb is_env_key k1 = true -> forallb is_env_key k2 = true ->
  forallb is_dot v1 = true -> forallb is_dot v2 = true ->
  (normalize_line l1 = normalize_line l2 <-> k1 = k2).
Proof.
  intros S1 S2 N1 N2 K1 K2 D1 D2.
  rewrite (normalize_env l1 k1 v1 S1 N1 K1 D1).
  rewrite (normalize_env l2 k2 v2 S2 N2 K2 D2).
  split.
  - apply key_before_eq.
    + exact (proj1 (env_key_no_eq k1 K1)).
    + exact (proj1 (env_key_no_eq k2 K2)).
  - now intros ->.
Qed.

Lemma assignments_are_compared_by_key_witness :
  normalize_line (ln "PORT=8080") = normalize_line (ln "  PORT=xxxx") /\
  normalize_line (ln "PORT=8080") <> normalize_line (ln "PORTS=8080").
Proof.
  assert (S1 : strip (ln "PORT=8080") = py "PORT" ++ "="%char :: py "8080")
    by (vm_compute; reflexivity).
  assert (S2 : strip (ln "  PORT=xxxx") = py "PORT" ++ "="%char :: py "xxxx")
    by (vm_compute; reflexivity).
  assert (S3 : strip (ln "PORTS=8080") = py "PORTS" ++ "="%char :: py "8080")
    by (vm_compute; reflexivity).
  assert (N1 : py "PORT" <> []) by (vm_compute; discriminate).
  assert (N3 : py "PORTS" <> []) by (vm_compute; discriminate).
  assert (K1 : forallb is_env_key (py "PORT") = true)
    by (vm_compute; reflexivity).
  assert (K3 : forallb is_env_key (py "PORTS") = true)
    by (vm_compute; reflexivity).
  assert (D1 : forallb is_dot (py "8080") = true) by (vm_compute; reflexivity).
  assert (D2 : forallb is_dot (py "xxxx") = true) by (vm_compute; reflexivity).
  split.
  - apply (proj2 (assignments_are_compared_by_key _ _ _ _ _ _
                    S1 S2 N1 N1 K1 K1 D1 D2)).
    reflexivity.
  - intros E.
    apply (proj1 (assignments_are_compared_by_key _ _ _ _ _ _
                    S1 S3 N1 N3 K1 K3 D1 D1)) in E.
    vm_compute in E. discriminate E.
Defined.

(** ** Trimming *)

Lemma lstrip_idem (s : pystr) : lstrip (lstrip s) = lstrip s.
Proof.
  induction s as [|c s IH]; [reflexivity|]. cbn [lstrip].
  destruct (is_space c) eqn:E; [exact IH|]. cbn [lstrip]. now rewrite E.
Qed.

Lemma rstrip_idem (s : pystr) : rstrip (rstrip s) = rstrip s.
Proof. unfold rstrip. now rewrite rev_involutive, lstrip_idem. Qed.

Lemma lstrip_shape (s : pystr) :
  lstrip s = [] \/ exists c r, lstrip s = c :: r /\ is_space c = false.
Proof.
  induction s as [|c s IH]; [now left|]. cbn [lstrip].
  destruct (is_space c) eqn:E; [exact IH|]. right. now exists c, s.
Qed.

Lemma lstrip_app_last (a : pystr) (c : ascii) :
  is_space c = false -> lstrip (a ++ [c]) = lstrip a ++ [c].
Proof.
  intros Hc. induction a as [|x a IH]; cbn [app lstrip].
  - now rewrite Hc.
  - destruct (is_space x); [exact IH|reflexivity].
Qed.

Lemma rstrip_cons (c : ascii) (r : pystr) :
  is_space c = false -> rstrip (c :: r) = c :: rstrip r.
Proof.
  intros Hc. unfold rstrip. cbn [rev].
  rewrite (lstrip_app_last (rev r) c Hc). now rewrite rev_unit.
Qed.

Lemma lstrip_strip (s : pystr) : lstrip (strip s) = strip s.
Proof.
  unfold strip. destruct (lstrip_shape s) as [E|[c [r [E Hc]]]]; rewrite E.
  - reflexivity.
  - rewrite (rstrip_cons c r Hc). now apply lstrip_head.
Qed.

(** Trimming twice is trimming once. *)
Lemma strip_idem (s : pystr) : strip (strip s) = strip s.
Proof.
  unfold strip at 1. rewrite lstrip_strip. unfold strip. apply rstrip_idem.
Qed.

Lemma lstrip_spaces_app (ws s : pystr) :
  forallb is_space ws = true -> lstrip (ws ++ s) = lstrip s.
Proof.
  induction ws as [|c ws IH]; [reflexivity|]. cbn [forallb app lstrip].
  intros H. apply andb_true_iff in H as [Hc Hws]. rewrite Hc. now apply IH.
Qed.

Lemma forallb_rev {A : Type} (p : A -> bool) (l : list A) :
  forallb p l = true -> forallb p (rev l) = true.
Proof.
  rewrite !forallb_forall. intros H x Hx. apply H. now apply in_rev.
Qed.

Lemma rstrip_app_spaces (s ws : pystr) :
  forallb is_space ws = true -> rstrip (s ++ ws) = rstrip s.
Proof.
  intros H. unfold rstrip. rewrite rev_app_distr.
  now rewrite (lstrip_spaces_app (rev ws) (rev s) (forallb_rev _ _ H)).
Qed.

Lemma lstrip_nil_spaces (s : pystr) :
  lstrip s = [] -> forallb is_space s = true.
Proof.
  induction s as [|c s IH]; [reflexivity|]. cbn [lstrip forallb].
  destruct (is_space c); [exact IH|discriminate].
Qed.

Lemma lstrip_app (s w : pystr) :
  lstrip s <> [] -> lstrip (s ++ w) = lstrip s ++ w.
Proof.
  induction s as [|c s IH]; [contradiction|]. cbn [app lstrip].
  destruct (is_space c); [exact IH|reflexivity].
Qed.

(** White space around a line is trimmed away. *)
Lemma strip_padded (ws1 line ws2 : pystr) :
  forallb is_space ws1 = true -> forallb is_space ws2 = true ->
  strip (ws1 ++ line ++ ws2) = strip line.
Proof.
  intros H1 H2. unfold strip. rewrite (lstrip_spaces_app ws1 _ H1).
  destruct (lstrip line) as [|c r] eqn:E.
  - apply lstrip_nil_spaces in E.
    rewrite (lstrip_spaces_app line ws2 E).
    destruct (lstrip_shape ws2) as [E2|[c [r [E2 Hc]]]].
    + now rewrite E2.
    + exfalso. assert (Hin : In c ws2).
      { clear -E2. induction ws2 as [|x ws2 IH]; [discriminate|].
        cbn [lstrip] in E2. destruct (is_space x).
        - right. now apply IH.
        - inversion E2. now left. }
      rewrite forallb_forall in H2. rewrite (H2 c Hin) in Hc. discriminate.
  - rewrite lstrip_app by (rewrite E; discriminate). rewrite E.
    now apply rstrip_app_spaces.
Qed.

(** ** Lines that no ignore pattern flags *)

(** A pattern without its group marks. *)
Fixpoint ungroup (re : regex) : regex :=
  match re with
  | [] => []
  | GOpen _ :: re' => ungroup re'
  | GClose _ :: re' => ungroup re'
  | a :: re' => a :: ungroup re'
  end.

Lemma star_greedy_none {A B : Type} (p : ascii -> bool) (rest : pystr)
    (k1 : nat -> pystr -> option A) (k2 : nat -> pystr -> option B) :
  (forall pos' rest', k1 pos' rest' = None -> k2 pos' rest' = None) ->
  forall pos, star_greedy p pos rest k1 = None ->
              star_greedy p pos rest k2 = None.
Proof.
  intros Hk. induction rest as [|c r IH]; intros pos; cbn [star_greedy].
  - apply Hk.
  - destruct (p c); [|apply Hk].
    destruct (star_greedy p (S pos) r k1) eqn:E1; [discriminate|].
    rewrite (IH _ E1). apply Hk.
Qed.

(** Group marks play no part in whether a pattern matches. *)
Lemma exec_ungroup_none (re : regex) :
  forall pos rest m m',
    exec (ungroup re) pos rest m = None -> exec re pos rest m' = None.
Proof.
  induction re as [|a re IH]; intros pos rest m m'; [discriminate|].
  destruct a; cbn [ungroup exec].
  - destruct rest as [|x r]; [reflexivity|].
    destruct (Ascii.eqb x c); [apply IH|reflexivity].
  - destruct rest as [|x r]; [reflexivity|].
    destruct (p x); [apply IH|reflexivity].
  - apply star_greedy_none. intros pos' rest'. apply IH.
  - destruct rest as [|x r]; [reflexivity|].
    destruct (p x); [|reflexivity].
    apply star_greedy_none. intros pos' rest'. apply IH.
  - destruct rest as [|x r]; [apply IH|].
    destruct (p x); [|apply IH].
    destruct (exec (ungroup re) (S pos) r m) eqn:E1; [discriminate|].
    rewrite (IH _ _ _ m' E1). apply IH.
  - destruct (pos =? 0); [apply IH|reflexivity].
  - destruct rest as [|x [|y r]]; [apply IH| |reflexivity].
    destruct (Ascii.eqb x LF); [apply IH|reflexivity].
  - apply IH.
  - apply IH.
Qed.

Lemma matched_none (re : regex) (s : pystr) :
  matched (re_match re s) = false -> exec re 0 s no_marks = None.
Proof.
  unfold re_match. now destruct (exec re 0 s no_marks) as [[m e]|].
Qed.

(** A substitution by an anchored pattern whose ungrouped form does not
    match at the start changes nothing. *)
Lemma re_sub_unmatched (re : regex) (repl : template) (s : pystr) :
  anchored re -> exec (ungroup re) 0 s no_marks = None ->
  re_sub re repl s = s.
Proof.
  intros Ha H. rewrite (re_sub_anchored re repl s Ha).
  now rewrite (exec_ungroup_none re 0 s no_marks no_marks H).
Qed.

Lemma anchored_env : anchored RE_ENV.
Proof. unfold RE_ENV. apply anchored_bol. Qed.

Lemma anchored_marker (marker : string) : anchored (RE_MARKER marker).
Proof. unfold RE_MARKER. cbn [app]. apply anchored_bol. Qed.

(** X6. A line whose trimmed form none of the ignore patterns matches, so
    that [is_value_line] is false on it, is only trimmed by
    [normalize_line]: every rewrite of the normalisation is guarded by one
    of the patterns of [IGNORE_PATTERNS].  On such a line normalising twice
    gives what normalising once gives. *)
Theorem unflagged_lines_are_only_trimmed (line : pystr) :
  is_value_line (strip line) = false ->
  normalize_line line = strip line /\
  normalize_line (normalize_line line) = normalize_line line.
Proof.
  assert (N : forall l, is_value_line (strip l) = false ->
                        normalize_line l = strip l).
  { clear line. intros line.
    unfold is_value_line, IGNORE_PATTERNS. cbn [is_value_line_in].
    set (s := strip line).
    destruct (matched (re_match
                [Bol; GOpen 1; Plus is_env_key; GClose 1; Lit "="; Star is_dot; Eol]
                s)) eqn:H1; [discriminate|].
    destruct (matched (re_match (IGNORE_MARKER "_SECRET=") s)) eqn:H2;
      [discriminate|].
    destruct (matched (re_match (IGNORE_MARKER "_KEY=") s)) eqn:H3;
      [discriminate|].
    destruct (matched (re_match (IGNORE_MARKER "_TOKEN=") s)) eqn:H4;
      [discriminate|].
    destruct (matched (re_match (IGNORE_MARKER "_PASSWORD=") s)) eqn:H5;
      [discriminate|].
    destruct (matched (re_match (IGNORE_FIELD_HEAD ++ [Lit QUOTE; Star not_quote; Lit QUOTE]) s))
      eqn:H6; [discriminate|].
    destruct (matched (re_match (IGNORE_FIELD_HEAD ++ [Plus is_digit]) s))
      eqn:H7; [discriminate|].
    destruct (matched (re_match
                [Bol; Star is_space; Lit "-"; Star is_space; Lit QUOTE;
                 Star not_quote; Lit "="; Star not_quote; Lit QUOTE; Eol]
                s)) eqn:H8; [discriminate|].
    intros _.
    apply matched_none in H1, H2, H3, H4, H5, H6, H7, H8.
    unfold normalize_line. cbv zeta. fold s.
    change (exec RE_ENV 0 s no_marks = None) in H1.
    rewrite (re_sub_anchored RE_ENV _ s anchored_env), H1.
    rewrite (re_sub_unmatched (RE_MARKER "_SECRET=") _ s (anchored_marker _) H2).
    rewrite (re_sub_unmatched (RE_MARKER "_KEY=") _ s (anchored_marker _) H3).
    rewrite (re_sub_unmatched (RE_MARKER "_TOKEN=") _ s (anchored_marker _) H4).
    rewrite (re_sub_unmatched (RE_MARKER "_PASSWORD=") _ s (anchored_marker _) H5).
    rewrite (re_sub_unmatched RE_FIELD_STR _ s (anchored_field _) H6).
    rewrite (re_sub_unmatched RE_FIELD_NUM _ s (anchored_field _) H7).
    exact (re_sub_unmatched RE_COMPOSE _ s anchored_compose H8).
  }
  intros H. split; [exact (N line H)|].
  rewrite (N line H). rewrite (N (strip line)); rewrite strip_idem;
    [reflexivity|exact H].
Qed.

Lemma unflagged_lines_are_only_trimmed_witness :
  normalize_line (ln "  services:  ") = py "services:".
Proof.
  assert (H : is_value_line (strip (ln "  services:  ")) = false)
    by (vm_compute; reflexivity).
  rewrite (proj1 (unflagged_lines_are_only_trimmed (ln "  services:  ") H)).
  vm_compute. reflexivity.
Defined.

(** ** White space around a line *)

(** X7. White space before and after a line plays no part: the line with
    and without it has the same normal form and is a content line or not
    alike, so indentation never makes a difference to the comparison. *)
Theorem surrounding_white_space_is_immaterial (ws1 line ws2 : pystr) :
  forallb is_space ws1 = true -> forallb is_space ws2 = true ->
  normalize_line (ws1 ++ line ++ ws2) = normalize_line line /\
  is_content (ws1 ++ line ++ ws2) = is_content line.
Proof.
  intros H1 H2. unfold normalize_line, is_content. cbv zeta.
  now rewrite (strip_padded ws1 line ws2 H1 H2).
Qed.

Lemma surrounding_white_space_is_immaterial_witness :
  normalize_line (py "    port: 8080  " ++ [LF]) =
  normalize_line (py "port: 8080") /\
  is_content (py "    port: 8080  " ++ [LF]) = is_content (py "port: 8080").
Proof.
  assert (H1 : forallb is_space (py "    ") = true)
    by (vm_compute; reflexivity).
  assert (H2 : forallb is_space (py "  " ++ [LF]) = true)
    by (vm_compute; reflexivity).
  exact (surrounding_white_space_is_immaterial
           (py "    ") (py "port: 8080") (py "  " ++ [LF]) H1 H2).
Defined.

(** ** The naming rules that end in a fixed suffix *)

(** The second and the third rule: a non-empty group, a literal suffix, the
    end of the subject. *)
Definition suffix_rule (L : pystr) : regex :=
  [Bol; GOpen 1; Plus is_dot; GClose 1] ++ map Lit L ++ [Eol].

(** Where [$] matches. *)
Definition at_end (r : pystr) : bool :=
  match r with
  | [] => true
  | [x] => Ascii.eqb x LF
  | _ => false
  end.

(** The suffix and then the end. *)
Definition tail_ok (L r : pystr) : bool :=
  startswith r L && at_end (skipn (length L) r).

(** What group 1 of a suffix rule holds, by the length of the group. *)
Definition derive_suffix (L t : pystr) : option pystr :=
  match t with
  | [] => None
  | x :: t' =>
      if is_dot x
      then first_down
             (fun n => if tail_ok L (skipn n t')
                       then Some (firstn (S n) t) else None)
             (span is_dot t')
      else None
  end.

Lemma first_down_map {A B : Type} (g : A -> B) (f : nat -> option A) (n : nat) :
  option_map g (first_down f n) = first_down (fun i => option_map g (f i)) n.
Proof.
  induction n as [|n IH]; cbn [first_down].
  - now destruct (f 0).
  - destruct (f (S n)); [reflexivity|exact IH].
Qed.

Lemma exec_suffix_tail (L : pystr) (pos : nat) (rest : pystr) (m : marks) :
  exec (GClose 1 :: map Lit L ++ [Eol]) pos rest m =
  if tail_ok L rest then Some (set_end 1 pos m, pos + length L) else None.
Proof.
  rewrite exec_GClose, exec_lits. unfold tail_ok.
  destruct (startswith rest L); [|reflexivity]. cbn [andb].
  destruct (skipn (length L) rest) as [|x [|y r]]; cbn [exec at_end];
    reflexivity.
Qed.

Lemma match_suffix_rule (L t : pystr) :
  option_map (fun mo => group mo 1) (re_match (suffix_rule L) t) =
  derive_suffix L t.
Proof.
  unfold re_match, suffix_rule, derive_suffix. cbn [app].
  rewrite exec_Bol, exec_GOpen.
  destruct t as [|x t']; [reflexivity|]. rewrite exec_Plus.
  destruct (is_dot x); [|reflexivity].
  rewrite star_greedy_first_down.
  set (F := fun n : nat => exec _ (1 + n) (skipn n t') _).
  transitivity (option_map
                  (fun r : marks * nat => group (Match (x :: t') (fst r) (snd r)) 1)
                  (first_down F (span is_dot t'))).
  { now destruct (first_down F (span is_dot t')) as [[m e]|]. }
  rewrite first_down_map. apply first_down_ext. intros i. unfold F.
  rewrite exec_suffix_tail.
  destruct (tail_ok L (skipn i t')); [|reflexivity].
  cbn [option_map fst snd]. f_equal.
Qed.

Lemma at_end_cases (r : pystr) : at_end r = true -> r = [] \/ r = [LF].
Proof.
  destruct r as [|x [|y r]]; cbn [at_end]; [now left| |discriminate].
  intros H. apply Ascii.eqb_eq in H. subst. now right.
Qed.

Lemma span_firstn (p : ascii -> bool) (n : nat) (s : pystr) :
  n <= span p s -> forallb p (firstn n s) = true.
Proof.
  revert n; induction s as [|c s IH]; intros n H.
  - now destruct n.
  - destruct n; [reflexivity|]. cbn [span] in H. cbn [firstn forallb].
    destruct (p c); [|lia]. apply IH. lia.
Qed.

Lemma skipn_add_app {A : Type} (a s : list A) (k : nat) :
  skipn (length a + k) (a ++ s) = skipn k s.
Proof. induction a as [|x a IH]; [reflexivity|exact IH]. Qed.

(** Whenever the third rule finds a group, the second finds that group
    followed by [.env]. *)
Lemma third_suffix_in_second (t g : pystr) :
  derive_suffix (py ".env.template") t = Some g ->
  derive_suffix (py ".template") t = Some (g ++ py ".env").
Proof.
  destruct t as [|x t']; [discriminate|]. cbn [derive_suffix].
  destruct (is_dot x); [|discriminate]. intros H.
  apply first_down_some in H as [n [Hn [Hf _]]].
  destruct (tail_ok (py ".env.template") (skipn n t')) eqn:T; [|discriminate].
  inversion Hf; subst g; clear Hf.
  unfold tail_ok in T. apply andb_true_iff in T as [Hs He].
  apply startswith_split in Hs. apply at_end_cases in He.
  remember (skipn (length (py ".env.template")) (skipn n t')) as e eqn:De.
  remember (firstn n t') as a eqn:Da.
  assert (La : length a = n).
  { rewrite Da. apply firstn_length_le.
    pose proof (span_le is_dot t'). lia. }
  assert (Ha : forallb is_dot a = true).
  { rewrite Da. now apply span_firstn. }
  assert (Ht : t' = a ++ py ".env.template" ++ e).
  { rewrite <- Hs, Da. symmetry. apply firstn_skipn. }
  clear Da De Hs Hn. subst n t'.
  assert (Hspan : span is_dot (a ++ py ".env.template" ++ e) = length a + 13).
  { rewrite (span_all is_dot a _ Ha). f_equal.
    destruct He as [->| ->]; reflexivity. }
  rewrite Hspan.
  apply first_down_pick with (i := length a + 4); [lia| |].
  - rewrite skipn_add_app.
    replace (tail_ok (py ".template") (skipn 4 (py ".env.template" ++ e)))
      with true by (destruct He as [->| ->]; reflexivity).
    f_equal. cbn [firstn]. f_equal.
    rewrite firstn_app_2. reflexivity.
  - intros j Hj.
    assert (Hk : exists k, j = length a + k /\ 5 <= k <= 13)
      by (exists (j - length a); lia).
    destruct Hk as [k [-> Hk]]. rewrite skipn_add_app.
    do 14 (destruct k as [|k];
           [first [exfalso; lia | destruct He as [->| ->]; reflexivity]|]).
    exfalso; lia.
Qed.

Lemma derive2_suffix (t : pystr) :
  derive2 t = derive_suffix (py ".template") t.
Proof.
  rewrite <- match_suffix_rule. unfold derive2.
  change RE_RULE2 with (suffix_rule (py ".template")).
  now destruct (re_match (suffix_rule (py ".template")) t).
Qed.

Lemma derive3_suffix (t : pystr) :
  derive3 t =
  option_map (fun g => g ++ py ".env") (derive_suffix (py ".env.template") t).
Proof.
  rewrite <- match_suffix_rule. unfold derive3.
  change RE_RULE3 with (suffix_rule (py ".env.template")).
  now destruct (re_match (suffix_rule (py ".env.template")) t).
Qed.

Lemma derive3_in_derive2 (t p : pystr) :
  derive3 t = Some p -> derive2 t = Some p.
Proof.
  rewrite derive3_suffix, derive2_suffix.
  destruct (derive_suffix (py ".env.template") t) as [g|] eqn:E;
    [|discriminate].
  cbn [option_map]. intros H; inversion H; subst p.
  now apply third_suffix_in_second.
Qed.

(** X8. The third naming rule adds nothing: whenever it matches a template
    path, the second rule matches too and derives the same parent path, so
    the candidate is decided by the first two rules alone. *)
Theorem third_rule_is_redundant (t : pystr) :
  (forall p, derive3 t = Some p -> derive2 t = Some p) /\
  (forall fs, candidate fs t = first_existing fs [derive1 t; derive2 t]).
Proof.
  split; [apply derive3_in_derive2|].
  intros fs. rewrite candidate_first_existing.
  destruct (derive3 t) as [p|] eqn:E3.
  - rewrite (derive3_in_derive2 t p E3). cbn [first_existing].
    destruct (derive1 t) as [q|].
    + destruct (os_path_exists fs q); [reflexivity|].
      now destruct (os_path_exists fs p).
    + now destruct (os_path_exists fs p).
  - cbn [first_existing]. destruct (derive1 t) as [q|].
    + destruct (os_path_exists fs q); [reflexivity|].
      destruct (derive2 t) as [r|]; [|reflexivity].
      now destruct (os_path_exists fs r).
    + destruct (derive2 t) as [r|]; [|reflexivity].
      now destruct (os_path_exists fs r).
Qed.

Lemma third_rule_is_redundant_witness :
  derive3 (py "app.env.template") = Some (py "app.env") /\
  derive2 (py "app.env.template") = Some (py "app.env").
Proof.
  assert (H : derive3 (py "app.env.template") = Some (py "app.env"))
    by (vm_compute; reflexivity).
  split; [exact H|].
  exact (proj1 (third_rule_is_redundant (py "app.env.template")) _ H).
Defined.

(** ** A whole run *)

Lemma dict_set_length {V : Type} (d : dict V) (k : pystr) (v : V) :
  length (dict_set d k v) <= S (length d).
Proof.
  induction d as [|[q w] d IH]; cbn [dict_set length]; [lia|].
  destruct (str_eqb q k); cbn [length]; lia.
Qed.

Lemma fold_dict_length {V A : Type} (step : dict V -> A -> dict V)
    (l : list A) (d : dict V) :
  (forall d x, length (step d x) <= S (length d)) ->
  length (fold_left step l d) <= length d + length l.
Proof.
  intros Hs. revert d; induction l as [|x l IH]; intros d; cbn [fold_left length].
  - lia.
  - specialize (IH (step d x)). specialize (Hs d x). lia.
Qed.

Lemma map_template_length fs (d : dict pystr) (t : pystr) :
  length (map_template fs d t) <= S (length d).
Proof.
  unfold map_template. destruct (resolve fs t); [apply dict_set_length|lia].
Qed.

Lemma record_pair_length fs self (d : dict (list pystr)) (tp : pystr * pystr) :
  length (record_pair fs self d tp) <= S (length d).
Proof.
  unfold record_pair.
  destruct (fst (find_missing_lines fs self (fst tp) (snd tp)));
    [lia|apply dict_set_length].
Qed.

Lemma generate_report_some timestamp self :
  recorded_ok self (differences self) ->
  exists report, generate_report timestamp self = Some report.
Proof.
  intros Hok. unfold generate_report.
  destruct (differences self) as [|tm d] eqn:E; [eexists; reflexivity|].
  rewrite (report_sections_listing self (tm :: d) _ Hok).
  eexists; reflexivity.
Qed.

Lemma run_value fs excl timestamp self :
  fst (run fs excl timestamp self) =
  let self1 := fst (find_template_files fs excl self) in
  let self2 := fst (find_parent_files fs self1) in
  let self3 := fst (analyze_all_files fs self2) in
  (self3, generate_report timestamp self3).
Proof. unfold run. now rewrite !fst_bind. Qed.

(** X9. A run always ends with a report - the lookup of a parent in
    [generate_report] cannot fail after the three passes - and the three
    counts of its head are ordered: files with missing content, at most
    parent files matched, at most template files found. *)
Theorem run_reports_ordered_counts fs excl timestamp self :
  let result := fst (run fs excl timestamp self) in
  (exists report, snd result = Some report) /\
  length (differences (fst result)) <= length (parent_files (fst result)) /\
  length (parent_files (fst result)) <= length (template_files (fst result)).
Proof.
  cbv zeta. rewrite run_value. cbv zeta. cbn [fst snd].
  set (self1 := fst (find_template_files fs excl self)).
  split; [apply generate_report_some, analyzed_ok|].
  rewrite analyze_all_files_value, find_parent_files_value.
  unfold set_differences, set_parent_files.
  cbn [differences parent_files template_files].
  split.
  - pose proof (fold_dict_length (record_pair fs
        (Checker (base_dir self1) (verbose self1) (template_files self1)
           (fold_left (map_template fs) (template_files self1) [])
           (differences self1)))
        (fold_left (map_template fs) (template_files self1) []) []
        (record_pair_length fs _)) as H.
    cbn [length] in H. exact H.
  - pose proof (fold_dict_length (map_template fs) (template_files self1) []
                  (map_template_length fs)) as H.
    cbn [length] in H. exact H.
Qed.

(** ** Where the report is saved *)

Lemma contains_char_app (c : ascii) (a b : pystr) :
  contains_char c (a ++ b) = contains_char c a || contains_char c b.
Proof. apply existsb_app. Qed.

Lemma rfind1_absent (c : ascii) (s : pystr) :
  contains_char c s = false -> rfind1 c s = 0.
Proof.
  induction s as [|x s IH]; [reflexivity|].
  unfold contains_char. cbn [existsb rfind1]. intros H.
  apply orb_false_iff in H as [Hx Hs]. rewrite (IH Hs).
  now rewrite Ascii.eqb_sym, Hx.
Qed.

Lemma rfind1_last (c : ascii) (pre post : pystr) :
  contains_char c post = false ->
  rfind1 c (pre ++ c :: post) = S (length pre).
Proof.
  intros H. induction pre as [|x pre IH]; cbn [app rfind1 length].
  - now rewrite (rfind1_absent c post H), Ascii.eqb_refl.
  - now rewrite IH.
Qed.

(** The last occurrence of a character. *)
Lemma contains_char_split (c : ascii) (s : pystr) :
  contains_char c s = true ->
  exists pre post, s = pre ++ c :: post /\ contains_char c post = false.
Proof.
  induction s as [|x s IH]; [discriminate|].
  destruct (contains_char c s) eqn:E.
  - intros _. destruct (IH eq_refl) as [pre [post [-> Hp]]].
    now exists (x :: pre), post.
  - unfold contains_char in *. cbn [existsb]. rewrite E, orb_false_r.
    intros H. apply Ascii.eqb_eq in H. subst x. now exists [], s.
Qed.



(** A path without a slash has no directory part. *)
Lemma dirname_bare (p : pystr) :
  contains_char "/" p = false -> os_path_dirname p = [].
Proof.
  intros H. unfold os_path_dirname. now rewrite (rfind1_absent "/" p H).
Qed.





Lemma startswith_chars (c : ascii) (s p : pystr) :
  startswith s p = true -> contains_char c p = true ->
  contains_char c s = true.
Proof.
  intros H Hc. rewrite (startswith_split s p H), contains_char_app, Hc.
  reflexivity.
Qed.

(** A text holds every character of a text it contains. *)
Lemma contains_chars (c : ascii) (s sub : pystr) :
  contains s sub = true -> contains_char c sub = true ->
  contains_char c s = true.
Proof.
  intros H Hc. induction s as [|x s IH]; cbn [contains] in H.
  - rewrite orb_false_r in H. exact (startswith_chars c [] sub H Hc).
  - apply orb_true_iff in H as [H|H].
    + exact (startswith_chars c (x :: s) sub H Hc).
    + unfold contains_char in *. cbn [existsb]. rewrite (IH H).
      apply orb_true_r.
Qed.

Lemma splitext_join (p : pystr) :
  fst (os_path_splitext p) ++ snd (os_path_splitext p) = p.
Proof.
  unfold os_path_splitext.
  destruct (_ && _); cbn [fst snd]; [apply firstn_skipn|apply app_nil_r].
Qed.

Lemma splitext_nodot (p : pystr) :
  contains_char "." p = false -> os_path_splitext p = (p, []).
Proof.
  intros H. unfold os_path_splitext. rewrite (rfind1_absent "." p H).
  replace (rfind1 "/" p <? 0) with false; [reflexivity|].
  symmetry. apply Nat.ltb_ge. lia.
Qed.

(** The name under which a bare [--output] is saved. *)
Definition saved_name (timestamp output : pystr) : pystr :=
  let base_name := fst (os_path_splitext output) in
  let ext := snd (os_path_splitext output) in
  if contains_char "_" base_name then output
  else base_name ++ py "_" ++ timestamp ++
       (if nonempty ext then ext else py ".md").

Lemma save_bare (reports_dir timestamp output report : pystr) :
  output <> [] ->
  contains_char "/" output = false ->
  contains_char "_" timestamp = true ->
  save_or_print reports_dir timestamp (Some output) report =
  let output_path := os_path_join reports_dir (saved_name timestamp output) in
  [ Makedirs reports_dir;
    Makedirs (os_path_dirname output_path);
    WriteFile output_path report;
    Printed (LF :: py "Report saved to " ++ output_path) ].
Proof.
  intros Hne Hbare Hstamp. destruct output as [|c output]; [contradiction|].
  unfold save_or_print, saved_name. rewrite (dirname_bare _ Hbare).
  cbn [nonempty negb].
  destruct (os_path_splitext (c :: output)) as [b e]. cbn [fst snd].
  destruct (contains_char "_" b) eqn:Eb; cbn [negb andb]; [reflexivity|].
  destruct (contains b timestamp) eqn:Ec.
  - rewrite (contains_chars "_" b timestamp Ec Hstamp) in Eb. discriminate.
  - cbn [negb app]. now destruct e.
Qed.

(** X11. A bare [--output] name, one without a directory, is saved under
    the reports directory, and its name is decided by one test: when the
    part before the extension holds an underscore the name is kept as given
    - also without extension, the default [.md] being added only together
    with the time stamp; otherwise the time stamp is put between that part
    and the extension, [.md] when there is none.  The time stamp holds an
    underscore, so the second test of the script, whether the name holds
    the time stamp already, never decides. *)
Theorem bare_output_name_rule (reports_dir timestamp output report : pystr) :
  output <> [] ->
  contains_char "/" output = false ->
  contains_char "_" timestamp = true ->
  written (save_or_print reports_dir timestamp (Some output) report) =
    [(os_path_join reports_dir (saved_name timestamp output), report)] /\
  (contains_char "." output = false ->
   saved_name timestamp output =
     if contains_char "_" output then output
     else output ++ py "_" ++ timestamp ++ py ".md").
Proof.
  intros Hne Hbare Hstamp. split.
  - now rewrite (save_bare reports_dir timestamp output report Hne Hbare Hstamp).
  - intros Hdot. unfold saved_name. rewrite (splitext_nodot output Hdot).
    reflexivity.
Qed.

Lemma bare_output_name_rule_witness :
  written (save_or_print (py "/opt/reports") (py "20240101_120000")
             (Some (py "my_report")) (py "# Report")) =
    [(py "/opt/reports/my_report", py "# Report")] /\
  saved_name (py "20240101_120000") (py "report") =
    py "report_20240101_120000.md".
Proof.
  assert (N1 : py "my_report" <> []) by (vm_compute; discriminate).
  assert (N2 : py "report" <> []) by (vm_compute; discriminate).
  assert (B1 : contains_char "/" (py "my_report") = false)
    by (vm_compute; reflexivity).
  assert (B2 : contains_char "/" (py "report") = false)
    by (vm_compute; reflexivity).
  assert (S : contains_char "_" (py "20240101_120000") = true)
    by (vm_compute; reflexivity).
  assert (D : contains_char "." (py "report") = false)
    by (vm_compute; reflexivity).
  split.
  - destruct (bare_output_name_rule (py "/opt/reports") (py "20240101_120000")
                (py "my_report") (py "# Report") N1 B1 S) as [H _].
    rewrite H. vm_compute. reflexivity.
  - destruct (bare_output_name_rule (py "/opt/reports") (py "20240101_120000")
                (py "report") (py "# Report") N2 B2 S) as [_ H].
    rewrite (H D). vm_compute. reflexivity.
Defined.

(** The default reports directory ends in [reports], whatever the script
    directory. *)
Lemma reports_dir_shape (script_dir : pystr) :
  exists r, REPORTS_DIR script_dir = r ++ ["s"%char].
Proof.
  unfold REPORTS_DIR, os_path_join. cbn [startswith py].
  change (startswith (py "reports") (py "/")) with false. cbv iota.
  destruct (rev script_dir) as [|c r].
  - now exists (py "report").
  - destruct (Ascii.eqb c "/").
    + exists (script_dir ++ py "report"). now rewrite <- app_assoc.
    + exists (script_dir ++ py "/report"). now rewrite <- !app_assoc.
Qed.

Lemma startswith_slash (name : pystr) :
  contains_char "/" name = false -> startswith name (py "/") = false.
Proof.
  destruct name as [|x name]; [reflexivity|].
  unfold contains_char. cbn [existsb]. intros H.
  apply orb_false_iff in H as [H _].
  change (startswith (x :: name) (py "/"))
    with (Ascii.eqb "/" x && startswith name []).
  now rewrite H.
Qed.

(** A name without slash joined to a directory that does not end in one. *)
Lemma join_child (r : pystr) (c : ascii) (name : pystr) :
  Ascii.eqb c "/" = false -> contains_char "/" name = false ->
  os_path_join (r ++ [c]) name = (r ++ [c]) ++ "/"%char :: name.
Proof.
  intros Hc Hn. unfold os_path_join. rewrite (startswith_slash name Hn).
  rewrite rev_unit. now rewrite Hc.
Qed.

Lemma dirname_child (r : pystr) (c : ascii) (name : pystr) :
  Ascii.eqb c "/" = false -> contains_char "/" name = false ->
  os_path_dirname ((r ++ [c]) ++ "/"%char :: name) = r ++ [c].
Proof.
  intros Hc Hn. unfold os_path_dirname.
  rewrite (rfind1_last "/" (r ++ [c]) name Hn).
  replace (firstn (S (length (r ++ [c]))) ((r ++ [c]) ++ "/"%char :: name))
    with ((r ++ [c]) ++ ["/"%char]).
  2:{ replace ((r ++ [c]) ++ "/"%char :: name)
        with (((r ++ [c]) ++ ["/"%char]) ++ name)
        by (now rewrite <- app_assoc).
      replace (S (length (r ++ [c]))) with (length ((r ++ [c]) ++ ["/"%char]))
        by (rewrite (length_app (r ++ [c])); cbn [length]; lia).
      now rewrite firstn_length_app. }
  assert (Hall : forallb (Ascii.eqb "/") ((r ++ [c]) ++ ["/"%char]) = false).
  { rewrite !forallb_app. cbn [forallb].
    rewrite (Ascii.eqb_sym "/" c), Hc. cbn [andb].
    now rewrite andb_false_r. }
  rewrite Hall. replace (nonempty ((r ++ [c]) ++ ["/"%char])) with true
    by (now destruct r).
  cbn [andb negb]. unfold rstrip_char.
  rewrite rev_unit, rev_unit. cbn [drop_while].
  rewrite Ascii.eqb_refl, (Ascii.eqb_sym "/" c), Hc.
  change (rev (c :: rev r)) with (rev (rev r) ++ [c]).
  now rewrite rev_involutive.
Qed.

Lemma saved_name_bare (timestamp output : pystr) :
  contains_char "/" output = false -> contains_char "/" timestamp = false ->
  contains_char "/" (saved_name timestamp output) = false.
Proof.
  intros Ho Ht. unfold saved_name.
  destruct (contains_char "_" (fst (os_path_splitext output))); [exact Ho|].
  rewrite <- (splitext_join output), contains_char_app in Ho.
  apply orb_false_iff in Ho as [Hb He].
  rewrite !contains_char_app, Hb, Ht.
  destruct (snd (os_path_splitext output)); [reflexivity|].
  cbn [nonempty]. now rewrite He.
Qed.

(** X12. With the default reports directory, a bare [--output] name is
    always written as a direct child of that directory: the directory the
    script creates for the file is the reports directory itself, created a
    second time, and never the empty path.  The run writes and announces
    the file when [makedirs] and [open] return, and ends with their
    exception otherwise, nothing written. *)
Theorem bare_output_is_saved_in_reports_dir
    (script_dir timestamp output report : pystr) :
  output <> [] ->
  contains_char "/" output = false ->
  contains_char "_" timestamp = true ->
  contains_char "/" timestamp = false ->
  let reports_dir := REPORTS_DIR script_dir in
  let output_path := reports_dir ++ "/"%char :: saved_name timestamp output in
  save_or_print reports_dir timestamp (Some output) report =
  [ Makedirs reports_dir;
    Makedirs reports_dir;
    WriteFile output_path report;
    Printed (LF :: py "Report saved to " ++ output_path) ] /\
  os_path_dirname output_path = reports_dir /\
  reports_dir <> [] /\
  forall os,
    main_end os reports_dir timestamp (Some output) report =
    match makedirs_raises os reports_dir with
    | Some e => ([], Some e)
    | None =>
        match open_raises os output_path with
        | Some e => ([Makedirs reports_dir; Makedirs reports_dir], Some e)
        | None =>
            ([ Makedirs reports_dir;
               Makedirs reports_dir;
               WriteFile output_path report;
               Printed (LF :: py "Report saved to " ++ output_path) ], None)
        end
    end.
Proof.
  intros Hne Hbare Hstamp Hts. cbv zeta. unfold main_end.
  rewrite (save_bare _ timestamp output report Hne Hbare Hstamp). cbv zeta.
  destruct (reports_dir_shape script_dir) as [r ->].
  pose proof (saved_name_bare timestamp output Hbare Hts) as Hn.
  rewrite (join_child r "s" _ eq_refl Hn).
  rewrite (dirname_child r "s" _ eq_refl Hn).
  split; [reflexivity|]. split; [reflexivity|]. split; [now destruct r|].
  intros os. cbn [perform].
  destruct (makedirs_raises os (r ++ ["s"%char])); [reflexivity|].
  now destruct (open_raises os _).
Qed.

Lemma bare_output_is_saved_in_reports_dir_witness :
  save_or_print (REPORTS_DIR (py "/opt/checker")) (py "20240101_120000")
    (Some (py "report.txt")) (py "# Report") =
  [ Makedirs (py "/opt/checker/reports");
    Makedirs (py "/opt/checker/reports");
    WriteFile (py "/opt/checker/reports/report_20240101_120000.txt")
      (py "# Report");
    Printed (LF :: py "Report saved to " ++
             py "/opt/checker/reports/report_20240101_120000.txt") ].
Proof.
  assert (N : py "report.txt" <> []) by (vm_compute; discriminate).
  assert (B : contains_char "/" (py "report.txt") = false)
    by (vm_compute; reflexivity).
  assert (S : contains_char "_" (py "20240101_120000") = true)
    by (vm_compute; reflexivity).
  assert (T : contains_char "/" (py "20240101_120000") = false)
    by (vm_compute; reflexivity).
  destruct (bare_output_is_saved_in_reports_dir (py "/opt/checker")
              (py "20240101_120000") (py "report.txt") (py "# Report")
              N B S T) as [H _].
  rewrite H. vm_compute. reflexivity.
Defined.

(** ** Additional exclusion patterns *)

Lemma is_excluded_file_app (excl extra : list pystr) (path : pystr) :
  is_excluded_file (excl ++ extra) path =
  is_excluded_file excl path || is_excluded_file extra path.
Proof.
  induction excl as [|p excl IH]; cbn [app is_excluded_file]; [reflexivity|].
  now destruct (Glob.fnmatch path p).
Qed.

Lemma filter_flat_map {A B : Type} (f : B -> bool) (g : A -> list B)
    (l : list A) :
  filter f (flat_map g l) = flat_map (fun x => filter f (g x)) l.
Proof.
  induction l as [|x l IH]; cbn [flat_map]; [reflexivity|].
  now rewrite filter_app, IH.
Qed.

Lemma kept_app (excl extra : list pystr) (root filename : pystr) :
  kept (excl ++ extra) root filename =
  filter (fun p => negb (is_excluded_file extra p)) (kept excl root filename).
Proof.
  unfold kept. rewrite is_excluded_file_app.
  destruct (is_excluded_file excl (root ++ filename)); [reflexivity|].
  cbn [orb filter].
  now destruct (is_excluded_file extra (root ++ filename)).
Qed.

Lemma discovered_app (fs : filesystem) (excl extra : list pystr) :
  discovered fs (excl ++ extra) =
  filter (fun p => negb (is_excluded_file extra p)) (discovered fs excl).
Proof.
  unfold discovered. rewrite filter_flat_map.
  apply flat_map_ext. intros [root files]. rewrite filter_flat_map.
  apply flat_map_ext. intros pattern. rewrite filter_flat_map.
  apply flat_map_ext. intros filename. apply kept_app.
Qed.

Lemma run_template_files fs excl timestamp self :
  template_files (fst (fst (run fs excl timestamp self))) = discovered fs excl.
Proof.
  rewrite run_value. cbv zeta. cbn [fst].
  rewrite analyze_all_files_value, find_parent_files_value.
  unfold set_differences, set_parent_files. cbn [template_files].
  apply find_template_files_value.
Qed.

(** X13. Patterns given with [--exclude] only remove templates, and remove
    exactly the paths they match: the templates a call of [main] finds with
    extra patterns are those it finds without them, in the same order and
    with the same repetitions, less the paths that an extra pattern
    matches. *)
Theorem extra_exclusions_filter_the_discovery
    fs timestamp dir v (extra globals : list pystr) :
  template_files
    (fst (fst (snd (main fs timestamp (Args dir v (Some extra)) globals)))) =
  filter (fun p => negb (is_excluded_file extra p))
    (template_files
       (fst (fst (snd (main fs timestamp (Args dir v None) globals))))).
Proof.
  unfold main. cbn [arg_exclude arg_dir arg_verbose snd].
  rewrite !run_template_files.
  destruct extra as [|p extra].
  - cbn [is_excluded_file negb]. symmetry. apply filter_all.
    now apply forallb_forall.
  - rewrite fold_left_append. apply discovered_app.
Qed.

(** ** More lines in the template *)

Lemma filter_stronger {A : Type} (P Q : A -> bool) (l : list A) :
  (forall x, P x = true -> Q x = true) ->
  filter P l = filter P (filter Q l).
Proof.
  intros H. induction l as [|x l IH]; cbn [filter]; [reflexivity|].
  destruct (P x) eqn:E.
  - rewrite (H x E). cbn [filter]. now rewrite E, IH.
  - destruct (Q x); [|exact IH]. cbn [filter]. now rewrite E.
Qed.

Lemma normalized_lines_app (a b : list pystr) :
  normalized_lines (a ++ b) = normalized_lines a ++ normalized_lines b.
Proof. unfold normalized_lines. now rewrite filter_app, map_app. Qed.

Lemma mem_app (n : pystr) (a b : list pystr) :
  mem n (a ++ b) = mem n a || mem n b.
Proof. apply existsb_app. Qed.

(** X14. Lines added to a template never add a report: what the comparison
    reports against the longer template it reports against the shorter one,
    and it reports no more lines. *)
Theorem more_template_lines_report_less (tl extra pl : list pystr) :
  incl (compare_lines (tl ++ extra) pl) (compare_lines tl pl) /\
  length (compare_lines (tl ++ extra) pl) <= length (compare_lines tl pl).
Proof.
  rewrite !compare_lines_indices. unfold flagged_indices.
  set (P := fun il : nat * pystr =>
              negb (mem (snd il) (normalized_lines (tl ++ extra)))).
  set (Q := fun il : nat * pystr => negb (mem (snd il) (normalized_lines tl))).
  assert (H : forall il, P il = true -> Q il = true).
  { intros il. unfold P, Q. rewrite normalized_lines_app, mem_app.
    now destruct (mem (snd il) (normalized_lines tl)). }
  rewrite (filter_stronger P Q _ H). split.
  - intros x Hx. apply in_map_iff in Hx as [i [<- Hi]].
    apply in_map_iff in Hi as [il [<- Hil]]. apply filter_In in Hil as [Hil _].
    apply (in_map (fun i => rstrip (nth i pl []))). now apply (in_map fst).
  - rewrite !length_map. apply filter_length_le.
Qed.

(** ** The verbose flag *)

Lemma find_missing_lines_frame fs self self' t p :
  fst (find_missing_lines fs self t p) = fst (find_missing_lines fs self' t p).
Proof.
  unfold find_missing_lines.
  destruct (negb (os_path_isfile fs t)); [reflexivity|].
  destruct (negb (os_path_isfile fs p)); [reflexivity|].
  destruct (readlines fs t); [|reflexivity].
  now destruct (readlines fs p).
Qed.

Lemma fold_record_pair_frame fs self self' (l : list (pystr * pystr))
    (d : dict (list pystr)) :
  fold_left (record_pair fs self) l d = fold_left (record_pair fs self') l d.
Proof.
  revert d; induction l as [|tp l IH]; intros d; [reflexivity|].
  cbn [fold_left]. rewrite IH. f_equal. unfold record_pair.
  now rewrite (find_missing_lines_frame fs self self').
Qed.

Lemma report_sections_frame b v v' t p d (l : dict (list pystr))
    (acc : list pystr) :
  report_sections (Checker b v t p d) l acc =
  report_sections (Checker b v' t p d) l acc.
Proof.
  revert acc; induction l as [|[k ml] l IH]; intros acc; [reflexivity|].
  cbn [report_sections]. unfold report_section. cbn [parent_files].
  destruct (dict_get p k); [apply IH|reflexivity].
Qed.

(** X15. The verbose flag only changes what is printed: with and without it
    a run finds the same templates, matches the same parents, records the
    same missing lines and returns the same report. *)
Theorem verbosity_only_changes_printing fs excl timestamp cwd dir :
  let quiet := fst (run fs excl timestamp (init cwd dir false)) in
  let loud := fst (run fs excl timestamp (init cwd dir true)) in
  template_files (fst loud) = template_files (fst quiet) /\
  parent_files (fst loud) = parent_files (fst quiet) /\
  differences (fst loud) = differences (fst quiet) /\
  snd loud = snd quiet.
Proof.
  cbv zeta. rewrite !run_value. cbv zeta. cbn [fst snd].
  rewrite !analyze_all_files_value, !find_parent_files_value.
  unfold set_differences, set_parent_files.
  cbn [template_files parent_files differences base_dir verbose].
  rewrite !find_template_files_value.
  assert (B : forall v,
            base_dir (fst (find_template_files fs excl (init cwd dir v))) =
            os_path_abspath cwd dir).
  { intros v. unfold find_template_files. now rewrite !fst_bind. }
  assert (D : forall v,
            differences (fst (find_template_files fs excl (init cwd dir v))) = []).
  { intros v. unfold find_template_files. now rewrite !fst_bind. }
  rewrite !B, !D.
  set (pf := fold_left (map_template fs) (discovered fs excl) []).
  set (loud := Checker (os_path_abspath cwd dir) _ (discovered fs excl) pf []).
  set (quiet := Checker (os_path_abspath cwd dir) _ (discovered fs excl) pf []).
  rewrite (fold_record_pair_frame fs loud quiet pf []).
  split; [reflexivity|]. split; [reflexivity|]. split; [reflexivity|].
  unfold generate_report, report_head.
  cbn [differences base_dir template_files parent_files].
  destruct (fold_left (record_pair fs quiet) pf []) as [|tm d]; [reflexivity|].
  now rewrite (report_sections_frame (os_path_abspath cwd dir)
                 (verbose (fst (find_template_files fs excl (init cwd dir true))))
                 (verbose (fst (find_template_files fs excl (init cwd dir false))))).
Qed.

(** ** A parent is shorter than its template *)

Lemma first_existing_in fs (l : list (option pystr)) (p : pystr) :
  first_existing fs l = Some p -> In (Some p) l.
Proof.
  induction l as [|[q|] l IH]; cbn [first_existing]; [discriminate| |].
  - destruct (os_path_exists fs q).
    + intros H; inversion H; subst. now left.
    + intros H. right. now apply IH.
  - intros H. right. now apply IH.
Qed.

Lemma startswith_length (s p : pystr) :
  startswith s p = true -> length s = length p + length (skipn (length p) s).
Proof.
  intros H. rewrite (startswith_split s p H) at 1. apply length_app.
Qed.

Lemma derive_suffix_length (L t g : pystr) :
  derive_suffix L t = Some g -> length g + length L <= length t.
Proof.
  destruct t as [|x t']; [discriminate|]. cbn [derive_suffix].
  destruct (is_dot x); [|discriminate]. intros H.
  apply first_down_some in H as [n [Hn [Hf _]]].
  destruct (tail_ok L (skipn n t')) eqn:T; [|discriminate].
  inversion Hf; subst g; clear Hf.
  unfold tail_ok in T. apply andb_true_iff in T as [Hs _].
  apply startswith_length in Hs. rewrite length_skipn in Hs.
  pose proof (firstn_le_length n t') as Hg.
  pose proof (span_le is_dot t') as Hsp.
  cbn [length]. lia.
Qed.

Lemma derive1_length (t p : pystr) :
  derive1 t = Some p -> length p + 9 <= length t.
Proof.
  unfold derive1, re_match.
  destruct (exec RE_RULE1 0 t no_marks) as [[m e]|] eqn:E; [|discriminate].
  intros H; inversion H; subst p; clear H.
  unfold RE_RULE1, lits in E. cbn [app] in E.
  rewrite exec_Bol, exec_GOpen in E.
  destruct t as [|x t']; [discriminate|]. rewrite exec_Plus in E.
  destruct (is_dot x); [|discriminate].
  rewrite star_greedy_first_down in E.
  apply first_down_some in E as [n [Hn [E _]]].
  rewrite exec_GClose, exec_lits in E.
  destruct (startswith (skipn n t') (py ".template")) eqn:Hs; [|discriminate].
  apply startswith_length in Hs.
  rewrite exec_GOpen in E.
  destruct (skipn (length (py ".template")) (skipn n t')) as [|d r3] eqn:R;
    [discriminate|].
  rewrite exec_Lit in E. destruct (Ascii.eqb d "."); [|discriminate].
  destruct r3 as [|y r4]; [discriminate|]. rewrite exec_Plus in E.
  rewrite length_skipn in Hs.
  pose proof (span_le is_dot t') as Hsp.
  destruct (is_dot y); [|discriminate].
  rewrite star_greedy_first_down in E.
  apply first_down_some in E as [k [Hk [E _]]].
  pose proof (span_le is_dot r4) as Hr4.
  rewrite exec_GClose in E.
  assert (Hm : m = set_end 2 (S (S (1 + n + length (py ".template"))) + k)
                 (set_start 2 (1 + n + length (py ".template"))
                    (set_end 1 (1 + n) (set_start 1 0 no_marks)))).
  { destruct (skipn k r4) as [|z [|w r]]; cbn [exec] in E;
      [now inversion E| |discriminate].
    destruct (Ascii.eqb z LF); [now inversion E|discriminate]. }
  subst m. unfold group, slice.
  cbn [found subject starts ends set_end set_start no_marks assoc Nat.eqb].
  rewrite length_app.
  pose proof (firstn_le_length (1 + n - 0) (skipn 0 (x :: t'))) as G1.
  pose proof (firstn_le_length
                (S (S (1 + n + length (py ".template"))) + k -
                 (1 + n + length (py ".template")))
                (skipn (1 + n + length (py ".template")) (x :: t'))) as G2.
  change (length (py ".template")) with 9 in *.
  cbn [length] in *. lia.
Qed.

Lemma candidate_length fs (t p : pystr) :
  candidate fs t = Some p -> length p + 9 <= length t.
Proof.
  rewrite candidate_first_existing. intros H.
  apply first_existing_in in H as [H|[H|[H|[]]]].
  - now apply derive1_length.
  - rewrite derive2_suffix in H. apply derive_suffix_length in H.
    change (length (py ".template")) with 9 in H. exact H.
  - rewrite derive3_suffix in H.
    destruct (derive_suffix (py ".env.template") t) as [g|] eqn:E;
      [|discriminate].
    cbn [option_map] in H. inversion H; subst p.
    apply derive_suffix_length in E. rewrite length_app.
    change (length (py ".env.template")) with 13 in E.
    cbn [length]. lia.
Qed.

(** X16. A parent path is at least nine characters shorter than the path of
    its template - the length of [.template] - so no template is ever
    matched with itself. *)
Theorem parent_is_shorter_than_template fs self (t p : pystr) :
  dict_get (parent_files (fst (find_parent_files fs self))) t = Some p ->
  length p + 9 <= length t /\ p <> t.
Proof.
  rewrite find_parent_files_value. unfold set_parent_files.
  cbn [parent_files]. rewrite mapped_iff. cbn [dict_get].
  intros H.
  assert (R : resolve fs t = Some p).
  { destruct (existsb (str_eqb t) (template_files self)); [|discriminate].
    now destruct (resolve fs t). }
  unfold resolve in R. destruct (candidate fs t) as [q|] eqn:C; [|discriminate].
  destruct (os_path_isfile fs q); [|discriminate].
  inversion R; subst q. apply candidate_length in C.
  split; [exact C|]. intros ->. lia.
Qed.

Lemma parent_is_shorter_than_template_witness :
  length (py "c.env") + 9 <= length (py "c.env.template") /\
  py "c.env" <> py "c.env.template".
Proof.
  assert (H : dict_get
                (parent_files
                   (fst (find_parent_files plain_fs
                      (fst (find_template_files plain_fs EXCLUDE_PATTERNS
                              (init (py "/srv/project") (py ".") false))))))
                (py "c.env.template") = Some (py "c.env"))
    by (vm_compute; reflexivity).
  exact (parent_is_shorter_than_template plain_fs _ _ _ H).
Defined.

(** ** Every template path holds the marker *)

Lemma contains_app_r (a s sub : pystr) :
  contains s sub = true -> contains (a ++ s) sub = true.
Proof.
  intros H. induction a as [|x a IH]; [exact H|].
  cbn [app contains]. rewrite IH. apply orb_true_r.
Qed.

Lemma contains_prefix (s sub : pystr) :
  startswith s sub = true -> contains s sub = true.
Proof. intros H. destruct s; cbn [contains]; now rewrite H. Qed.

Lemma matches_chrs_prefix (l : pystr) (ts : list Glob.tok) (s : pystr) :
  Glob.matches (map Glob.Chr l ++ ts) s = true -> startswith s l = true.
Proof.
  revert s; induction l as [|c l IH]; intros s H; [apply startswith_nil|].
  destruct s as [|x s]; [discriminate|]. cbn [map app Glob.matches] in H.
  apply andb_true_iff in H as [Hx H]. cbn [startswith].
  rewrite Ascii.eqb_sym, Hx. now apply IH.
Qed.

(** A run of literal characters of a pattern occurs in every name the
    pattern matches. *)
Lemma matches_contains (ts1 : list Glob.tok) (l : pystr) (ts2 : list Glob.tok) :
  forall s, Glob.matches (ts1 ++ map Glob.Chr l ++ ts2) s = true ->
            contains s l = true.
Proof.
  induction ts1 as [|t ts1 IH]; intros s H.
  - apply contains_prefix. exact (matches_chrs_prefix l ts2 s H).
  - destruct t as [| |c|negated chunks|]; cbn [app] in H.
    + apply matches_any_split in H as [a [b [-> H]]].
      apply contains_app_r. now apply IH.
    + destruct s as [|x s]; [discriminate|]. cbn [Glob.matches] in H.
      apply (contains_app_r [x]). now apply IH.
    + destruct s as [|x s]; [discriminate|]. cbn [Glob.matches] in H.
      apply andb_true_iff in H as [_ H].
      apply (contains_app_r [x]). now apply IH.
    + destruct s as [|x s]; [discriminate|]. cbn [Glob.matches] in H.
      apply andb_true_iff in H as [_ H].
      apply (contains_app_r [x]). now apply IH.
    + discriminate H.
Qed.

Lemma template_pattern_marker (pattern name : pystr) :
  In pattern TEMPLATE_PATTERNS -> Glob.fnmatch name pattern = true ->
  contains name (py ".template") = true.
Proof.
  unfold Glob.fnmatch.
  intros [<-|[<-|[<-|[<-|[<-|[<-|[]]]]]]] H.
  - exact (matches_contains [Glob.Any] (py ".template")
             [Glob.Chr "."; Glob.Any] name H).
  - exact (matches_contains [Glob.Any] (py ".template") [] name H).
  - exact (matches_contains (Glob.Any :: map Glob.Chr (py ".env"))
             (py ".template") [] name H).
  - exact (matches_contains [Glob.Any; Glob.Chr "/"; Glob.Any]
             (py ".template") [Glob.Chr "."; Glob.Any] name H).
  - exact (matches_contains [Glob.Any; Glob.Chr "/"; Glob.Any]
             (py ".template") [] name H).
  - exact (matches_contains
             (Glob.Any :: Glob.Chr "/" :: Glob.Any :: map Glob.Chr (py ".env"))
             (py ".template") [] name H).
Qed.

(** X17. Every path that [find_template_files] returns is the path of a
    directory of the walk followed by the name of a file of that directory,
    and that file name holds the text [.template]; the path passes the
    exclusion test. *)
Theorem template_paths_hold_the_marker fs excl self (path : pystr) :
  In path (template_files (fst (find_template_files fs excl self))) ->
  exists root files name,
    In (root, files) (os_walk [] (tree fs)) /\
    In name files /\
    path = root ++ name /\
    contains name (py ".template") = true /\
    is_excluded_file excl path = false.
Proof.
  rewrite find_template_files_value. unfold discovered. intros H.
  apply in_flat_map in H as [[root files] [Hw H]].
  apply in_flat_map in H as [pattern [Hp H]].
  apply in_flat_map in H as [name [Hn H]].
  unfold Glob.filter in Hn. apply filter_In in Hn as [Hf Hm].
  unfold kept in H. cbn [fst] in H.
  destruct (is_excluded_file excl (root ++ name)) eqn:E; [contradiction|].
  destruct H as [<-|[]].
  exists root, files, name.
  split; [exact Hw|]. split; [exact Hf|]. split; [reflexivity|].
  split; [exact (template_pattern_marker pattern name Hp Hm)|exact E].
Qed.

Lemma template_paths_hold_the_marker_witness :
  exists root files name,
    In (root, files) (os_walk [] (tree plain_fs)) /\
    In name files /\
    py "c.env.template" = root ++ name /\
    contains name (py ".template") = true /\
    is_excluded_file EXCLUDE_PATTERNS (py "c.env.template") = false.
Proof.
  assert (H : In (py "c.env.template")
                (template_files
                   (fst (find_template_files plain_fs EXCLUDE_PATTERNS
                           (init (py "/srv/project") (py ".") false)))))
    by (vm_compute; left; reflexivity).
  exact (template_paths_hold_the_marker plain_fs EXCLUDE_PATTERNS _ _ H).
Defined.

(** ** One entry per template *)

Lemma keys_dict_set {V : Type} (d : dict V) (k x : pystr) (v : V) :
  In x (keys (dict_set d k v)) -> x = k \/ In x (keys d).
Proof.
  induction d as [|[q w] d IH]; cbn [dict_set keys map fst In].
  - intros [<-|[]]. now left.
  - destruct (str_eqb q k); cbn [map fst In].
    + intros [<-|H]; right; [now left|now right].
    + intros [<-|H]; [right; now left|].
      destruct (IH H) as [->|H']; [now left|right; now right].
Qed.

Lemma dict_set_nodup {V : Type} (d : dict V) (k : pystr) (v : V) :
  NoDup (keys d) -> NoDup (keys (dict_set d k v)).
Proof.
  induction d as [|[q w] d IH]; cbn [dict_set keys map fst]; intros H.
  - constructor; [intros []|constructor].
  - inversion H as [|? ? Hq Hd]; subst.
    destruct (str_eqb q k) eqn:E; cbn [map fst]; [exact H|].
    constructor; [|exact (IH Hd)].
    intros Hin. apply keys_dict_set in Hin as [->|Hin]; [|contradiction].
    now rewrite str_eqb_refl in E.
Qed.

Lemma fold_dict_nodup {V A : Type} (step : dict V -> A -> dict V)
    (l : list A) (d : dict V) :
  (forall d x, NoDup (keys d) -> NoDup (keys (step d x))) ->
  NoDup (keys d) -> NoDup (keys (fold_left step l d)).
Proof.
  intros Hs. revert d; induction l as [|x l IH]; intros d Hd; [exact Hd|].
  cbn [fold_left]. apply IH. now apply Hs.
Qed.

Lemma in_dict_get {V : Type} (d : dict V) (k : pystr) (v : V) :
  dict_get d k = Some v -> In (k, v) d.
Proof.
  induction d as [|[q w] d IH]; cbn [dict_get]; [discriminate|].
  destruct (str_eqb q k) eqn:E.
  - intros H; inversion H; subst. apply str_eqb_eq in E. subst. now left.
  - intros H. right. now apply IH.
Qed.

(** X18. Each table holds a template once: the map from templates to
    parents and the table of differences have no repeated key, also when
    discovery lists a template several times, so a pair is in the map
    exactly when looking up the template gives the parent, and the report
    has one section per template. *)
Theorem tables_hold_a_template_once fs self :
  NoDup (keys (parent_files (fst (find_parent_files fs self)))) /\
  NoDup (keys (differences (fst (analyze_all_files fs self)))) /\
  (forall t p,
     In (t, p) (parent_files (fst (find_parent_files fs self))) <->
     dict_get (parent_files (fst (find_parent_files fs self))) t = Some p).
Proof.
  assert (N : NoDup (keys (parent_files (fst (find_parent_files fs self))))).
  { rewrite find_parent_files_value. unfold set_parent_files.
    cbn [parent_files]. apply fold_dict_nodup; [|constructor].
    intros d t Hd. unfold map_template.
    destruct (resolve fs t); [now apply dict_set_nodup|exact Hd]. }
  split; [exact N|]. split.
  - rewrite analyze_all_files_value. unfold set_differences.
    cbn [differences]. apply fold_dict_nodup; [|constructor].
    intros d tp Hd. unfold record_pair.
    destruct (fst (find_missing_lines fs self (fst tp) (snd tp)));
      [exact Hd|now apply dict_set_nodup].
  - intros t p. split; [now apply dict_get_unique|apply in_dict_get].
Qed.

(** ** Idempotence of the normalisation *)

(** *** Quantifiers that cannot give back *)

(** Whether a match of [re] can begin with the character [c], or be empty:
    an upper bound read off the pattern. *)
Fixpoint can_start (re : regex) (c : ascii) : bool :=
  match re with
  | [] => true
  | Lit x :: _ => Ascii.eqb c x
  | Cls p :: _ => p c
  | Star p :: re' => p c || can_start re' c
  | Plus p :: _ => p c
  | Opt p :: re' => p c || can_start re' c
  | Bol :: re' => can_start re' c
  | Eol :: re' => Ascii.eqb c LF && can_start re' c
  | GOpen _ :: re' => can_start re' c
  | GClose _ :: re' => can_start re' c
  end.

Lemma exec_cannot_start (re : regex) :
  forall pos c rest m,
    can_start re c = false -> exec re pos (c :: rest) m = None.
Proof.
  induction re as [|a re IH]; intros pos c rest m H; [discriminate|].
  destruct a; cbn [can_start] in H.
  - rewrite exec_Lit. now rewrite H.
  - cbn [exec]. now rewrite H.
  - apply orb_false_iff in H as [Hp H]. rewrite exec_Star.
    rewrite (star_greedy_stop _ _ _ _ _ Hp). now apply IH.
  - rewrite exec_Plus. now rewrite H.
  - apply orb_false_iff in H as [Hp H]. rewrite exec_Opt, Hp. now apply IH.
  - cbn [exec]. destruct (pos =? 0); [now apply IH|reflexivity].
  - cbn [exec]. destruct rest as [|y r]; [|reflexivity].
    destruct (Ascii.eqb c LF); [now apply IH|reflexivity].
  - rewrite exec_GOpen. now apply IH.
  - rewrite exec_GClose. now apply IH.
Qed.

Lemma span_inside (p : ascii -> bool) (j : nat) (s : pystr) :
  j < span p s -> exists d r, skipn j s = d :: r /\ p d = true.
Proof.
  revert j; induction s as [|c s IH]; intros j H; cbn [span] in H; [lia|].
  destruct (p c) eqn:E; [|lia].
  destruct j as [|j]; [now exists c, s|]. apply IH. lia.
Qed.

(** A star followed by a pattern that cannot begin with a character of its
    class takes the whole run. *)
Lemma star_commit (p : ascii -> bool) (re : regex) (pos : nat) (rest : pystr)
    (m : marks) :
  (forall c, p c = true -> can_start re c = false) ->
  exec (Star p :: re) pos rest m =
  exec re (pos + span p rest) (skipn (span p rest) rest) m.
Proof.
  intros H. rewrite exec_Star, star_greedy_first_down.
  apply (first_down_commit (fun n => exec re (pos + n) (skipn n rest) m)).
  intros j Hj.
  destruct (span_inside p j rest Hj) as [d [r [-> Hd]]].
  apply exec_cannot_start. now apply H.
Qed.

Lemma plus_commit (p : ascii -> bool) (re : regex) (pos : nat) (x : ascii)
    (rest : pystr) (m : marks) :
  (forall c, p c = true -> can_start re c = false) ->
  exec (Plus p :: re) pos (x :: rest) m =
  if p x
  then exec re (S pos + span p rest) (skipn (span p rest) rest) m
  else None.
Proof.
  intros H. rewrite exec_Plus. destruct (p x); [|reflexivity].
  rewrite star_greedy_first_down.
  apply (first_down_commit (fun n => exec re (S pos + n) (skipn n rest) m)).
  intros j Hj.
  destruct (span_inside p j rest Hj) as [d [r [-> Hd]]].
  apply exec_cannot_start. now apply H.
Qed.

Lemma opt_commit (p : ascii -> bool) (re : regex) (pos : nat) (x : ascii)
    (rest : pystr) (m : marks) :
  (forall c, p c = true -> can_start re c = false) ->
  exec (Opt p :: re) pos (x :: rest) m =
  if p x then exec re (S pos) rest m else exec re pos (x :: rest) m.
Proof.
  intros H. rewrite exec_Opt. destruct (p x) eqn:E; [|reflexivity].
  destruct (exec re (S pos) rest m); [reflexivity|].
  apply exec_cannot_start. now apply H.
Qed.

(** *** Texts inside texts *)

Lemma startswith_app_l (s t p : pystr) :
  startswith s p = true -> startswith (s ++ t) p = true.
Proof.
  revert s; induction p as [|x p IH]; intros s H; [apply startswith_nil|].
  destruct s as [|y s]; [discriminate|]. cbn [app startswith] in *.
  apply andb_true_iff in H as [H1 H2]. now rewrite H1, IH.
Qed.

Lemma contains_app_l (s t sub : pystr) :
  contains s sub = true -> contains (s ++ t) sub = true.
Proof.
  induction s as [|x s IH]; intros H.
  - cbn [contains] in H. rewrite orb_false_r in H.
    apply contains_prefix. exact (startswith_app_l [] t sub H).
  - cbn [contains] in H. apply orb_true_iff in H as [H|H].
    + apply contains_prefix. exact (startswith_app_l (x :: s) t sub H).
    + cbn [app contains]. rewrite (IH H). apply orb_true_r.
Qed.

Lemma contains_false_startswith (s sub : pystr) (n : nat) :
  contains s sub = false -> startswith (skipn n s) sub = false.
Proof.
  revert n; induction s as [|x s IH]; intros n H; cbn [contains] in H.
  - rewrite orb_false_r in H. now destruct n.
  - apply orb_false_iff in H as [H1 H2]. destruct n; [exact H1|].
    now apply IH.
Qed.

Lemma startswith_sep (a : pystr) (c : ascii) (b sub : pystr) :
  startswith (a ++ c :: b) sub = true -> contains_char c sub = false ->
  startswith a sub = true.
Proof.
  revert sub; induction a as [|y a IH]; intros sub H Hc.
  - destruct sub as [|x sub]; [reflexivity|]. exfalso.
    cbn [app startswith] in H. apply andb_true_iff in H as [H _].
    unfold contains_char in Hc. cbn [existsb] in Hc.
    apply orb_false_iff in Hc as [Hc _].
    apply Ascii.eqb_eq in H. subst. now rewrite Ascii.eqb_refl in Hc.
  - destruct sub as [|x sub]; [reflexivity|].
    cbn [app startswith] in *. apply andb_true_iff in H as [H1 H2].
    rewrite H1. apply IH; [exact H2|].
    unfold contains_char in *. cbn [existsb] in Hc.
    now apply orb_false_iff in Hc as [_ Hc].
Qed.

(** A text without the character [c] that occurs in [a ++ c :: b] occurs in
    [a] or in [b]. *)
Lemma contains_sep (a : pystr) (c : ascii) (b sub : pystr) :
  contains (a ++ c :: b) sub = true -> contains_char c sub = false ->
  contains a sub = true \/ contains b sub = true.
Proof.
  intros H Hc. induction a as [|y a IH].
  - cbn [app contains] in H. apply orb_true_iff in H as [H|H]; [|now right].
    left. apply contains_prefix. exact (startswith_sep [] c b sub H Hc).
  - cbn [app contains] in H. apply orb_true_iff in H as [H|H].
    + left. apply contains_prefix. exact (startswith_sep (y :: a) c b sub H Hc).
    + destruct (IH H) as [Ha|Hb]; [left|now right].
      cbn [contains]. rewrite Ha. apply orb_true_r.
Qed.

(** What follows a character that the end of the text does not hold ends
    with that end. *)
Lemma suffix_after (c : ascii) (t rest : pystr) :
  contains_char c t = false ->
  forall a b, a ++ t = b ++ c :: rest -> exists r, rest = r ++ t.
Proof.
  intros Hc. induction a as [|x a IH]; intros b E.
  - exfalso. cbn [app] in E. subst t.
    rewrite contains_char_app in Hc. unfold contains_char at 2 in Hc.
    cbn [existsb] in Hc. rewrite Ascii.eqb_refl in Hc.
    rewrite orb_true_r in Hc. discriminate.
  - destruct b as [|y b]; cbn [app] in E; inversion E; subst.
    + now exists a.
    + now apply (IH b).
Qed.

Lemma hd_rev_last (u : pystr) (d : ascii) : hd d (rev u) = last u d.
Proof.
  induction u as [|c u IH]; [reflexivity|]. cbn [rev].
  destruct u as [|c' u]; [reflexivity|].
  change (last (c :: c' :: u) d) with (last (c' :: u) d). rewrite <- IH.
  cbn [rev]. now destruct (rev u).
Qed.

Lemma lstrip_fixed_hd (u : pystr) :
  lstrip u = u -> forall c r, u = c :: r -> is_space c = false.
Proof.
  intros H c r ->. cbn [lstrip] in H.
  destruct (is_space c) eqn:E; [|reflexivity]. exfalso.
  assert (L : length (lstrip r) <= length r).
  { clear. induction r as [|x r IH]; cbn [lstrip]; [lia|].
    destruct (is_space x); cbn [length]; lia. }
  rewrite H in L. cbn [length] in L. lia.
Qed.

Lemma trimmed_hd (u : pystr) :
  strip u = u -> forall c r, u = c :: r -> is_space c = false.
Proof.
  intros H. apply lstrip_fixed_hd. rewrite <- H at 1. now rewrite lstrip_strip, H.
Qed.

Lemma trimmed_last (u : pystr) :
  strip u = u -> u <> [] -> is_space (last u " "%char) = false.
Proof.
  intros H Hne. rewrite <- hd_rev_last.
  assert (R : rstrip u = u).
  { rewrite <- H at 1. unfold strip. now rewrite rstrip_idem. }
  unfold rstrip in R.
  assert (L : lstrip (rev u) = rev u).
  { rewrite <- R at 2. now rewrite rev_involutive. }
  destruct (rev u) as [|c r] eqn:E.
  - exfalso. apply Hne. rewrite <- (rev_involutive u), E. reflexivity.
  - cbn [hd]. exact (lstrip_fixed_hd _ L c r eq_refl).
Qed.

Lemma trimmed_ends (c : ascii) (r : pystr) :
  is_space c = false -> is_space (last (c :: r) " "%char) = false ->
  strip (c :: r) = c :: r.
Proof.
  intros Hc Hl. destruct (exists_last (l := c :: r)) as [mid [d E]];
    [discriminate|].
  rewrite E in Hl. rewrite last_last in Hl.
  destruct mid as [|c' mid]; cbn [app] in E; inversion E; subst.
  - unfold strip. rewrite (lstrip_head d [] Hc).
    exact (rstrip_last [] d Hl).
  - now apply strip_fixed.
Qed.

(** *** The key rewrite on any line *)

(** A match of the key pattern gives the shape KEY=value. *)
Lemma env_match_shape (s : pystr) (r : marks * nat) :
  exec RE_ENV 0 s no_marks = Some r ->
  exists key v, s = key ++ "="%char :: v /\ key <> [] /\
                forallb is_env_key key = true.
Proof.
  unfold RE_ENV. rewrite exec_Bol, exec_GOpen.
  destruct s as [|x s']; [discriminate|]. rewrite exec_Plus.
  destruct (is_env_key x) eqn:Hx; [|discriminate]. intros H.
  apply star_greedy_some in H as [n [Hn H]]. rewrite exec_GClose in H.
  destruct (skipn n s') as [|d v] eqn:E; [discriminate|].
  rewrite exec_Lit in H. destruct (Ascii.eqb d "=") eqn:Hd; [|discriminate].
  apply Ascii.eqb_eq in Hd. subst d.
  exists (x :: firstn n s'), v. split; [|split; [discriminate|]].
  - cbn [app]. f_equal. rewrite <- E. symmetry. apply firstn_skipn.
  - cbn [forallb]. rewrite Hx. now apply span_firstn.
Qed.

Lemma env_shape_blocked (a : pystr) (c : ascii) (b : pystr) :
  contains_char "=" a = false -> is_env_key c = false -> c <> "="%char ->
  forall key v, forallb is_env_key key = true ->
                key ++ "="%char :: v <> a ++ c :: b.
Proof.
  intros Ha Hc Hne. induction a as [|x a IH]; intros key v Hk E.
  - destruct key as [|k key]; cbn [app] in E; inversion E; subst.
    + now apply Hne.
    + cbn [forallb] in Hk. rewrite Hc in Hk. discriminate.
  - unfold contains_char in Ha. cbn [existsb] in Ha.
    apply orb_false_iff in Ha as [Hx Ha].
    destruct key as [|k key]; cbn [app] in E; inversion E; subst.
    + now rewrite Ascii.eqb_refl in Hx.
    + cbn [forallb] in Hk. apply andb_true_iff in Hk as [_ Hk].
      now apply (IH Ha key v Hk).
Qed.

(** A line with a character that is neither of a key nor the equals sign
    before its first equals sign is no assignment. *)
Lemma env_free_by_char (a : pystr) (c : ascii) (b : pystr) :
  contains_char "=" a = false -> is_env_key c = false -> c <> "="%char ->
  exec RE_ENV 0 (a ++ c :: b) no_marks = None.
Proof.
  intros Ha Hc Hne.
  destruct (exec RE_ENV 0 (a ++ c :: b) no_marks) as [r|] eqn:E;
    [|reflexivity].
  exfalso. apply env_match_shape in E as [key [v [E [_ Hk]]]].
  now apply (env_shape_blocked a c b Ha Hc Hne key v Hk).
Qed.

Lemma prefix_first_eq (key v : pystr) :
  forallb is_env_key key = true ->
  forall x y, key ++ "="%char :: v = x ++ y -> contains_char "=" x = true ->
              exists x', x = key ++ "="%char :: x'.
Proof.
  induction key as [|k key IH]; intros Hk x y E Hx.
  - destruct x as [|c x]; [discriminate|]. cbn [app] in E. inversion E; subst.
    now exists x.
  - destruct x as [|c x]; [discriminate|]. cbn [app] in E. inversion E; subst.
    cbn [forallb] in Hk. apply andb_true_iff in Hk as [Hc Hk].
    destruct (env_key_char c Hc) as [_ [_ [_ [Hne _]]]].
    unfold contains_char in Hx. cbn [existsb] in Hx.
    rewrite (Ascii.eqb_sym "=" c), Hne in Hx. cbn [orb] in Hx.
    destruct (IH Hk x y H1 Hx) as [x' ->]. now exists x'.
Qed.

Lemma forallb_firstn {A : Type} (p : A -> bool) (n : nat) (l : list A) :
  forallb p l = true -> forallb p (firstn n l) = true.
Proof.
  rewrite !forallb_forall. intros H x Hx. apply H.
  rewrite <- (firstn_skipn n l). apply in_or_app. now left.
Qed.

Lemma forallb_skipn {A : Type} (p : A -> bool) (n : nat) (l : list A) :
  forallb p l = true -> forallb p (skipn n l) = true.
Proof.
  rewrite !forallb_forall. intros H x Hx. apply H.
  rewrite <- (firstn_skipn n l). apply in_or_app. now right.
Qed.

(** Cutting a line that is no assignment after one of its equals signs
    leaves a line that is no assignment. *)
Lemma env_free_cut (s ph : pystr) (k : nat) :
  forallb is_dot s = true ->
  exec RE_ENV 0 s no_marks = None ->
  contains_char "=" (firstn k s) = true ->
  exec RE_ENV 0 (firstn k s ++ ph) no_marks = None.
Proof.
  intros Hdot Hfree Hk.
  destruct (exec RE_ENV 0 (firstn k s ++ ph) no_marks) as [r|] eqn:E;
    [|reflexivity].
  exfalso. apply env_match_shape in E as [key [v [E [Hne Hkey]]]].
  destruct (prefix_first_eq key v Hkey _ _ (eq_sym E) Hk) as [x' Hx].
  assert (Hs : s = key ++ "="%char :: (x' ++ skipn k s)).
  { rewrite <- (firstn_skipn k s) at 1. rewrite Hx.
    now rewrite <- app_assoc. }
  rewrite Hs in Hfree. rewrite exec_env in Hfree; [discriminate| | |];
    try assumption.
  rewrite Hs in Hdot. rewrite forallb_app in Hdot.
  apply andb_true_iff in Hdot as [_ Hdot]. cbn [forallb] in Hdot.
  now apply andb_true_iff in Hdot as [_ Hdot].
Qed.

(** *** The secret rewrites on any line *)

(** Where the last occurrence of [m] in [u] starts. *)
Definition last_marker (m u : pystr) : option nat :=
  first_down (fun n => if startswith (skipn n u) m then Some n else None)
             (length u).

Lemma exec_marker_gen (sfx u : pystr) :
  forallb is_dot u = true ->
  exec (marker_re sfx) 0 u no_marks =
  option_map
    (fun n => (Marks [(1, 0)] [(1, n + length (sfx ++ ["="%char]))], length u))
    (last_marker (sfx ++ ["="%char]) u).
Proof.
  intros Hdot. unfold marker_re, last_marker. cbn [app].
  rewrite exec_Bol, exec_GOpen, exec_Star, star_greedy_first_down.
  rewrite (span_whole is_dot u Hdot), first_down_map.
  apply first_down_ext. intros n. cbn [Nat.add].
  rewrite exec_lits.
  destruct (startswith (skipn n u) (sfx ++ ["="%char])) eqn:S1;
    [|reflexivity].
  cbn [option_map]. rewrite exec_GClose, exec_Star.
  pose proof (startswith_length _ _ S1) as L. rewrite length_skipn in L.
  rewrite <- (app_nil_r (skipn _ (skipn n u))).
  apply star_greedy_whole.
  - now apply forallb_skipn, forallb_skipn.
  - reflexivity.
  - cbn [exec]. unfold set_end, set_start, no_marks. cbn [starts ends].
    assert (M : 1 <= length (sfx ++ ["="%char]))
      by (rewrite length_app; cbn [length]; lia).
    f_equal. f_equal. lia.
Qed.

Lemma anchored_marker_re (sfx : pystr) : anchored (marker_re sfx).
Proof. unfold marker_re. cbn [app]. apply anchored_bol. Qed.

(** A secret rewrite cuts the line after the last occurrence of its marker
    and puts the placeholder there. *)
Lemma sub_marker_gen (sfx ph u : pystr) :
  forallb is_dot u = true ->
  re_sub (marker_re sfx) [TGroup 1; TLit ph] u =
  match last_marker (sfx ++ ["="%char]) u with
  | Some n => firstn (n + length (sfx ++ ["="%char])) u ++ ph
  | None => u
  end.
Proof.
  intros Hdot. rewrite (re_sub_anchored _ _ _ (anchored_marker_re sfx)).
  rewrite (exec_marker_gen sfx u Hdot).
  destruct (last_marker (sfx ++ ["="%char]) u) as [n|]; [|reflexivity].
  cbn [option_map]. rewrite expand_group1.
  rewrite (skipn_whole (length u) u) by lia. now rewrite app_nil_r.
Qed.

Lemma last_marker_absent (m u : pystr) :
  contains u m = false -> last_marker m u = None.
Proof.
  intros H. unfold last_marker. apply first_down_none. intros j _.
  now rewrite (contains_false_startswith u m j H).
Qed.

Lemma contains_startswith (u m : pystr) :
  contains u m = true ->
  exists j, j <= length u /\ startswith (skipn j u) m = true.
Proof.
  induction u as [|x u IH]; cbn [contains]; intros H.
  - rewrite orb_false_r in H. exists 0. now split.
  - apply orb_true_iff in H as [H|H].
    + exists 0. split; [lia|exact H].
    + destruct (IH H) as [j [Hj Hs]]. exists (S j). split; [cbn; lia|exact Hs].
Qed.

Lemma first_down_none_inv {A : Type} (f : nat -> option A) (n : nat) :
  first_down f n = None -> forall j, j <= n -> f j = None.
Proof.
  induction n as [|n IH]; cbn [first_down]; intros H j Hj.
  - assert (j = 0) by lia. subst. now destruct (f 0).
  - destruct (f (S n)) eqn:E; [discriminate|].
    destruct (Nat.eq_dec j (S n)) as [->|Hne]; [exact E|].
    apply IH; [exact H|lia].
Qed.

Lemma last_marker_present (m u : pystr) :
  contains u m = true ->
  exists n, last_marker m u = Some n /\ startswith (skipn n u) m = true.
Proof.
  intros H. unfold last_marker.
  destruct (first_down _ (length u)) as [n|] eqn:E.
  - exists n. split; [reflexivity|].
    apply first_down_some in E as [i [_ [Hi _]]].
    destruct (startswith (skipn i u) m) eqn:S1; [|discriminate].
    now inversion Hi; subst.
  - exfalso. destruct (contains_startswith u m H) as [j [Hj Hs]].
    pose proof (first_down_none_inv _ _ E j Hj) as F. cbn beta in F.
    rewrite Hs in F. discriminate.
Qed.

(** After the marker that a placeholder without equals sign follows, no
    occurrence of the marker starts. *)
Lemma marker_tail_clear (sfx ph : pystr) (j : nat) :
  contains_char "=" ph = false ->
  startswith (skipn (S j) ((sfx ++ ["="%char]) ++ ph)) (sfx ++ ["="%char]) = false.
Proof.
  intros Hph.
  destruct (startswith (skipn (S j) ((sfx ++ ["="%char]) ++ ph))
              (sfx ++ ["="%char])) eqn:S1; [|reflexivity].
  exfalso. apply startswith_split in S1.
  assert (E : skipn (length sfx) (skipn (S j) ((sfx ++ ["="%char]) ++ ph)) =
              "="%char :: skipn (length (sfx ++ ["="%char]))
                            (skipn (S j) ((sfx ++ ["="%char]) ++ ph))).
  { rewrite S1 at 1. rewrite <- app_assoc. now rewrite skipn_length_app. }
  rewrite skipn_skipn in E.
  replace (length sfx + S j) with (length (sfx ++ ["="%char]) + j) in E
    by (rewrite length_app; cbn [length]; lia).
  rewrite skipn_add_app in E.
  assert (Hin : In "="%char ph).
  { apply (in_skipn j). rewrite E. now left. }
  unfold contains_char in Hph.
  assert (T : existsb (Ascii.eqb "=") ph = true).
  { apply existsb_exists. exists "="%char. split; [exact Hin|].
    apply Ascii.eqb_refl. }
  congruence.
Qed.

(** A line that ends with a marker and its placeholder is left alone by the
    rewrite of that marker. *)
Lemma last_marker_fixed (sfx ph p : pystr) :
  contains_char "=" ph = false ->
  last_marker (sfx ++ ["="%char]) (p ++ (sfx ++ ["="%char]) ++ ph) =
  Some (length p).
Proof.
  intros Hph. unfold last_marker.
  apply first_down_pick with (i := length p).
  - rewrite length_app. lia.
  - rewrite skipn_length_app. now rewrite startswith_app.
  - intros j Hj.
    replace j with (length p + S (j - length p - 1)) by lia.
    rewrite skipn_add_app. now rewrite marker_tail_clear.
Qed.

(** *** Runs of a class *)

Lemma star_run (p : ascii -> bool) (re : regex) (pos : nat) (run rest : pystr)
    (m : marks) :
  forallb p run = true -> span p rest = 0 ->
  (forall c, p c = true -> can_start re c = false) ->
  exec (Star p :: re) pos (run ++ rest) m = exec re (pos + length run) rest m.
Proof.
  intros Hrun Hrest Hre. rewrite (star_commit p re pos _ m Hre).
  rewrite (span_all p run rest Hrun), Hrest, Nat.add_0_r.
  now rewrite skipn_length_app.
Qed.

Lemma plus_run (p : ascii -> bool) (re : regex) (pos : nat) (x : ascii)
    (run rest : pystr) (m : marks) :
  p x = true -> forallb p run = true -> span p rest = 0 ->
  (forall c, p c = true -> can_start re c = false) ->
  exec (Plus p :: re) pos (x :: run ++ rest) m =
  exec re (S pos + length run) rest m.
Proof.
  intros Hx Hrun Hrest Hre. rewrite (plus_commit p re pos x _ m Hre), Hx.
  rewrite (span_all p run rest Hrun), Hrest, Nat.add_0_r.
  now rewrite skipn_length_app.
Qed.

Lemma opt_skip (p : ascii -> bool) (re : regex) (pos : nat) (rest : pystr)
    (m : marks) :
  span p rest = 0 -> exec (Opt p :: re) pos rest m = exec re pos rest m.
Proof.
  destruct rest as [|x rest]; [reflexivity|]. cbn [span]. rewrite exec_Opt.
  now destruct (p x).
Qed.

Lemma opt_take (p : ascii -> bool) (re : regex) (pos : nat) (x : ascii)
    (rest : pystr) (m : marks) :
  p x = true -> (forall c, p c = true -> can_start re c = false) ->
  exec (Opt p :: re) pos (x :: rest) m = exec re (S pos) rest m.
Proof. intros Hx Hre. now rewrite (opt_commit p re pos x rest m Hre), Hx. Qed.

Lemma span_skipn_span (p : ascii -> bool) (s : pystr) :
  span p (skipn (span p s) s) = 0.
Proof.
  induction s as [|c s IH]; [reflexivity|]. cbn [span].
  destruct (p c) eqn:E; cbn [skipn]; [exact IH|]. cbn [span]. now rewrite E.
Qed.

Lemma span_zero_run (p : ascii -> bool) (run rest : pystr) :
  forallb p run = true -> span p (run ++ rest) = 0 -> run = [].
Proof.
  intros Hrun H. rewrite (span_all p run rest Hrun) in H.
  destruct run; [reflexivity|cbn [length] in H; lia].
Qed.

(** What a successful match tells of the subject, atom by atom. *)
Lemma exec_Star_inv (p : ascii -> bool) (re : regex) (pos : nat) (s : pystr)
    (m : marks) (r : marks * nat) :
  exec (Star p :: re) pos s m = Some r ->
  exists run rest, s = run ++ rest /\ forallb p run = true /\
                   exec re (pos + length run) rest m = Some r.
Proof.
  rewrite exec_Star. intros H. apply star_greedy_some in H as [n [Hn H]].
  exists (firstn n s), (skipn n s). split; [symmetry; apply firstn_skipn|].
  split; [now apply span_firstn|].
  rewrite length_firstn, Nat.min_l; [exact H|].
  pose proof (span_le p s). lia.
Qed.

Lemma exec_Plus_inv (p : ascii -> bool) (re : regex) (pos : nat) (s : pystr)
    (m : marks) (r : marks * nat) :
  exec (Plus p :: re) pos s m = Some r ->
  exists x run rest, s = x :: run ++ rest /\ p x = true /\
                     forallb p run = true /\
                     exec re (S pos + length run) rest m = Some r.
Proof.
  destruct s as [|x s]; [discriminate|]. rewrite exec_Plus.
  destruct (p x) eqn:Hx; [|discriminate]. intros H.
  apply star_greedy_some in H as [n [Hn H]].
  exists x, (firstn n s), (skipn n s).
  split; [now rewrite firstn_skipn|]. split; [exact Hx|].
  split; [now apply span_firstn|].
  rewrite length_firstn, Nat.min_l; [exact H|].
  pose proof (span_le p s). lia.
Qed.

Definition quote_if (b : bool) : pystr := if b then [QUOTE] else [].

Lemma exec_Opt_inv (re : regex) (pos : nat) (s : pystr) (m : marks)
    (r : marks * nat) :
  exec (Opt (Ascii.eqb QUOTE) :: re) pos s m = Some r ->
  exists b rest, s = quote_if b ++ rest /\
                 exec re (pos + length (quote_if b)) rest m = Some r.
Proof.
  intros H.
  assert (Skip : exec re pos s m = Some r ->
                 exists b rest, s = quote_if b ++ rest /\
                   exec re (pos + length (quote_if b)) rest m = Some r).
  { intros K. exists false, s. split; [reflexivity|].
    cbn [quote_if length]. now rewrite Nat.add_0_r. }
  destruct s as [|x s]; [exact (Skip H)|]. rewrite exec_Opt in H.
  destruct (Ascii.eqb QUOTE x) eqn:Hx; [|exact (Skip H)].
  destruct (exec re (S pos) s m) as [r'|] eqn:E; [|exact (Skip H)].
  apply Ascii.eqb_eq in Hx. subst x. exists true, s.
  split; [reflexivity|]. cbn [quote_if length].
  replace (pos + 1) with (S pos) by lia. now rewrite E.
Qed.

Lemma exec_Lit_inv (c : ascii) (re : regex) (pos : nat) (s : pystr)
    (m : marks) (r : marks * nat) :
  exec (Lit c :: re) pos s m = Some r ->
  exists rest, s = c :: rest /\ exec re (S pos) rest m = Some r.
Proof.
  destruct s as [|x s]; [discriminate|]. rewrite exec_Lit.
  destruct (Ascii.eqb x c) eqn:E; [|discriminate].
  apply Ascii.eqb_eq in E. subst x. intros H. now exists s.
Qed.

(** *** The head of a JSON/YAML field *)

(** The texts that group 1 of the two field patterns takes on a trimmed
    line: a name of word characters, a quote before or after it or none,
    white space, the colon, white space. *)
Definition head_text (b1 : bool) (w : pystr) (b2 : bool) (sp2 sp3 : pystr)
    : pystr :=
  quote_if b1 ++ w ++ quote_if b2 ++ sp2 ++ ":"%char :: sp3.

Inductive is_head : pystr -> Prop :=
| IsHead (b1 : bool) (x : ascii) (w : pystr) (b2 : bool) (sp2 sp3 : pystr) :
    is_word x = true -> forallb is_word w = true ->
    forallb is_space sp2 = true -> forallb is_space sp3 = true ->
    is_head (head_text b1 (x :: w) b2 sp2 sp3).

(** What follows the name in the head. *)
Definition AFTER_NAME (tail : regex) : regex :=
  Opt (Ascii.eqb QUOTE) :: Star is_space :: Lit ":" :: Star is_space ::
  GClose 1 :: tail.

Lemma space_char (c : ascii) :
  is_space c = true ->
  Ascii.eqb QUOTE c = false /\ is_word c = false /\ Ascii.eqb c ":" = false /\
  is_digit c = false /\ Ascii.eqb c QUOTE = false /\ Ascii.eqb c "-" = false.
Proof. by_cases_on_char c. Qed.

Lemma word_char (c : ascii) :
  is_word c = true ->
  Ascii.eqb QUOTE c = false /\ is_space c = false /\ Ascii.eqb c ":" = false /\
  Ascii.eqb c "=" = false /\ Ascii.eqb c "-" = false /\ is_dot c = true.
Proof. by_cases_on_char c. Qed.

Lemma quote_char (c : ascii) :
  Ascii.eqb QUOTE c = true ->
  is_word c = false /\ is_space c = false /\ Ascii.eqb c ":" = false.
Proof. by_cases_on_char c. Qed.

Lemma after_name_stop (b2 : bool) (sp2 t : pystr) :
  forallb is_space sp2 = true ->
  span is_word (quote_if b2 ++ sp2 ++ ":"%char :: t) = 0.
Proof.
  intros H. destruct b2; [reflexivity|]. cbn [quote_if app].
  destruct sp2 as [|c sp2]; [reflexivity|]. cbn [forallb] in H.
  apply andb_true_iff in H as [Hc _]. cbn [app span].
  destruct (space_char c Hc) as [_ [Hw _]]. now rewrite Hw.
Qed.

Lemma exec_after_name (tail : regex) (pos : nat) (b2 : bool)
    (sp2 sp3 rest : pystr) (m : marks) :
  forallb is_space sp2 = true -> forallb is_space sp3 = true ->
  span is_space rest = 0 ->
  (forall c, is_space c = true -> can_start tail c = false) ->
  exec (AFTER_NAME tail) pos (quote_if b2 ++ sp2 ++ ":"%char :: sp3 ++ rest) m =
  exec tail (pos + length (quote_if b2 ++ sp2 ++ ":"%char :: sp3)) rest
    (set_end 1 (pos + length (quote_if b2 ++ sp2 ++ ":"%char :: sp3)) m).
Proof.
  intros H2 H3 Hrest Htail. unfold AFTER_NAME.
  assert (E : exec (Star is_space :: Lit ":" :: Star is_space :: GClose 1 :: tail)
                (pos + length (quote_if b2)) (sp2 ++ ":"%char :: sp3 ++ rest) m =
              exec tail (pos + length (quote_if b2 ++ sp2 ++ ":"%char :: sp3)) rest
                (set_end 1 (pos + length (quote_if b2 ++ sp2 ++ ":"%char :: sp3)) m)).
  { rewrite star_run; [|exact H2|reflexivity|].
    - rewrite exec_Lit, Ascii.eqb_refl.
      rewrite star_run; [|exact H3|exact Hrest|exact Htail].
      rewrite exec_GClose. rewrite !length_app. cbn [length].
      replace (S (pos + length (quote_if b2) + length sp2) + length sp3)
        with (pos + (length (quote_if b2) + (length sp2 + S (length sp3))))
        by lia.
      reflexivity.
    - intros c Hc. cbn [can_start]. now destruct (space_char c Hc) as [_ [_ [H _]]]. }
  refine (eq_trans _ E). destruct b2; cbn [quote_if app length].
  - rewrite opt_take.
    + now replace (pos + 1) with (S pos) by lia.
    + apply Ascii.eqb_refl.
    + intros c Hc. cbn [can_start]. destruct (quote_char c Hc) as [_ [-> ->]].
      reflexivity.
  - rewrite opt_skip.
    + now rewrite Nat.add_0_r.
    + destruct sp2 as [|c sp2]; [reflexivity|]. cbn [forallb] in H2.
      apply andb_true_iff in H2 as [Hc _]. cbn [app span].
      now destruct (space_char c Hc) as [-> _].
Qed.

(** On a head followed by something that is no white space, the head of the
    pattern takes the head of the line and nothing else. *)
Lemma head_forward (tail : regex) (h rest : pystr) :
  is_head h -> span is_space rest = 0 ->
  (forall c, is_space c = true -> can_start tail c = false) ->
  exec (RE_FIELD_HEAD ++ tail) 0 (h ++ rest) no_marks =
  exec tail (length h) rest (Marks [(1, 0)] [(1, length h)]).
Proof.
  intros Hh Hrest Htail. destruct Hh as [b1 x w b2 sp2 sp3 Hx Hw H2 H3].
  unfold RE_FIELD_HEAD. cbn [app]. rewrite exec_GOpen, exec_Bol.
  change (Opt (Ascii.eqb QUOTE) :: Star is_space :: Lit ":" :: Star is_space ::
          GClose 1 :: tail) with (AFTER_NAME tail).
  unfold head_text. rewrite <- !app_assoc. cbn [app].
  destruct (word_char x Hx) as [Hq [Hs _]].
  assert (Hname : forall c, is_word c = true ->
                            can_start (AFTER_NAME tail) c = false).
  { intros c Hc. unfold AFTER_NAME. cbn [can_start].
    now destruct (word_char c Hc) as [-> [-> [-> _]]]. }
  assert (E : forall pos m,
             exec (Plus is_word :: AFTER_NAME tail) pos
               (x :: w ++ quote_if b2 ++ sp2 ++ ":"%char :: sp3 ++ rest) m =
             exec tail (S pos + length w +
                        length (quote_if b2 ++ sp2 ++ ":"%char :: sp3)) rest
               (set_end 1 (S pos + length w +
                           length (quote_if b2 ++ sp2 ++ ":"%char :: sp3)) m)).
  { intros pos m.
    rewrite plus_run;
      [|exact Hx|exact Hw|now apply after_name_stop|exact Hname].
    now apply exec_after_name. }
  destruct b1; cbn [quote_if app].
  - rewrite exec_Star, star_greedy_stop by reflexivity.
    rewrite opt_take; [|apply Ascii.eqb_refl|].
    + rewrite E. unfold set_end, set_start, no_marks. cbn [starts ends].
      rewrite !length_app. cbn [length]. rewrite !length_app. cbn [length].
      reflexivity.
    + intros c Hc. cbn [can_start]. now destruct (quote_char c Hc) as [-> _].
  - rewrite exec_Star, star_greedy_stop by exact Hs.
    rewrite opt_skip by (cbn [span]; now rewrite Hq).
    rewrite E. unfold set_end, set_start, no_marks. cbn [starts ends].
    rewrite !length_app. cbn [length]. rewrite !length_app. cbn [length].
    reflexivity.
Qed.

(** A match of a field pattern on a line without white space in front
    begins with a head. *)
Lemma head_backward (tail : regex) (u : pystr) (r : marks * nat) :
  exec (RE_FIELD_HEAD ++ tail) 0 u no_marks = Some r ->
  span is_space u = 0 ->
  exists h rest, u = h ++ rest /\ is_head h /\
    exec tail (length h) rest (Marks [(1, 0)] [(1, length h)]) = Some r.
Proof.
  unfold RE_FIELD_HEAD. cbn [app]. rewrite exec_GOpen, exec_Bol.
  intros H Hu.
  apply exec_Star_inv in H as [sp1 [r1 [E1 [S1 H]]]].
  rewrite E1 in Hu. rewrite (span_zero_run _ _ _ S1 Hu) in *. clear S1 Hu.
  cbn [app length] in *. subst r1.
  apply exec_Opt_inv in H as [b1 [r2 [E2 H]]].
  apply exec_Plus_inv in H as [x [w [r3 [E3 [Hx [Hw H]]]]]].
  apply exec_Opt_inv in H as [b2 [r4 [E4 H]]].
  apply exec_Star_inv in H as [sp2 [r5 [E5 [S2 H]]]].
  apply exec_Lit_inv in H as [r6 [E6 H]].
  apply exec_Star_inv in H as [sp3 [r7 [E7 [S3 H]]]].
  rewrite exec_GClose in H.
  exists (head_text b1 (x :: w) b2 sp2 sp3), r7. split; [|split].
  - subst. unfold head_text. rewrite <- ?app_assoc. cbn [app].
    now rewrite <- ?app_assoc.
  - now constructor.
  - unfold set_end, set_start, no_marks in H. cbn [starts ends] in H.
    replace (length (head_text b1 (x :: w) b2 sp2 sp3))
      with (S (S (0 + 0 + length (quote_if b1)) + length w +
               length (quote_if b2) + length sp2) + length sp3);
      [exact H|].
    unfold head_text. rewrite ?length_app. cbn [length].
    rewrite ?length_app. cbn [length]. lia.
Qed.

Lemma head_first (h : pystr) :
  is_head h ->
  exists c h', h = c :: h' /\ (c = QUOTE \/ is_word c = true).
Proof.
  intros [b1 x w b2 sp2 sp3 Hx _ _ _]. unfold head_text.
  destruct b1; cbn [quote_if app].
  - eexists _, _. split; [reflexivity|now left].
  - eexists _, _. split; [reflexivity|now right].
Qed.

Lemma contains_char_false_forallb (c : ascii) (p : ascii -> bool) (s : pystr) :
  p c = false -> forallb p s = true -> contains_char c s = false.
Proof.
  intros Hc. induction s as [|x s IH]; [reflexivity|]. cbn [forallb].
  intros H. apply andb_true_iff in H as [Hx Hs]. unfold contains_char.
  cbn [existsb]. fold (contains_char c s). rewrite (IH Hs), orb_false_r.
  destruct (Ascii.eqb c x) eqn:E; [|reflexivity].
  apply Ascii.eqb_eq in E. subst. congruence.
Qed.

(** A line that begins with a head is no assignment: its colon comes
    before any equals sign. *)
Lemma head_env_free (h rest : pystr) :
  is_head h -> exec RE_ENV 0 (h ++ rest) no_marks = None.
Proof.
  intros [b1 x w b2 sp2 sp3 Hx Hw H2 H3]. unfold head_text.
  replace ((quote_if b1 ++ (x :: w) ++ quote_if b2 ++ sp2 ++ ":"%char :: sp3)
           ++ rest)
    with ((quote_if b1 ++ (x :: w) ++ quote_if b2 ++ sp2) ++
          ":"%char :: (sp3 ++ rest))
    by (rewrite <- ?app_assoc; cbn [app]; now rewrite <- ?app_assoc).
  apply env_free_by_char; [|reflexivity|discriminate].
  rewrite !contains_char_app.
  assert (Q1 : forall b, contains_char "=" (quote_if b) = false)
    by (now intros []).
  rewrite !Q1. cbn [orb].
  rewrite (contains_char_false_forallb "=" is_word (x :: w)),
          (contains_char_false_forallb "=" is_space sp2);
    [reflexivity|reflexivity|exact H2|reflexivity|].
  cbn [forallb]. now rewrite Hx, Hw.
Qed.

(** *** The two field rewrites on any trimmed line *)

Definition QUOTED_VALUE : pystr := QUOTE :: py "<VALUE>" ++ [QUOTE].

Lemma str_tail_forward (pos : nat) (body rest : pystr) (m : marks) :
  forallb not_quote body = true ->
  exec [Lit QUOTE; Star not_quote; Lit QUOTE] pos
    (QUOTE :: body ++ QUOTE :: rest) m = Some (m, pos + length body + 2).
Proof.
  intros Hb. rewrite exec_Lit, Ascii.eqb_refl, exec_Star.
  apply star_greedy_whole; [exact Hb|reflexivity|].
  rewrite exec_Lit, Ascii.eqb_refl. cbn [exec]. do 2 f_equal. lia.
Qed.

Lemma str_tail_backward (pos : nat) (s : pystr) (m : marks) (r : marks * nat) :
  exec [Lit QUOTE; Star not_quote; Lit QUOTE] pos s m = Some r ->
  exists body rest, s = QUOTE :: body ++ QUOTE :: rest /\
                    forallb not_quote body = true.
Proof.
  intros H. apply exec_Lit_inv in H as [r1 [E1 H]].
  apply exec_Star_inv in H as [body [r2 [E2 [Hb H]]]].
  apply exec_Lit_inv in H as [rest [E3 _]]. subst.
  now exists body, rest.
Qed.

Lemma space_not_str_tail (c : ascii) :
  is_space c = true ->
  can_start [Lit QUOTE; Star not_quote; Lit QUOTE] c = false.
Proof.
  intros Hc. cbn [can_start]. now destruct (space_char c Hc) as [_ [_ [_ [_ [-> _]]]]].
Qed.

Lemma space_not_num_tail (c : ascii) :
  is_space c = true -> can_start [Plus is_digit] c = false.
Proof.
  intros Hc. cbn [can_start]. now destruct (space_char c Hc) as [_ [_ [_ [-> _]]]].
Qed.

(** A head and a quoted string: the string gives way to the placeholder. *)
Lemma sub_field_str (h body rest : pystr) :
  is_head h -> forallb not_quote body = true ->
  re_sub RE_FIELD_STR [TGroup 1; TLit QUOTED_VALUE]
    (h ++ QUOTE :: body ++ QUOTE :: rest) = h ++ QUOTED_VALUE ++ rest.
Proof.
  intros Hh Hb. unfold RE_FIELD_STR.
  rewrite (re_sub_anchored _ _ _ (anchored_field _)).
  rewrite head_forward; [|exact Hh|reflexivity|exact space_not_str_tail].
  rewrite (str_tail_forward _ body rest _ Hb), expand_group1.
  rewrite firstn_length_app. rewrite <- app_assoc. do 2 f_equal.
  replace (length h + length body + 2)
    with (length h + length (QUOTE :: body ++ [QUOTE]))
    by (cbn [length]; rewrite length_app; cbn [length]; lia).
  rewrite skipn_add_app.
  replace (QUOTE :: body ++ QUOTE :: rest)
    with ((QUOTE :: body ++ [QUOTE]) ++ rest)
    by (cbn [app]; now rewrite <- app_assoc).
  apply skipn_length_app.
Qed.

Lemma field_str_shape (u : pystr) (r : marks * nat) :
  exec RE_FIELD_STR 0 u no_marks = Some r -> span is_space u = 0 ->
  exists h body rest, u = h ++ QUOTE :: body ++ QUOTE :: rest /\
                      is_head h /\ forallb not_quote body = true.
Proof.
  intros H Hu. destruct (head_backward _ u r H Hu) as [h [t [E [Hh T]]]].
  apply str_tail_backward in T as [body [rest [-> Hb]]].
  now exists h, body, rest.
Qed.

(** A head and a number: the digits give way to the placeholder. *)
Lemma sub_field_num (h : pystr) (d : ascii) (ds rest : pystr) :
  is_head h -> is_digit d = true -> forallb is_digit ds = true ->
  span is_digit rest = 0 ->
  re_sub RE_FIELD_NUM [TGroup 1; TLit (py "<NUMBER>")]
    (h ++ d :: ds ++ rest) = h ++ py "<NUMBER>" ++ rest.
Proof.
  intros Hh Hd Hds Hrest. unfold RE_FIELD_NUM.
  rewrite (re_sub_anchored _ _ _ (anchored_field _)).
  rewrite head_forward;
    [|exact Hh|cbn [span]; destruct (is_space d) eqn:E;
               [destruct (space_char d E) as [_ [_ [_ [F _]]]]; congruence
               |reflexivity]
     |exact space_not_num_tail].
  rewrite exec_Plus, Hd.
  rewrite (star_greedy_whole is_digit _ ds rest _
             (Marks [(1, 0)] [(1, length h)], S (length h) + length ds)
             Hds Hrest eq_refl).
  rewrite expand_group1, firstn_length_app. rewrite <- app_assoc.
  do 2 f_equal.
  replace (S (length h) + length ds) with (length h + length (d :: ds))
    by (cbn [length]; lia).
  rewrite skipn_add_app.
  change (d :: ds ++ rest) with ((d :: ds) ++ rest).
  apply skipn_length_app.
Qed.

Lemma field_num_shape (u : pystr) (r : marks * nat) :
  exec RE_FIELD_NUM 0 u no_marks = Some r -> span is_space u = 0 ->
  exists h d ds rest, u = h ++ d :: ds ++ rest /\ is_head h /\
    is_digit d = true /\ forallb is_digit ds = true /\
    span is_digit rest = 0.
Proof.
  intros H Hu. destruct (head_backward _ u r H Hu) as [h [t [E [Hh T]]]].
  destruct t as [|d t]; [discriminate|]. rewrite exec_Plus in T.
  destruct (is_digit d) eqn:Hd; [|discriminate].
  exists h, d, (firstn (span is_digit t) t), (skipn (span is_digit t) t).
  split; [now rewrite firstn_skipn|]. split; [exact Hh|].
  split; [exact Hd|]. split; [now apply span_firstn|].
  apply span_skipn_span.
Qed.

(** Where the field patterns and the compose pattern cannot match. *)
Lemma field_str_miss (h : pystr) (c : ascii) (rest : pystr) :
  is_head h -> is_space c = false -> Ascii.eqb c QUOTE = false ->
  exec RE_FIELD_STR 0 (h ++ c :: rest) no_marks = None.
Proof.
  intros Hh Hs Hq. unfold RE_FIELD_STR.
  rewrite head_forward;
    [|exact Hh|cbn [span]; now rewrite Hs|exact space_not_str_tail].
  now rewrite exec_Lit, Hq.
Qed.

Lemma field_num_miss (h : pystr) (c : ascii) (rest : pystr) :
  is_head h -> is_space c = false -> is_digit c = false ->
  exec RE_FIELD_NUM 0 (h ++ c :: rest) no_marks = None.
Proof.
  intros Hh Hs Hd. unfold RE_FIELD_NUM.
  rewrite head_forward;
    [|exact Hh|cbn [span]; now rewrite Hs|exact space_not_num_tail].
  now rewrite exec_Plus, Hd.
Qed.

Lemma field_dash (tail : regex) (rest : pystr) :
  exec (RE_FIELD_HEAD ++ tail) 0 ("-"%char :: rest) no_marks = None.
Proof. now apply exec_cannot_start. Qed.

Lemma compose_miss (c : ascii) (rest : pystr) :
  c = QUOTE \/ is_word c = true ->
  exec RE_COMPOSE 0 (c :: rest) no_marks = None.
Proof.
  intros H. apply exec_cannot_start. unfold RE_COMPOSE. cbn [can_start].
  destruct H as [->|H]; [reflexivity|].
  now destruct (word_char c H) as [_ [-> [_ [_ [-> _]]]]].
Qed.

(** *** The compose rewrite on any trimmed line *)

(** The lines that the compose pattern matches, when they are trimmed and
    hold no line feed: a dash, white space, and between two quotes a text
    with an equals sign and no quote. *)
Definition compose_text (sp pre val : pystr) : pystr :=
  "-"%char :: sp ++ QUOTE :: pre ++ "="%char :: val ++ [QUOTE].

Definition VALUE_QUOTE : pystr := py "<VALUE>" ++ [QUOTE].

Lemma lit_absent (c : ascii) (re : regex) (pos : nat) (l : pystr) (k : nat)
    (m : marks) :
  contains_char c l = false -> exec (Lit c :: re) pos (skipn k l) m = None.
Proof.
  intros H. destruct (skipn k l) as [|x t] eqn:E; [reflexivity|].
  rewrite exec_Lit. destruct (Ascii.eqb x c) eqn:X; [|reflexivity].
  apply Ascii.eqb_eq in X. subst x.
  assert (T : contains_char c l = true).
  { apply existsb_exists. exists c. split; [|apply Ascii.eqb_refl].
    apply (in_skipn k). rewrite E. now left. }
  congruence.
Qed.

Lemma compose_forward (sp pre val : pystr) :
  forallb is_space sp = true -> forallb not_quote pre = true ->
  forallb not_quote val = true -> contains_char "=" val = false ->
  exec RE_COMPOSE 0 (compose_text sp pre val) no_marks =
  Some (Marks [(1, 0)] [(1, length sp + length pre + 3)],
        length (compose_text sp pre val)).
Proof.
  intros Hsp Hpre Hval Heq. unfold RE_COMPOSE, compose_text.
  rewrite exec_GOpen, exec_Bol.
  rewrite exec_Star, star_greedy_stop by reflexivity.
  rewrite exec_Lit, Ascii.eqb_refl.
  rewrite star_run; [|exact Hsp|reflexivity|].
  2:{ intros c Hc. cbn [can_start].
      now destruct (space_char c Hc) as [_ [_ [_ [_ [-> _]]]]]. }
  rewrite exec_Lit, Ascii.eqb_refl, exec_Star, star_greedy_first_down.
  apply first_down_pick with (i := length pre).
  - rewrite (span_all not_quote pre _ Hpre). lia.
  - rewrite skipn_length_app, exec_Lit, Ascii.eqb_refl, exec_GClose, exec_Star.
    apply star_greedy_whole; [exact Hval|reflexivity|].
    rewrite exec_Lit, Ascii.eqb_refl. cbn [exec].
    unfold set_end, set_start, no_marks. cbn [starts ends length].
    rewrite !length_app. cbn [length]. rewrite !length_app. cbn [length].
    f_equal. f_equal; [|rewrite ?length_app; cbn [length]; lia].
    do 3 f_equal. lia.
  - intros j Hj.
    replace j with (length (pre ++ ["="%char]) + (j - length pre - 1))
      by (rewrite length_app; cbn [length]; lia).
    replace (pre ++ "="%char :: val ++ [QUOTE])
      with ((pre ++ ["="%char]) ++ val ++ [QUOTE])
      by (now rewrite <- app_assoc).
    rewrite skipn_add_app. apply lit_absent.
    rewrite contains_char_app, Heq. reflexivity.
Qed.

(** The value between the last equals sign and the closing quote gives way
    to the placeholder. *)
Lemma sub_compose (sp pre val : pystr) :
  forallb is_space sp = true -> forallb not_quote pre = true ->
  forallb not_quote val = true -> contains_char "=" val = false ->
  re_sub RE_COMPOSE [TGroup 1; TLit VALUE_QUOTE] (compose_text sp pre val) =
  compose_text sp pre (py "<VALUE>").
Proof.
  intros Hsp Hpre Hval Heq.
  rewrite (re_sub_anchored _ _ _ anchored_compose).
  rewrite (compose_forward sp pre val Hsp Hpre Hval Heq), expand_group1.
  rewrite skipn_whole by lia. rewrite app_nil_r. unfold compose_text.
  replace ("-"%char :: sp ++ QUOTE :: pre ++ "="%char :: val ++ [QUOTE])
    with (("-"%char :: sp ++ QUOTE :: pre ++ ["="%char]) ++ val ++ [QUOTE])
    by (cbn [app]; rewrite <- ?app_assoc; cbn [app];
        now rewrite <- ?app_assoc).
  replace (length sp + length pre + 3)
    with (length ("-"%char :: sp ++ QUOTE :: pre ++ ["="%char]))
    by (cbn [length]; rewrite ?length_app; cbn [length];
        rewrite ?length_app; cbn [length]; lia).
  rewrite firstn_length_app. unfold VALUE_QUOTE.
  cbn [app]. rewrite <- ?app_assoc. cbn [app]. now rewrite <- ?app_assoc.
Qed.

Lemma eol_inv (pos : nat) (s : pystr) (m : marks) (r : marks * nat) :
  exec [Eol] pos s m = Some r -> s = [] \/ s = [LF].
Proof.
  destruct s as [|x [|y s]]; [now left| |discriminate].
  cbn [exec]. destruct (Ascii.eqb x LF) eqn:E; [|discriminate].
  apply Ascii.eqb_eq in E. subst. now right.
Qed.

Lemma compose_shape (u : pystr) (r : marks * nat) :
  exec RE_COMPOSE 0 u no_marks = Some r -> span is_space u = 0 ->
  forallb is_dot u = true ->
  exists sp pre val, u = compose_text sp pre val /\
    forallb is_space sp = true /\ forallb not_quote pre = true /\
    forallb not_quote val = true /\ contains_char "=" val = false.
Proof.
  unfold RE_COMPOSE. rewrite exec_GOpen, exec_Bol. intros H Hu Hdot.
  apply exec_Star_inv in H as [sp1 [r1 [E1 [S1 H]]]].
  rewrite E1 in Hu. rewrite (span_zero_run _ _ _ S1 Hu) in *. clear S1 Hu.
  cbn [app length] in *. subst r1.
  apply exec_Lit_inv in H as [r2 [E2 H]].
  apply exec_Star_inv in H as [sp [r3 [E3 [Hsp H]]]].
  apply exec_Lit_inv in H as [r4 [E4 H]].
  apply exec_Star_inv in H as [pre [r5 [E5 [Hpre H]]]].
  apply exec_Lit_inv in H as [r6 [E6 H]]. rewrite exec_GClose in H.
  apply exec_Star_inv in H as [val [r7 [E7 [Hval H]]]].
  apply exec_Lit_inv in H as [r8 [E8 H]].
  apply eol_inv in H. subst.
  assert (R8 : r8 = []).
  { destruct H as [H|H]; [exact H|]. exfalso. subst r8.
    rewrite forallb_forall in Hdot.
    assert (D : is_dot LF = true).
    { apply Hdot. right. apply in_or_app. right. right.
      apply in_or_app. right. right. apply in_or_app. right. right.
      now left. }
    discriminate D. }
  subst r8. clear H.
  assert (Hrun : forallb not_quote (pre ++ "="%char :: val) = true).
  { rewrite forallb_app. cbn [forallb]. now rewrite Hpre, Hval. }
  destruct (contains_char_split "=" (pre ++ "="%char :: val))
    as [pre' [val' [E Hv]]].
  { rewrite contains_char_app. unfold contains_char at 2. cbn [existsb].
    rewrite Ascii.eqb_refl. apply orb_true_r. }
  rewrite E in Hrun. rewrite forallb_app in Hrun. cbn [forallb] in Hrun.
  apply andb_true_iff in Hrun as [Hp' Hv']. cbn [andb] in Hv'.
  exists sp, pre', val'. split; [|now repeat split].
  unfold compose_text. do 2 f_equal.
  change (pre ++ "="%char :: val ++ [QUOTE])
    with (pre ++ ("="%char :: val) ++ [QUOTE]).
  rewrite app_assoc, E. now rewrite <- app_assoc.
Qed.

(** *** One part of a line replaced by a placeholder *)

Lemma contains_needs_char (s m : pystr) (c : ascii) :
  contains s m = true -> contains_char c m = true -> contains_char c s = true.
Proof.
  intros H Hc. destruct (contains_startswith s m H) as [j [_ Hj]].
  apply startswith_split in Hj. apply existsb_exists in Hc as [x [Hx Ex]].
  apply existsb_exists. exists x. split; [|exact Ex].
  apply (in_skipn j). rewrite Hj. apply in_or_app. now left.
Qed.

(** The characters of the four markers. *)
Definition is_marker_char (c : ascii) : bool :=
  is_upper c || Ascii.eqb c "_" || Ascii.eqb c "=".

(** A marker absent from a line stays absent when a part of the line gives
    way to a text between two characters foreign to markers and without
    equals sign. *)
Lemma absent_splice (a x b m : pystr) (c1 : ascii) (mid : pystr) (c2 : ascii) :
  forallb is_marker_char m = true -> contains_char "=" m = true ->
  is_marker_char c1 = false -> is_marker_char c2 = false ->
  contains_char "=" mid = false ->
  contains (a ++ x ++ b) m = false ->
  contains (a ++ (c1 :: mid ++ [c2]) ++ b) m = false.
Proof.
  intros Hm Heq H1 H2 Hmid Habs.
  destruct (contains (a ++ (c1 :: mid ++ [c2]) ++ b) m) eqn:E; [|reflexivity].
  exfalso. cbn [app] in E. rewrite <- app_assoc in E. cbn [app] in E.
  apply contains_sep in E;
    [|exact (contains_char_false_forallb c1 _ m H1 Hm)].
  destruct E as [E|E].
  - rewrite (contains_app_l a (x ++ b) m E) in Habs. discriminate.
  - apply contains_sep in E;
      [|exact (contains_char_false_forallb c2 _ m H2 Hm)].
    destruct E as [E|E].
    + pose proof (contains_needs_char mid m "=" E Heq). congruence.
    + rewrite (contains_app_r a _ m (contains_app_r x _ m E)) in Habs.
      discriminate.
Qed.

Lemma last_app_r (l l' : pystr) (d : ascii) :
  l' <> [] -> last (l ++ l') d = last l' d.
Proof.
  intros H. induction l as [|x l IH]; [reflexivity|]. cbn [app last].
  destruct (l ++ l') eqn:E; [|exact IH].
  apply app_eq_nil in E as [_ E]. contradiction.
Qed.

(** A trimmed line stays trimmed when a part of it that is not its start
    gives way to a text that ends with no white space. *)
Lemma trimmed_splice (a x y b : pystr) :
  a <> [] -> strip (a ++ x ++ b) = a ++ x ++ b ->
  y <> [] -> is_space (last y " "%char) = false ->
  strip (a ++ y ++ b) = a ++ y ++ b.
Proof.
  intros Ha Hu Hy Hl. destruct a as [|c a]; [contradiction|].
  cbn [app]. apply trimmed_ends.
  - exact (trimmed_hd _ Hu c _ eq_refl).
  - change (c :: a ++ y ++ b) with ((c :: a) ++ y ++ b).
    destruct b as [|d b].
    + rewrite app_nil_r. now rewrite last_app_r.
    + rewrite app_assoc, last_app_r by discriminate.
      pose proof (trimmed_last _ Hu) as T.
      rewrite app_assoc, last_app_r in T by discriminate.
      apply T. discriminate.
Qed.

(** A line that ends with a text stays so when a part of it that ends with
    a character foreign to that text gives way to another. *)
Lemma suffix_splice (a x : pystr) (c : ascii) (b y t : pystr) :
  contains_char c t = false ->
  (exists p, a ++ (x ++ [c]) ++ b = p ++ t) ->
  exists p, a ++ y ++ b = p ++ t.
Proof.
  intros Hc [p E].
  destruct (suffix_after c t b Hc p (a ++ x)) as [r Hr].
  - rewrite <- E. rewrite <- !app_assoc. reflexivity.
  - exists (a ++ y ++ r). rewrite Hr. now rewrite <- !app_assoc.
Qed.

(** *** The four secret rewrites *)

(** The placeholder [<NAME>]. *)
Definition holder (name : pystr) : pystr := "<"%char :: name ++ [">"%char].

(** The markers without their equals sign, and the names in their
    placeholders, in the order of the rewrites. *)
Definition KINDS : list (pystr * pystr) :=
  [(py "_SECRET", py "SECRET"); (py "_KEY", py "KEY");
   (py "_TOKEN", py "TOKEN"); (py "_PASSWORD", py "PASSWORD")].

Definition is_plain (c : ascii) : bool := is_upper c || Ascii.eqb c "_".

(** The characters of a marker followed by its placeholder. *)
Definition is_holder_char (c : ascii) : bool :=
  is_marker_char c || Ascii.eqb c "<" || Ascii.eqb c ">".

Definition rewrite_marker (sfx name : pystr) (u : pystr) : pystr :=
  re_sub (marker_re sfx) [TGroup 1; TLit (holder name)] u.

(** A rewrite has nothing left to do on a line: its marker is absent, or
    the line ends with the marker and its placeholder. *)
Definition settled_kind (sfx name u : pystr) : Prop :=
  contains u (sfx ++ ["="%char]) = false \/
  exists p, u = p ++ (sfx ++ ["="%char]) ++ holder name.

Definition settled (u : pystr) : Prop :=
  forall sfx name, In (sfx, name) KINDS -> settled_kind sfx name u.

(** Trimmed, without line feed, and no assignment. *)
Definition steady (u : pystr) : Prop :=
  forallb is_dot u = true /\ strip u = u /\ exec RE_ENV 0 u no_marks = None.

Lemma plain_char (c : ascii) :
  is_plain c = true ->
  is_dot c = true /\ is_marker_char c = true /\ is_holder_char c = true /\
  Ascii.eqb "=" c = false.
Proof. by_cases_on_char c. Qed.

Lemma kinds_plain (sfx name : pystr) :
  In (sfx, name) KINDS ->
  forallb is_plain sfx = true /\ forallb is_plain name = true.
Proof.
  intros H. repeat (destruct H as [H|H]; [inversion H; now split|]).
  contradiction.
Qed.

Lemma marker_chars (sfx : pystr) :
  forallb is_plain sfx = true ->
  forallb is_marker_char (sfx ++ ["="%char]) = true /\
  contains_char "=" (sfx ++ ["="%char]) = true.
Proof.
  intros H. split.
  - rewrite forallb_app. rewrite (forallb_impl is_plain is_marker_char sfx);
      [reflexivity| |exact H].
    intros c Hc. now destruct (plain_char c Hc) as [_ [-> _]].
  - rewrite contains_char_app. unfold contains_char at 2. cbn [existsb].
    rewrite Ascii.eqb_refl. apply orb_true_r.
Qed.

Lemma holder_no_eq (name : pystr) :
  forallb is_plain name = true -> contains_char "=" (holder name) = false.
Proof.
  intros H. unfold holder, contains_char. cbn [existsb].
  rewrite existsb_app. cbn [existsb].
  fold (contains_char "=" name).
  rewrite (contains_char_false_forallb "=" is_plain name eq_refl H).
  reflexivity.
Qed.

Lemma holder_dots (name : pystr) :
  forallb is_plain name = true -> forallb is_dot (holder name) = true.
Proof.
  intros H. unfold holder. cbn [forallb]. rewrite forallb_app.
  rewrite (forallb_impl is_plain is_dot name); [reflexivity| |exact H].
  intros c Hc. now destruct (plain_char c Hc) as [-> _].
Qed.

Lemma holder_last (name : pystr) : last (holder name) " "%char = ">"%char.
Proof.
  unfold holder. change ("<"%char :: name ++ [">"%char])
    with (("<"%char :: name) ++ [">"%char]). apply last_last.
Qed.

Lemma marked_chars (sfx name : pystr) :
  forallb is_plain sfx = true -> forallb is_plain name = true ->
  forallb is_holder_char ((sfx ++ ["="%char]) ++ holder name) = true.
Proof.
  intros H1 H2.
  assert (P : forall t, forallb is_plain t = true ->
                        forallb is_holder_char t = true).
  { intros t. apply forallb_impl. intros c Hc.
    now destruct (plain_char c Hc) as [_ [_ [-> _]]]. }
  unfold holder. rewrite forallb_app. cbn [forallb].
  rewrite !forallb_app. cbn [forallb]. rewrite (P sfx H1), (P name H2).
  reflexivity.
Qed.

Lemma firstn_add_skipn {A : Type} (n k : nat) (u : list A) :
  firstn (n + k) u = firstn n u ++ firstn k (skipn n u).
Proof.
  revert u; induction n as [|n IH]; intros u; [reflexivity|].
  destruct u as [|x u];
    [cbn [Nat.add firstn skipn app]; now rewrite firstn_nil|].
  cbn [Nat.add firstn skipn app]. now rewrite IH.
Qed.

(** A settled rewrite leaves the line alone. *)
Lemma settled_sub (sfx name u : pystr) :
  forallb is_plain name = true -> forallb is_dot u = true ->
  settled_kind sfx name u -> rewrite_marker sfx name u = u.
Proof.
  intros Hn Hdot Hs. unfold rewrite_marker.
  rewrite (sub_marker_gen sfx (holder name) u Hdot).
  destruct Hs as [Habs|[p ->]].
  - now rewrite (last_marker_absent _ u Habs).
  - rewrite (last_marker_fixed sfx (holder name) p (holder_no_eq name Hn)).
    rewrite app_assoc. rewrite <- length_app.
    now rewrite firstn_length_app.
Qed.

(** A rewrite whose marker is present cuts the line after the marker. *)
Lemma marker_cut (sfx name u : pystr) :
  forallb is_dot u = true -> contains u (sfx ++ ["="%char]) = true ->
  exists n p, rewrite_marker sfx name u = firstn n u ++ holder name /\
              firstn n u = p ++ sfx ++ ["="%char].
Proof.
  intros Hdot H. unfold rewrite_marker.
  rewrite (sub_marker_gen sfx (holder name) u Hdot).
  destruct (last_marker_present _ u H) as [n [-> Hn]].
  exists (n + length (sfx ++ ["="%char])), (firstn n u).
  split; [reflexivity|]. rewrite firstn_add_skipn. f_equal.
  rewrite (startswith_split _ _ Hn) at 1. apply firstn_length_app.
Qed.

Lemma marker_cut_keeps (sfx name s : pystr) :
  forallb is_plain sfx = true -> forallb is_plain name = true ->
  steady s -> contains s (sfx ++ ["="%char]) = true ->
  steady (rewrite_marker sfx name s) /\
  settled_kind sfx name (rewrite_marker sfx name s) /\
  (forall sfx', forallb is_plain sfx' = true ->
     contains s (sfx' ++ ["="%char]) = false ->
     contains (rewrite_marker sfx name s) (sfx' ++ ["="%char]) = false).
Proof.
  intros Hs Hn [Hdot [Htrim Hfree]] Hc.
  destruct (marker_cut sfx name s Hdot Hc) as [n [p [-> Ep]]].
  assert (Es : s = firstn n s ++ skipn n s ++ [])
    by (now rewrite app_nil_r, firstn_skipn).
  assert (Eu : firstn n s ++ holder name = firstn n s ++ holder name ++ [])
    by (now rewrite app_nil_r).
  split; [split; [|split]|split].
  - rewrite forallb_app, (forallb_firstn _ n s Hdot). now apply holder_dots.
  - rewrite Eu. apply (trimmed_splice _ (skipn n s)).
    + rewrite Ep. now destruct p, sfx.
    + now rewrite <- Es.
    + discriminate.
    + now rewrite holder_last.
  - apply env_free_cut; [exact Hdot|exact Hfree|].
    rewrite Ep, !contains_char_app. unfold contains_char at 3.
    cbn [existsb]. rewrite Ascii.eqb_refl. now rewrite !orb_true_r.
  - right. exists p. rewrite Ep. now rewrite <- !app_assoc.
  - intros sfx' Hs' Habs. rewrite Eu.
    destruct (marker_chars sfx' Hs') as [M1 M2].
    apply (absent_splice _ (skipn n s)); try assumption; try reflexivity.
    + apply (contains_char_false_forallb "=" is_plain name eq_refl Hn).
    + now rewrite <- Es.
Qed.

Definition rewrite_markers (u : pystr) : pystr :=
  rewrite_marker (py "_PASSWORD") (py "PASSWORD")
    (rewrite_marker (py "_TOKEN") (py "TOKEN")
       (rewrite_marker (py "_KEY") (py "KEY")
          (rewrite_marker (py "_SECRET") (py "SECRET") u))).

(** How many of the four markers a line holds. *)
Definition MARKERS : list pystr :=
  [py "_SECRET="; py "_KEY="; py "_TOKEN="; py "_PASSWORD="].

Definition marker_kinds (s : pystr) : nat :=
  length (filter (contains s) MARKERS).

Lemma absent_id (sfx name u : pystr) :
  forallb is_plain name = true -> forallb is_dot u = true ->
  contains u (sfx ++ ["="%char]) = false -> rewrite_marker sfx name u = u.
Proof. intros Hn Hdot H. apply settled_sub; [exact Hn|exact Hdot|now left]. Qed.

Ltac settle_kinds Hin Set1 Abs1 :=
  repeat (destruct Hin as [Hin|Hin];
          [inversion Hin; subst; clear Hin;
           first [exact Set1
                 | left; apply Abs1; [reflexivity|assumption]
                 | left; assumption]
          |]);
  contradiction.

(** On a line with markers of one kind at most, the four secret rewrites
    leave a line on which each of them is settled. *)
Lemma marker_stage (s : pystr) :
  steady s -> marker_kinds s <= 1 ->
  steady (rewrite_markers s) /\ settled (rewrite_markers s).
Proof.
  intros St Hk. pose proof St as [Hdot _].
  unfold marker_kinds, MARKERS in Hk. cbn [filter] in Hk.
  change (py "_SECRET=") with (py "_SECRET" ++ ["="%char]) in Hk.
  change (py "_KEY=") with (py "_KEY" ++ ["="%char]) in Hk.
  change (py "_TOKEN=") with (py "_TOKEN" ++ ["="%char]) in Hk.
  change (py "_PASSWORD=") with (py "_PASSWORD" ++ ["="%char]) in Hk.
  unfold rewrite_markers.
  destruct (contains s (py "_SECRET" ++ ["="%char])) eqn:C1;
  destruct (contains s (py "_KEY" ++ ["="%char])) eqn:C2;
  destruct (contains s (py "_TOKEN" ++ ["="%char])) eqn:C3;
  destruct (contains s (py "_PASSWORD" ++ ["="%char])) eqn:C4;
  cbn [length] in Hk; try lia; clear Hk.
  - destruct (marker_cut_keeps (py "_SECRET") (py "SECRET") s eq_refl eq_refl St C1)
      as [St1 [Set1 Abs1]].
    pose proof St1 as [Hdot1 _].
    rewrite (absent_id (py "_KEY")) by
      (try reflexivity; try assumption; now apply Abs1).
    rewrite (absent_id (py "_TOKEN")) by
      (try reflexivity; try assumption; now apply Abs1).
    rewrite (absent_id (py "_PASSWORD")) by
      (try reflexivity; try assumption; now apply Abs1).
    split; [exact St1|]. intros sfx name Hin. settle_kinds Hin Set1 Abs1.
  - rewrite (absent_id (py "_SECRET")) by (try reflexivity; assumption).
    destruct (marker_cut_keeps (py "_KEY") (py "KEY") s eq_refl eq_refl St C2)
      as [St1 [Set1 Abs1]].
    pose proof St1 as [Hdot1 _].
    rewrite (absent_id (py "_TOKEN")) by
      (try reflexivity; try assumption; now apply Abs1).
    rewrite (absent_id (py "_PASSWORD")) by
      (try reflexivity; try assumption; now apply Abs1).
    split; [exact St1|]. intros sfx name Hin. settle_kinds Hin Set1 Abs1.
  - rewrite (absent_id (py "_SECRET")) by (try reflexivity; assumption).
    rewrite (absent_id (py "_KEY")) by (try reflexivity; assumption).
    destruct (marker_cut_keeps (py "_TOKEN") (py "TOKEN") s eq_refl eq_refl St C3)
      as [St1 [Set1 Abs1]].
    pose proof St1 as [Hdot1 _].
    rewrite (absent_id (py "_PASSWORD")) by
      (try reflexivity; try assumption; now apply Abs1).
    split; [exact St1|]. intros sfx name Hin. settle_kinds Hin Set1 Abs1.
  - rewrite (absent_id (py "_SECRET")) by (try reflexivity; assumption).
    rewrite (absent_id (py "_KEY")) by (try reflexivity; assumption).
    rewrite (absent_id (py "_TOKEN")) by (try reflexivity; assumption).
    destruct (marker_cut_keeps (py "_PASSWORD") (py "PASSWORD") s eq_refl eq_refl St C4)
      as [St1 [Set1 Abs1]].
    split; [exact St1|]. intros sfx name Hin. settle_kinds Hin Set1 Abs1.
  - rewrite (absent_id (py "_SECRET")) by (try reflexivity; assumption).
    rewrite (absent_id (py "_KEY")) by (try reflexivity; assumption).
    rewrite (absent_id (py "_TOKEN")) by (try reflexivity; assumption).
    rewrite (absent_id (py "_PASSWORD")) by (try reflexivity; assumption).
    split; [exact St|]. intros sfx name Hin.
    repeat (destruct Hin as [Hin|Hin];
            [inversion Hin; subst; clear Hin; left; assumption|]).
    contradiction.
Qed.

(** Settled rewrites leave the line alone, one after the other. *)
Lemma settled_markers (u : pystr) :
  forallb is_dot u = true -> settled u -> rewrite_markers u = u.
Proof.
  intros Hdot Hs. unfold rewrite_markers.
  rewrite (settled_sub (py "_SECRET") (py "SECRET") u eq_refl Hdot)
    by (apply Hs; simpl; tauto).
  rewrite (settled_sub (py "_KEY") (py "KEY") u eq_refl Hdot)
    by (apply Hs; simpl; tauto).
  rewrite (settled_sub (py "_TOKEN") (py "TOKEN") u eq_refl Hdot)
    by (apply Hs; simpl; tauto).
  apply (settled_sub (py "_PASSWORD") (py "PASSWORD") u eq_refl Hdot).
  apply Hs; simpl; tauto.
Qed.

(** *** The field and compose rewrites on a settled line *)

Definition rewrite_str (u : pystr) : pystr :=
  re_sub RE_FIELD_STR [TGroup 1; TLit QUOTED_VALUE] u.

Definition rewrite_num (u : pystr) : pystr :=
  re_sub RE_FIELD_NUM [TGroup 1; TLit (py "<NUMBER>")] u.

Definition rewrite_compose (u : pystr) : pystr :=
  re_sub RE_COMPOSE [TGroup 1; TLit VALUE_QUOTE] u.

Lemma no_match_id (re : regex) (repl : template) (u : pystr) :
  anchored re -> exec re 0 u no_marks = None -> re_sub re repl u = u.
Proof. intros Ha H. now rewrite (re_sub_anchored re repl u Ha), H. Qed.

Lemma splice_dots (a x y b : pystr) :
  forallb is_dot (a ++ x ++ b) = true -> forallb is_dot y = true ->
  forallb is_dot (a ++ y ++ b) = true.
Proof.
  rewrite !forallb_app. intros H Hy.
  apply andb_true_iff in H as [Ha H]. apply andb_true_iff in H as [_ Hb].
  now rewrite Ha, Hy, Hb.
Qed.

Lemma splice_settled (a x : pystr) (c : ascii) (b : pystr) (c1 : ascii)
    (mid : pystr) (c2 : ascii) :
  settled (a ++ (x ++ [c]) ++ b) -> is_holder_char c = false ->
  is_marker_char c1 = false -> is_marker_char c2 = false ->
  contains_char "=" mid = false ->
  settled (a ++ (c1 :: mid ++ [c2]) ++ b).
Proof.
  intros Hs Hc H1 H2 Hmid sfx name Hin.
  destruct (kinds_plain sfx name Hin) as [Ps Pn].
  destruct (marker_chars sfx Ps) as [M1 M2].
  destruct (Hs sfx name Hin) as [Habs|Hfix].
  - left. now apply (absent_splice a (x ++ [c])).
  - right. apply (suffix_splice a x c b); [|exact Hfix].
    exact (contains_char_false_forallb c is_holder_char _ Hc
             (marked_chars sfx name Ps Pn)).
Qed.

Lemma trimmed_span (u : pystr) : strip u = u -> span is_space u = 0.
Proof.
  intros H. destruct u as [|c r]; [reflexivity|]. cbn [span].
  now rewrite (trimmed_hd _ H c r eq_refl).
Qed.

Lemma digit_char (c : ascii) :
  is_digit c = true -> is_holder_char c = false /\ is_dot c = true.
Proof. by_cases_on_char c. Qed.

(** After the three rewrites the line is steady and settled, and each of
    the three leaves it alone. *)
Lemma fields_stage (u : pystr) :
  steady u -> settled u ->
  let w := rewrite_compose (rewrite_num (rewrite_str u)) in
  steady w /\ settled w /\
  rewrite_str w = w /\ rewrite_num w = w /\ rewrite_compose w = w.
Proof.
  intros [Hdot [Htrim Hfree]] Hset. cbv zeta.
  pose proof (trimmed_span u Htrim) as Hspan.
  destruct (exec RE_FIELD_STR 0 u no_marks) as [r|] eqn:E6.
  { destruct (field_str_shape u r E6 Hspan) as [h [body [rest [-> [Hh Hb]]]]].
    rewrite (sub_field_str h body rest Hh Hb : rewrite_str _ = _).
    destruct (head_first h Hh) as [c [h' [Eh Hc]]].
    assert (S6 : rewrite_str (h ++ QUOTED_VALUE ++ rest) =
                 h ++ QUOTED_VALUE ++ rest)
      by exact (sub_field_str h (py "<VALUE>") rest Hh eq_refl).
    assert (N6 : rewrite_num (h ++ QUOTED_VALUE ++ rest) =
                 h ++ QUOTED_VALUE ++ rest).
    { apply no_match_id; [apply anchored_field|].
      exact (field_num_miss h QUOTE _ Hh eq_refl eq_refl). }
    assert (C6 : rewrite_compose (h ++ QUOTED_VALUE ++ rest) =
                 h ++ QUOTED_VALUE ++ rest).
    { apply no_match_id; [apply anchored_compose|]. rewrite Eh.
      now apply compose_miss. }
    rewrite N6, C6.
    assert (Eu : h ++ QUOTE :: body ++ QUOTE :: rest =
                 h ++ ((QUOTE :: body) ++ [QUOTE]) ++ rest)
      by (cbn [app]; now rewrite <- app_assoc).
    rewrite Eu in Hdot, Htrim, Hset.
    split; [split; [|split]|split; [|now repeat split]].
    - now apply (splice_dots h ((QUOTE :: body) ++ [QUOTE]) QUOTED_VALUE rest).
    - apply (trimmed_splice h ((QUOTE :: body) ++ [QUOTE]) QUOTED_VALUE rest);
        try assumption;
        try discriminate; try reflexivity. rewrite Eh. discriminate.
    - now apply head_env_free.
    - now apply (splice_settled h (QUOTE :: body) QUOTE rest QUOTE
                   (py "<VALUE>") QUOTE Hset). }
  rewrite (no_match_id _ _ u (anchored_field _) E6 : rewrite_str u = u).
  destruct (exec RE_FIELD_NUM 0 u no_marks) as [r|] eqn:E7.
  { destruct (field_num_shape u r E7 Hspan)
      as [h [d [ds [rest [-> [Hh [Hd [Hds Hrest]]]]]]]].
    rewrite (sub_field_num h d ds rest Hh Hd Hds Hrest : rewrite_num _ = _).
    destruct (head_first h Hh) as [c [h' [Eh Hc]]].
    assert (S7 : rewrite_str (h ++ py "<NUMBER>" ++ rest) =
                 h ++ py "<NUMBER>" ++ rest).
    { apply no_match_id; [apply anchored_field|].
      exact (field_str_miss h "<" _ Hh eq_refl eq_refl). }
    assert (N7 : rewrite_num (h ++ py "<NUMBER>" ++ rest) =
                 h ++ py "<NUMBER>" ++ rest).
    { apply no_match_id; [apply anchored_field|].
      exact (field_num_miss h "<" _ Hh eq_refl eq_refl). }
    assert (C7 : rewrite_compose (h ++ py "<NUMBER>" ++ rest) =
                 h ++ py "<NUMBER>" ++ rest).
    { apply no_match_id; [apply anchored_compose|]. rewrite Eh.
      now apply compose_miss. }
    rewrite C7.
    destruct (@exists_last _ (d :: ds)) as [x [e Ex]]; [discriminate|].
    assert (He : is_digit e = true).
    { assert (F : forallb is_digit (d :: ds) = true)
        by (cbn [forallb]; now rewrite Hd, Hds).
      rewrite Ex, forallb_app in F. apply andb_true_iff in F as [_ F].
      cbn [forallb] in F. now apply andb_true_iff in F as [F _]. }
    assert (Eu : h ++ d :: ds ++ rest = h ++ (x ++ [e]) ++ rest)
      by (now rewrite <- Ex).
    rewrite Eu in Hdot, Htrim, Hset.
    split; [split; [|split]|split; [|now repeat split]].
    - now apply (splice_dots h (x ++ [e]) (py "<NUMBER>") rest).
    - apply (trimmed_splice h (x ++ [e]) (py "<NUMBER>") rest);
        try assumption;
        try discriminate; try reflexivity. rewrite Eh. discriminate.
    - now apply head_env_free.
    - destruct (digit_char e He) as [Hhc _].
      now apply (splice_settled h x e rest "<" (py "NUMBER") ">" Hset). }
  rewrite (no_match_id _ _ u (anchored_field _) E7 : rewrite_num u = u).
  destruct (exec RE_COMPOSE 0 u no_marks) as [r|] eqn:E8.
  { destruct (compose_shape u r E8 Hspan Hdot)
      as [sp [pre [val [-> [Hsp [Hpre [Hval Heq]]]]]]].
    rewrite (sub_compose sp pre val Hsp Hpre Hval Heq
             : rewrite_compose _ = _).
    assert (S8 : rewrite_str (compose_text sp pre (py "<VALUE>")) =
                 compose_text sp pre (py "<VALUE>")).
    { apply no_match_id; [apply anchored_field|]. apply field_dash. }
    assert (N8 : rewrite_num (compose_text sp pre (py "<VALUE>")) =
                 compose_text sp pre (py "<VALUE>")).
    { apply no_match_id; [apply anchored_field|]. apply field_dash. }
    assert (C8 : rewrite_compose (compose_text sp pre (py "<VALUE>")) =
                 compose_text sp pre (py "<VALUE>"))
      by exact (sub_compose sp pre (py "<VALUE>") Hsp Hpre eq_refl eq_refl).
    assert (Ev : forall v, compose_text sp pre v =
                   ("-"%char :: sp ++ QUOTE :: pre ++ ["="%char]) ++
                   (v ++ [QUOTE]) ++ []).
    { intros v. unfold compose_text. rewrite app_nil_r. cbn [app].
      rewrite <- ?app_assoc. cbn [app]. now rewrite <- ?app_assoc. }
    rewrite (Ev val) in Hdot, Htrim, Hset.
    split; [split; [|split]|split; [|now repeat split]].
    - rewrite (Ev (py "<VALUE>")).
      now apply (splice_dots _ (val ++ [QUOTE]) (py "<VALUE>" ++ [QUOTE]) []).
    - rewrite (Ev (py "<VALUE>")).
      apply (trimmed_splice _ (val ++ [QUOTE]) (py "<VALUE>" ++ [QUOTE]) []);
        try assumption; try discriminate; reflexivity.
    - unfold compose_text.
      now apply (env_free_by_char [] "-" _).
    - rewrite (Ev (py "<VALUE>")).
      now apply (splice_settled _ val QUOTE [] "<" (py "VALUE>") QUOTE Hset). }
  rewrite (no_match_id _ _ u anchored_compose E8 : rewrite_compose u = u).
  split; [now repeat split|]. split; [exact Hset|].
  split; [|split].
  - exact (no_match_id _ _ u (anchored_field _) E6).
  - exact (no_match_id _ _ u (anchored_field _) E7).
  - exact (no_match_id _ _ u anchored_compose E8).
Qed.

(** *** Normalising twice *)

Lemma normalize_stages (line : pystr) :
  normalize_line line =
  rewrite_compose
    (rewrite_num
       (rewrite_str
          (rewrite_markers
             (re_sub RE_ENV [TGroup 1; TLit (py "=<VALUE>")] (strip line))))).
Proof. reflexivity. Qed.

(** A steady and settled line that the last three rewrites leave alone is
    its own normal form. *)
Lemma steady_normal (w : pystr) :
  steady w -> settled w ->
  rewrite_str w = w -> rewrite_num w = w -> rewrite_compose w = w ->
  normalize_line w = w.
Proof.
  intros [Hdot [Htrim Hfree]] Hset F6 F7 F8.
  rewrite normalize_stages, Htrim.
  rewrite (no_match_id _ _ w anchored_env Hfree).
  rewrite (settled_markers w Hdot Hset). now rewrite F6, F7, F8.
Qed.

(** The normal form of a line that is no assignment and holds markers of
    one kind at most is its own normal form. *)
Lemma free_lines_are_idempotent (line : pystr) :
  forallb is_dot (strip line) = true ->
  exec RE_ENV 0 (strip line) no_marks = None ->
  marker_kinds (strip line) <= 1 ->
  normalize_line (normalize_line line) = normalize_line line.
Proof.
  intros Hdot Hfree Hk.
  assert (St : steady (strip line))
    by (split; [exact Hdot|split; [apply strip_idem|exact Hfree]]).
  destruct (marker_stage _ St Hk) as [St1 Set1].
  destruct (fields_stage _ St1 Set1) as [St2 [Set2 [F6 [F7 F8]]]].
  cbv zeta in St2, Set2, F6, F7, F8.
  rewrite (normalize_stages line).
  rewrite (no_match_id _ _ _ anchored_env Hfree).
  now apply steady_normal.
Qed.

(** A trimmed line that the key pattern matches holds no line feed. *)
Lemma env_match_dots (s : pystr) (r : marks * nat) :
  exec RE_ENV 0 s no_marks = Some r -> strip s = s ->
  forallb is_dot s = true.
Proof.
  unfold RE_ENV. rewrite exec_Bol, exec_GOpen. intros H Htrim.
  apply exec_Plus_inv in H as [x [key [r1 [E1 [Hx [Hkey H]]]]]].
  rewrite exec_GClose in H.
  apply exec_Lit_inv in H as [r2 [E2 H]].
  apply exec_Star_inv in H as [v [r3 [E3 [Hv H]]]].
  apply eol_inv in H. subst.
  assert (K : forallb is_dot (x :: key) = true).
  { apply (forallb_impl is_env_key is_dot).
    - intros c Hc. now destruct (env_key_char c Hc) as [-> _].
    - cbn [forallb]. now rewrite Hx, Hkey. }
  destruct H as [-> | ->].
  - rewrite app_nil_r. change (x :: key ++ "="%char :: v)
      with ((x :: key) ++ "="%char :: v).
    rewrite forallb_app, K. cbn [forallb andb]. now rewrite Hv.
  - exfalso. pose proof (trimmed_last _ Htrim) as T.
    replace (x :: key ++ "="%char :: v ++ [LF])
      with ((x :: key ++ "="%char :: v) ++ [LF]) in T
      by (cbn [app]; now rewrite <- app_assoc).
    rewrite last_last in T. discriminate T.
    intros F. now apply app_eq_nil in F as [_ F].
Qed.

(** The normal form of a line that the key pattern matches is its own
    normal form. *)
Lemma matched_lines_are_idempotent (line : pystr) (r : marks * nat) :
  exec RE_ENV 0 (strip line) no_marks = Some r ->
  normalize_line (normalize_line line) = normalize_line line.
Proof.
  intros E.
  pose proof (env_match_dots _ r E (strip_idem line)) as Hdot.
  destruct (env_match_shape _ r E) as [key [v [Es [Hne Hkey]]]].
  apply (assignments_are_idempotent line key v Es Hne Hkey).
  rewrite Es, forallb_app in Hdot. apply andb_true_iff in Hdot as [_ Hdot].
  cbn [forallb] in Hdot. now apply andb_true_iff in Hdot as [_ Hdot].
Qed.

(** A line feed inside a line without any secret marker but one: the first
    pass rewrites the quoted value that holds the line feed, and only the
    second pass, on the line now free of line feeds, rewrites the key. *)
Lemma inner_line_feed_changes_the_second_pass :
  let L := py "a: " ++ QUOTE :: py "x" ++ LF :: py "y" ++ QUOTE ::
           py " b_KEY=c" in
  marker_kinds (strip L) = 1 /\
  matched (re_match RE_ENV (strip L)) = false /\
  normalize_line L = py "a: " ++ QUOTED_VALUE ++ py " b_KEY=c" /\
  normalize_line (normalize_line L) =
    py "a: " ++ QUOTED_VALUE ++ py " b_KEY=<KEY>".
Proof. cbv zeta. repeat split; vm_compute; reflexivity. Qed.

(** C5, amended. Normalising twice gives what normalising once gives on
    every line to which the key rewrite applies, and on every line that
    after trimming holds no line feed and secret markers of one kind at
    most among [_SECRET=], [_KEY=], [_TOKEN=] and [_PASSWORD=]: lines in
    the JSON/YAML and compose shapes, lines with one marker repeated, and
    lines that no rewrite touches are among them. *)
Theorem normalize_line_idempotent_off_mixed_markers (line : pystr) :
  matched (re_match RE_ENV (strip line)) = true \/
  (forallb is_dot (strip line) = true /\ marker_kinds (strip line) <= 1) ->
  normalize_line (normalize_line line) = normalize_line line.
Proof.
  intros H.
  destruct (exec RE_ENV 0 (strip line) no_marks) as [r|] eqn:E.
  - exact (matched_lines_are_idempotent line r E).
  - destruct H as [H|[Hdot Hk]].
    + unfold re_match in H. rewrite E in H. discriminate H.
    + exact (free_lines_are_idempotent line Hdot E Hk).
Qed.

Lemma normalize_line_idempotent_off_mixed_markers_witness :
  let L := ln "  export api_KEY=abc # api_KEY=old" in
  normalize_line L = py "export api_KEY=abc # api_KEY=<KEY>" /\
  normalize_line (normalize_line L) = normalize_line L.
Proof.
  cbv zeta. split; [vm_compute; reflexivity|].
  apply normalize_line_idempotent_off_mixed_markers.
  right. split; [vm_compute; reflexivity|].
  vm_compute. apply le_n.
Defined.
